(** * Message-queuing harness for a shared MQTT subscription

    A shallow embedding of [src/config.py], [src/publisher.py] and
    [src/subscriber.py], and the properties of the delivery tracker, the
    connection lifecycle, the publisher loop and the disconnect simulator.

    Python objects are records, methods are state-passing functions in a
    small state-and-exception monad over the receiver ([self]) and the
    chronological list of effects the process has performed.  Everything
    that comes from outside the program (the MQTT transport, the clock,
    [uuid4], the file system, the JSON codec) is read from an environment
    [Env]; asynchronous callbacks and random draws are given by an explicit
    schedule. *)

From Stdlib Require Import ZArith QArith String List Bool Lia.
From stdpp Require Import base option gmap strings list pretty.

Set Warnings "-register-all,-clear-no-such-hyp".

Open Scope string_scope.
Open Scope Z_scope.
Open Scope list_scope.

(* ===================================================================== *)
(** ** Values decoded from a payload *)
(* ===================================================================== *)

(** What [json.loads] can return.  [JFloat m e] is the Python float whose
    exact value is [m * 10^e] (every finite float has such a value: the
    one [json.loads] rounded the literal to); the [NaN] and [Infinity]
    extensions have no representation here. *)
Inductive json :=
| JNull
| JBool (b : bool)
| JInt (z : Z)
| JFloat (m e : Z)
| JStr (s : string)
| JArr (items : list json)
| JObj (members : list (string * json)).

(** Lookup in a decoded object (a [dict] with string keys). *)
Fixpoint assoc (k : string) (members : list (string * json)) : option json :=
  match members with
  | [] => None
  | (k', v) :: rest => if decide (k = k') then Some v else assoc k rest
  end.

(** Keys of a Python [dict].  Numbers are keys by value, whatever their
    type: [1], [1.0] and [True] are one key.  [KInt z] is the key of every
    number equal to the integer [z]; [KFloat num den] is the key of the
    numbers equal to the fraction [num / den] when that is no integer, in
    lowest terms, as [number_key] produces it.  Lists and dicts are
    unhashable. *)
Inductive pykey :=
| KNone
| KInt (z : Z)
| KFloat (num den : Z)
| KStr (s : string).

#[global] Instance pykey_eq_dec : EqDecision pykey.
Proof. solve_decision. Defined.

Definition pykey_code (k : pykey) : unit + Z + (Z * Z) + string :=
  match k with
  | KNone => inl (inl (inl tt))
  | KInt z => inl (inl (inr z))
  | KFloat num den => inl (inr (num, den))
  | KStr s => inr s
  end.

Definition pykey_decode (c : unit + Z + (Z * Z) + string) : pykey :=
  match c with
  | inl (inl (inl _)) => KNone
  | inl (inl (inr z)) => KInt z
  | inl (inr (num, den)) => KFloat num den
  | inr s => KStr s
  end.

#[global] Instance pykey_countable : Countable pykey.
Proof.
  refine (inj_countable' pykey_code pykey_decode _).
  intros []; reflexivity.
Defined.

(** The number a float stands for, and the key of a number: its fraction
    in lowest terms, which is the key of an integer when the denominator
    is one. *)
Definition float_value (m e : Z) : Q := inject_Z m * (10 # 1) ^ e.

Definition number_key (q : Q) : pykey :=
  let r := Qred q in
  if (Qden r =? 1)%positive then KInt (Qnum r)
  else KFloat (Qnum r) (Z.pos (Qden r)).

Definition float_key (m e : Z) : pykey := number_key (float_value m e).

Definition hash_key (v : json) : option pykey :=
  match v with
  | JNull => Some KNone
  | JBool b => Some (KInt (Z.b2z b))
  | JInt z => Some (KInt z)
  | JFloat m e => Some (float_key m e)
  | JStr s => Some (KStr s)
  | JArr _ | JObj _ => None
  end.

(** The value of a decoded number, as Python compares it. *)
Definition number_value (v : json) : option Q :=
  match v with
  | JBool b => Some (inject_Z (Z.b2z b))
  | JInt z => Some (inject_Z z)
  | JFloat m e => Some (float_value m e)
  | _ => None
  end.

(** [awscrt.mqtt.QoS] and its [.value]. *)
Inductive QoS := AT_MOST_ONCE | AT_LEAST_ONCE | EXACTLY_ONCE.

Definition QoS_value (q : QoS) : Z :=
  match q with AT_MOST_ONCE => 0 | AT_LEAST_ONCE => 1 | EXACTLY_ONCE => 2 end.

(* ===================================================================== *)
(** ** Effects, exceptions and the environment *)
(* ===================================================================== *)

(** An exception below [Exception]; [exn_str] is [str(e)]. *)
Inductive exn := Exn (kind msg : string).

Definition exn_str (e : exn) : string := let (_, msg) := e in msg.

Inductive res (A : Type) :=
| Ret (a : A)
| Raise (e : exn).
Arguments Ret {A} a.
Arguments Raise {A} e.

(** The [mqtt.Connection] object [setup_mqtt_connection] returns, named by
    the position of the trace at which it was built. *)
Inductive Connection := Conn (serial : nat).

(** Requests to the MQTT library.  [Build] is
    [mqtt_connection_builder.mtls_from_path]; [Connect], [Subscribe] and
    [Disconnect] stand for the request together with the bounded wait on
    its future; [Publish] is the request alone, its future completes later
    through the callback. *)
Inductive call :=
| Build (client : string)
| Connect (client : string)
| Subscribe (client topic : string)
| Publish (client topic payload : string)
| Disconnect (client : string).

Inductive outcome :=
| Ack (info : Z)
| Nack (msg : string).

(** Console output, one constructor per message of the modelled code;
    prints that always follow one another are one message. *)
Inductive line :=
| LMissingFile (path : string)
| LConfigInvalid
| LInterrupted (client error : string)
| LAwaitReconnect
| LResumed (client : string) (session_present : bool)
| LQueuedIncoming
| LConnecting (endpoint : string)
| LConnected (client : string) (session_present : bool)
| LSubscribed (topic : string) (qos : Z)
| LConnectError (e : string)
| LConnectFailed
| LReceived (count : Z) (message_id : json)
| LReceivedDetail (sender sequence data : json)
| LMessageError (e : string)
| LSimulateStart (duration : Z)
| LAlreadyDisconnected
| LDisconnectError (e : string)
| LDisconnected
| LAlreadyDown
| LReconnecting
| LPublishDone (count : Z)
| LPublishFailed (e : string)
| LSkipNotConnected
| LPublished (message_id : string) (packet_id : Z)
| LPublishError (e : string)
| LLoopStart (interval : Q) (max_messages : Z)
| LLoopStopped
| LProgress (i max_messages : Z)
| LLoopDone
| LSummary (count : Z)
| LCheckSubscribers
| LTestStart
| LManagerStart (n : nat)
| LManagerConnected (success_count : Z) (n : nat)
| LManagerReady
| LSimulatorStart
| LStatHeader
| LStat (subscriber : string) (connected : bool) (count : Z)
| LStatTotal (total : Z)
| LStatQueuing (disconnected : Z)
| LStatHealthy
| LStopping
| LStartFailed
| LMainStart
| LMainRunning.

Inductive effect :=
| Transport (c : call)
| Console (l : line)
| Sleep (d : Q).

(** Everything the program reads from outside.  The transport, [uuid4] and
    the clock are asked at a position of the effect trace (the number of
    effects performed so far), so a run is a function of its environment. *)
Record Env := {
  json_loads : string -> option json;   (* [json.loads(payload.decode())] *)
  json_dumps : json -> string;
  transport : nat -> call -> outcome;
  uuid4 : nat -> string;
  now : nat -> string;                  (* [datetime.now().isoformat()] *)
  path_exists : string -> bool          (* [os.path.exists] *)
}.

(** *** The monad of methods *)

Definition M (Self A : Type) : Type :=
  Self -> list effect -> res A * Self * list effect.

Section Monad.
Context {Self : Type}.

Definition ret {A} (a : A) : M Self A := fun s tr => (Ret a, s, tr).

Definition bind {A B} (m : M Self A) (k : A -> M Self B) : M Self B :=
  fun s tr =>
    match m s tr with
    | (Ret a, s', tr') => k a s' tr'
    | (Raise e, s', tr') => (Raise e, s', tr')
    end.

Definition raise {A} (e : exn) : M Self A := fun s tr => (Raise e, s, tr).

Definition get : M Self Self := fun s tr => (Ret s, s, tr).

Definition modify (f : Self -> Self) : M Self unit :=
  fun s tr => (Ret tt, f s, tr).

Definition emit (e : effect) : M Self unit :=
  fun s tr => (Ret tt, s, tr ++ [e]).

Definition position : M Self nat := fun s tr => (Ret (length tr), s, tr).

(** [try: m  except Exception as e: h e]; what [m] did before raising
    stays done. *)
Definition try_except {A} (m : M Self A) (h : exn -> M Self A) : M Self A :=
  fun s tr =>
    match m s tr with
    | (Ret a, s', tr') => (Ret a, s', tr')
    | (Raise e, s', tr') => h e s' tr'
    end.

(** [try: m  finally: f]. *)
Definition try_finally {A} (m : M Self A) (f : M Self unit) : M Self A :=
  fun s tr =>
    match m s tr with
    | (r, s', tr') =>
        match f s' tr' with
        | (Ret _, s'', tr'') => (r, s'', tr'')
        | (Raise e, s'', tr'') => (Raise e, s'', tr'')
        end
    end.

Definition when (b : bool) (m : M Self unit) : M Self unit :=
  if b then m else ret tt.
End Monad.

(** Run [m] on an object local to the caller. *)
Definition with_object {Self Obj A} (obj : Obj) (m : M Obj A) : M Self A :=
  fun s tr => let '(r, _, tr') := m obj tr in (r, s, tr').

Declare Scope py_scope.
Delimit Scope py_scope with py.
Notation "'let*' x := m 'in' k" := (bind m (fun x => k))
  (at level 10, x name, m at level 100, k at level 200) : py_scope.
Notation "m >> k" := (bind m (fun _ => k))
  (at level 65, right associativity) : py_scope.
Open Scope py_scope.

(** Whether the conversion of a sleep length to a 64-bit count of
    nanoseconds succeeds.  An [int] is converted exactly, a [float] is
    multiplied by [1e9] in double precision: the bounds below are half a
    step of the doubles next to [2^63] inside it, and half a step outside
    [-2^63], which separates the accepted lengths from the refused ones
    for every [int] and every double (the largest accepted [int] is
    [9223372036]). *)
Definition sleep_fits (d : Q) : bool :=
  Qle_bool (-9223372036854776832 # 1) (d * (1000000000 # 1)) &&
  negb (Qle_bool (9223372036854775296 # 1) (d * (1000000000 # 1))).

(** The lengths [time.sleep] sleeps for, and what it raises on the
    others. *)
Definition sleepable (d : Q) : bool := sleep_fits d && Qle_bool 0 d.

Definition sleep_error (d : Q) : exn :=
  if sleep_fits d
  then Exn "ValueError" "sleep length must be non-negative"
  else Exn "OverflowError" "timestamp too large to convert to C _PyTime_t".

Section Primitives.
Context {Self : Type} (env : Env).

Definition print (l : line) : M Self unit := emit (Console l).

(** [time.sleep(d)] (CPython 3.11 and later): [d] is first converted to
    nanoseconds, which raises [OverflowError] when the count does not fit
    64 bits; a negative length is then a [ValueError]. *)
Definition sleep (d : Q) : M Self unit :=
  if sleepable d then emit (Sleep d) else raise (sleep_error d).

(** A request to the MQTT library and the wait for its result. *)
Definition request (c : call) : M Self Z :=
  fun s tr =>
    match transport env (length tr) c with
    | Ack info => (Ret info, s, tr ++ [Transport c])
    | Nack msg => (Raise (Exn "AwsCrtError" msg), s, tr ++ [Transport c])
    end.

Definition datetime_now : M Self string :=
  let* n := position in ret (now env n).

Definition new_uuid : M Self string :=
  let* n := position in ret (uuid4 env n).
End Primitives.

(** ["needle" in haystack]. *)
Definition contains (needle haystack : string) : bool :=
  match String.index 0 needle haystack with
  | Some _ => true
  | None => false
  end.

(* ===================================================================== *)
(** ** config.py *)
(* ===================================================================== *)

Module Config.

(** The attributes [__init__] reads from the process environment. *)
Record AWSIoTConfig := {
  endpoint : string;
  root_ca_path : string;
  cert_path : string;
  private_key_path : string;
  client_id_prefix : string;
  topic_prefix : string;
  shared_subscription_group : string
}.

Definition get_shared_topic (self : AWSIoTConfig) : string :=
  ("$share/" ++ shared_subscription_group self ++ "/"
     ++ topic_prefix self ++ "/messages")%string.

Definition get_publish_topic (self : AWSIoTConfig) : string :=
  (topic_prefix self ++ "/messages")%string.

Section Validate.
Context {Self : Type} (env : Env).

(** The [for file_path in required_files] loop of [validate]. *)
Fixpoint validate_files (required_files : list string) : M Self bool :=
  match required_files with
  | [] => ret true
  | file_path :: rest =>
      if negb (path_exists env file_path)
      then print (LMissingFile file_path) >> ret false
      else validate_files rest
  end.

Definition validate (self : AWSIoTConfig) : M Self bool :=
  validate_files [root_ca_path self; cert_path self; private_key_path self].
End Validate.

End Config.

(* ===================================================================== *)
(** ** subscriber.py *)
(* ===================================================================== *)

Module Subscriber.
Import Config.

(** A value of [processed_messages]. *)
Record received := {
  received_at : string;
  topic : string;
  qos : Z;
  data : json
}.

(** [reconnect_threads] is not an attribute of the Python object: it lists
    the sleep lengths of the [reconnect_after_delay] threads that
    [simulate_disconnect] has started on this object and that have not
    woken up yet.  The [lock] attribute has no field: every method below
    runs atomically. *)
Record IoTSharedSubscriber := {
  config : AWSIoTConfig;
  subscriber_id : string;
  client_id : string;
  mqtt_connection : option Connection;
  is_connected : bool;
  message_count : Z;
  processed_messages : gmap pykey received;
  should_disconnect : bool;
  disconnect_duration : Z;
  reconnect_threads : list Z
}.

Definition __init__ (config : AWSIoTConfig) (subscriber_id : string)
  : IoTSharedSubscriber :=
  {| config := config;
     subscriber_id := subscriber_id;
     client_id := (client_id_prefix config ++ "-subscriber-" ++ subscriber_id)%string;
     mqtt_connection := None;
     is_connected := false;
     message_count := 0;
     processed_messages := ∅;
     should_disconnect := false;
     disconnect_duration := 0;
     reconnect_threads := [] |}.

Definition set_mqtt_connection (c : option Connection) (s : IoTSharedSubscriber) :=
  {| config := config s; subscriber_id := subscriber_id s; client_id := client_id s;
     mqtt_connection := c; is_connected := is_connected s;
     message_count := message_count s; processed_messages := processed_messages s;
     should_disconnect := should_disconnect s;
     disconnect_duration := disconnect_duration s;
     reconnect_threads := reconnect_threads s |}.

Definition set_is_connected (b : bool) (s : IoTSharedSubscriber) :=
  {| config := config s; subscriber_id := subscriber_id s; client_id := client_id s;
     mqtt_connection := mqtt_connection s; is_connected := b;
     message_count := message_count s; processed_messages := processed_messages s;
     should_disconnect := should_disconnect s;
     disconnect_duration := disconnect_duration s;
     reconnect_threads := reconnect_threads s |}.

Definition set_message_count (n : Z) (s : IoTSharedSubscriber) :=
  {| config := config s; subscriber_id := subscriber_id s; client_id := client_id s;
     mqtt_connection := mqtt_connection s; is_connected := is_connected s;
     message_count := n; processed_messages := processed_messages s;
     should_disconnect := should_disconnect s;
     disconnect_duration := disconnect_duration s;
     reconnect_threads := reconnect_threads s |}.

Definition set_processed_messages (m : gmap pykey received) (s : IoTSharedSubscriber) :=
  {| config := config s; subscriber_id := subscriber_id s; client_id := client_id s;
     mqtt_connection := mqtt_connection s; is_connected := is_connected s;
     message_count := message_count s; processed_messages := m;
     should_disconnect := should_disconnect s;
     disconnect_duration := disconnect_duration s;
     reconnect_threads := reconnect_threads s |}.

Definition set_should_disconnect (b : bool) (s : IoTSharedSubscriber) :=
  {| config := config s; subscriber_id := subscriber_id s; client_id := client_id s;
     mqtt_connection := mqtt_connection s; is_connected := is_connected s;
     message_count := message_count s; processed_messages := processed_messages s;
     should_disconnect := b;
     disconnect_duration := disconnect_duration s;
     reconnect_threads := reconnect_threads s |}.

Definition set_disconnect_duration (d : Z) (s : IoTSharedSubscriber) :=
  {| config := config s; subscriber_id := subscriber_id s; client_id := client_id s;
     mqtt_connection := mqtt_connection s; is_connected := is_connected s;
     message_count := message_count s; processed_messages := processed_messages s;
     should_disconnect := should_disconnect s;
     disconnect_duration := d;
     reconnect_threads := reconnect_threads s |}.

Definition set_reconnect_threads (l : list Z) (s : IoTSharedSubscriber) :=
  {| config := config s; subscriber_id := subscriber_id s; client_id := client_id s;
     mqtt_connection := mqtt_connection s; is_connected := is_connected s;
     message_count := message_count s; processed_messages := processed_messages s;
     should_disconnect := should_disconnect s;
     disconnect_duration := disconnect_duration s;
     reconnect_threads := l |}.

(** The [qos] argument of the arrival callback: an [mqtt.QoS] (which has
    [.value]) or a bare number. *)
Inductive qos_arg := QEnum (q : QoS) | QRaw (z : Z).

(** One invocation of the arrival callback by the transport. *)
Record arrival := {
  a_topic : string;
  a_payload : string;
  a_dup : bool;
  a_qos : qos_arg;
  a_retain : bool
}.

(** The dict [get_stats] returns. *)
Record stats := {
  st_subscriber_id : string;
  st_client_id : string;
  st_is_connected : bool;
  st_message_count : Z;
  st_processed_message_ids : list pykey
}.

Section Methods.
Variable env : Env.
Local Abbreviation Sub := IoTSharedSubscriber.

Definition _on_connection_interrupted (error : string) : M Sub unit :=
  modify (set_is_connected false) >>
  let* self := get in
  print (LInterrupted (client_id self) error) >>
  when (negb (should_disconnect self)) (print LAwaitReconnect).

Definition _on_connection_resumed (session_present : bool) : M Sub unit :=
  modify (set_is_connected true) >>
  let* self := get in
  print (LResumed (client_id self) session_present) >>
  when session_present (print LQueuedIncoming).

(** [message_data.get(key, fallback)]: only a dict has [get]. *)
Definition dict_get (message_data : json) (key : string) (fallback : json)
  : M Sub json :=
  match message_data with
  | JObj members => ret (default fallback (assoc key members))
  | _ => raise (Exn "AttributeError" "object has no attribute 'get'")
  end.

(** [json.loads(payload.decode())]. *)
Definition decode_payload (payload : string) : M Sub json :=
  match json_loads env payload with
  | Some message_data => ret message_data
  | None => raise (Exn "ValueError" "payload is not JSON")
  end.

(** [qos.value if hasattr(qos, 'value') else qos]. *)
Definition qos_value_of (qos : qos_arg) : Z :=
  match qos with
  | QEnum q => QoS_value q
  | QRaw z => z
  end.

(** [self.processed_messages[message_id] = entry]. *)
Definition store_processed (message_id : json) (entry : received) : M Sub unit :=
  match hash_key message_id with
  | Some k =>
      modify (fun self =>
        set_processed_messages (<[k := entry]> (processed_messages self)) self)
  | None => raise (Exn "TypeError" "unhashable type")
  end.

Definition _on_message_received
    (topic : string) (payload : string) (dup : bool) (qos : qos_arg)
    (retain : bool) : M Sub unit :=
  try_except
    (let* message_data := decode_payload payload in
     let* message_id := dict_get message_data "message_id" (JStr "unknown") in
     (* with self.lock: *)
     modify (fun self => set_message_count (message_count self + 1) self) >>
     let qos_value := qos_value_of qos in
     let* stamp := datetime_now env in
     store_processed message_id
       {| received_at := stamp; topic := topic; qos := qos_value;
          data := message_data |} >>
     let* self := get in
     print (LReceived (message_count self) message_id) >>
     let* sender := dict_get message_data "sender" (JStr "unknown") in
     let* sequence := dict_get message_data "sequence" (JStr "unknown") in
     let* payload_data := dict_get message_data "data" (JObj []) in
     print (LReceivedDetail sender sequence payload_data) >>
     sleep (1 # 10))
    (fun e => print (LMessageError (exn_str e))).

Definition deliver (a : arrival) : M Sub unit :=
  _on_message_received (a_topic a) (a_payload a) (a_dup a) (a_qos a) (a_retain a).

(** The transport invoking the callback once per arrival, in order. *)
Fixpoint deliver_all (arrivals : list arrival) : M Sub unit :=
  match arrivals with
  | [] => ret tt
  | a :: rest => deliver a >> deliver_all rest
  end.

(** [message_data.get("message_id", "unknown")] on a decoded object. *)
Definition message_id_of (members : list (string * json)) : json :=
  default (JStr "unknown") (assoc "message_id" members).

(** The value the callback stores for an arrival decoded as [message_data]
    when the clock reads [stamp]. *)
Definition entry_of (a : arrival) (stamp : string) (message_data : json) : received :=
  {| received_at := stamp; topic := a_topic a; qos := qos_value_of (a_qos a);
     data := message_data |}.

Definition connect : M Sub bool :=
  try_except
    (let* self := get in
     let* serial := position in
     request env (Build (client_id self)) >>
     modify (set_mqtt_connection (Some (Conn serial))) >>
     print (LConnecting (endpoint (config self))) >>
     let* connect_result := request env (Connect (client_id self)) in
     modify (set_is_connected true) >>
     print (LConnected (client_id self) (negb (connect_result =? 0))) >>
     let shared_topic := get_shared_topic (config self) in
     let* granted := request env (Subscribe (client_id self) shared_topic) in
     print (LSubscribed shared_topic granted) >>
     ret true)
    (fun e =>
       print (LConnectError (exn_str e)) >>
       modify (set_is_connected false) >>
       ret false).

(** [self.mqtt_connection.disconnect()] and the wait on its future. *)
Definition request_disconnect : M Sub unit :=
  let* self := get in
  match mqtt_connection self with
  | Some _ => request env (Disconnect (client_id self)) >> ret tt
  | None => raise (Exn "AttributeError" "'NoneType' object has no attribute 'disconnect'")
  end.

(** The [except] branch shared by [simulate_disconnect] and [disconnect]. *)
Definition disconnect_failed (e : exn) : M Sub unit :=
  (if contains "NOT_CONNECTED" (exn_str e)
   then print LAlreadyDisconnected
   else print (LDisconnectError (exn_str e))) >>
  modify (set_is_connected false).

Definition simulate_disconnect (duration : Z) : M Sub unit :=
  let* self := get in
  if negb (is_connected self) then ret tt
  else
    print (LSimulateStart duration) >>
    modify (set_should_disconnect true) >>
    modify (set_disconnect_duration duration) >>
    let* self := get in
    when (is_connected self)
      (try_except
         (request_disconnect >> modify (set_is_connected false))
         disconnect_failed) >>
    (* threading.Thread(target=reconnect_after_delay, daemon=True).start() *)
    modify (fun self =>
      set_reconnect_threads (reconnect_threads self ++ [duration]) self).

(** The [k]-th sleeping [reconnect_after_delay] thread of this object wakes
    up.  A [duration] that [time.sleep] refuses makes it raise, which ends
    the thread and nothing else. *)
Definition reconnect_after_delay (k : nat) : M Sub unit :=
  let* self := get in
  match reconnect_threads self !! k with
  | None => ret tt
  | Some duration =>
      modify (set_reconnect_threads (delete k (reconnect_threads self))) >>
      try_except
        (sleep (inject_Z duration) >>
         let* self := get in
         when (should_disconnect self)
           (print LReconnecting >>
            modify (set_should_disconnect false) >>
            connect >> ret tt))
        (fun _ => ret tt)
  end.

Definition get_stats : M Sub stats :=
  let* self := get in
  ret {| st_subscriber_id := subscriber_id self;
         st_client_id := client_id self;
         st_is_connected := is_connected self;
         st_message_count := message_count self;
         st_processed_message_ids := (map_to_list (processed_messages self)).*1 |}.

Definition disconnect : M Sub unit :=
  let* self := get in
  if bool_decide (is_Some (mqtt_connection self)) && is_connected self then
    try_except
      (request_disconnect >>
       modify (set_is_connected false) >>
       print LDisconnected)
      disconnect_failed
  else if negb (is_connected self) then print LAlreadyDown
  else ret tt.

End Methods.

(** *** MultiSubscriberManager *)

Record MultiSubscriberManager := {
  mgr_config : AWSIoTConfig;
  subscribers : list IoTSharedSubscriber;
  running : bool
}.

Definition set_subscribers (l : list IoTSharedSubscriber) (m : MultiSubscriberManager) :=
  {| mgr_config := mgr_config m; subscribers := l; running := running m |}.

Definition set_running (b : bool) (m : MultiSubscriberManager) :=
  {| mgr_config := mgr_config m; subscribers := subscribers m; running := b |}.

(** [f"{n:02d}"]. *)
Definition two_digits (n : nat) : string :=
  (if (n <? 10)%nat then "0" ++ pretty n else pretty n)%string.

Definition new_manager (config : AWSIoTConfig) (num_subscribers : nat)
  : MultiSubscriberManager :=
  {| mgr_config := config;
     subscribers :=
       List.map (fun i => __init__ config (two_digits (i + 1)))
                (seq 0 num_subscribers);
     running := true |}.

(** Run a method on the [i]-th subscriber of the pool. *)
Definition on_subscriber {A} (i : nat) (m : M IoTSharedSubscriber A)
  : M MultiSubscriberManager A :=
  fun self tr =>
    match subscribers self !! i with
    | Some s =>
        let '(r, s', tr') := m s tr in
        (r, set_subscribers (<[i := s']> (subscribers self)) self, tr')
    | None => (Raise (Exn "IndexError" "list index out of range"), self, tr)
    end.

Section Pool.
Variable env : Env.
Local Abbreviation Mgr := MultiSubscriberManager.

(** The [for subscriber in self.subscribers] loop of [start_all], from
    index [i] on, [n] subscribers to go. *)
Fixpoint start_from (i n : nat) (success_count : Z) : M Mgr Z :=
  match n with
  | O => ret success_count
  | S n' =>
      let* ok := on_subscriber i (connect env) in
      if ok
      then sleep 1 >> start_from (S i) n' (success_count + 1)
      else start_from (S i) n' success_count
  end.

Definition start_all : M Mgr bool :=
  let* self := get in
  print (LManagerStart (length (subscribers self))) >>
  let* success_count := start_from 0 (length (subscribers self)) 0 in
  print (LManagerConnected success_count (length (subscribers self))) >>
  when (0 <? success_count) (print LManagerReady) >>
  ret (0 <? success_count).

(** [[s for s in self.subscribers if s.is_connected]], as positions in the
    pool. *)
Definition connected_subscribers (self : Mgr) : list nat :=
  List.filter
    (fun i => match subscribers self !! i with
              | Some s => is_connected s
              | None => false
              end)
    (seq 0 (length (subscribers self))).

(** One turn of the [while self.running] loop of
    [simulate_random_disconnects]: [wait] is the draw of
    [random.uniform(5, 15)], [pick] the draw behind [random.choice] and
    [duration] the draw of [random.randint(8, 20)]. *)
Definition simulate_cycle (wait : Q) (pick : nat) (duration : Z) : M Mgr unit :=
  sleep wait >>
  let* self := get in
  if negb (running self) then ret tt
  else
    let connected := connected_subscribers self in
    match connected !! (pick mod length connected)%nat with
    | Some target => on_subscriber target (simulate_disconnect env duration)
    | None => ret tt
    end.

(** The loop of [print_stats], from index [i] on. *)
Fixpoint stats_from (i n : nat) (total_messages disconnected_count : Z)
  : M Mgr (Z * Z) :=
  match n with
  | O => ret (total_messages, disconnected_count)
  | S n' =>
      let* st := on_subscriber i get_stats in
      print (LStat (st_subscriber_id st) (st_is_connected st) (st_message_count st)) >>
      stats_from (S i) n'
        (total_messages + st_message_count st)
        (if st_is_connected st then disconnected_count else disconnected_count + 1)
  end.

Definition print_stats : M Mgr unit :=
  print LStatHeader >>
  let* self := get in
  let* totals := stats_from 0 (length (subscribers self)) 0 0 in
  let '(total_messages, disconnected_count) := totals in
  print (LStatTotal total_messages) >>
  (if 0 <? disconnected_count then print (LStatQueuing disconnected_count)
   else if 0 <? total_messages then print LStatHealthy
   else ret tt).

(** The loop of [stop_all]. *)
Fixpoint stop_from (i n : nat) : M Mgr unit :=
  match n with
  | O => ret tt
  | S n' => on_subscriber i (disconnect env) >> stop_from (S i) n'
  end.

Definition stop_all : M Mgr unit :=
  modify (set_running false) >>
  print LStopping >>
  let* self := get in
  stop_from 0 (length (subscribers self)).

(** What happens while [main] sits in its [while True] loop, in the order
    the interpreter runs it: a turn of the simulator thread, the wake-up of
    a reconnect thread, a callback of the transport on one subscriber, or a
    turn of the main loop itself. *)
Inductive event :=
| Cycle (wait : Q) (pick : nat) (duration : Z)
| Wake (i k : nat)
| Arrive (i : nat) (a : arrival)
| Interrupted (i : nat) (error : string)
| Resumed (i : nat) (session_present : bool)
| Stats.

Definition run_event (ev : event) : M Mgr unit :=
  match ev with
  | Cycle wait pick duration => simulate_cycle wait pick duration
  | Wake i k => on_subscriber i (reconnect_after_delay env k)
  | Arrive i a => on_subscriber i (deliver env a)
  | Interrupted i error => on_subscriber i (_on_connection_interrupted error)
  | Resumed i session_present => on_subscriber i (_on_connection_resumed session_present)
  | Stats => sleep 10 >> print_stats
  end.

(** A callback on a subscriber the pool does not have cannot happen; the
    [IndexError] of [on_subscriber] is dropped. *)
Fixpoint run_events (evs : list event) : M Mgr unit :=
  match evs with
  | [] => ret tt
  | ev :: rest => try_except (run_event ev) (fun _ => ret tt) >> run_events rest
  end.

End Pool.

(** [main()]: [schedule] is what runs between [start_all] and the
    interrupt signal, whose handler exits through the [finally]. *)
Definition main (env : Env) (config : AWSIoTConfig) (schedule : list event)
  : M unit unit :=
  let* valid := validate env config in
  if negb valid then print LConfigInvalid
  else
    with_object (new_manager config 3)
      (try_finally
         (print LMainStart >>
          let* started := start_all env in
          if negb started then print LStartFailed
          else
            print LSimulatorStart >>
            print LMainRunning >>
            run_events env schedule)
         (stop_all env)).

End Subscriber.

(* ===================================================================== *)
(** ** publisher.py *)
(* ===================================================================== *)

Module Publisher.
Import Config.

Record IoTMessagePublisher := {
  config : AWSIoTConfig;
  client_id : string;
  mqtt_connection : option Connection;
  is_connected : bool;
  publish_count : Z
}.

Definition __init__ (config : AWSIoTConfig) : IoTMessagePublisher :=
  {| config := config;
     client_id := (client_id_prefix config ++ "-publisher")%string;
     mqtt_connection := None;
     is_connected := false;
     publish_count := 0 |}.

Definition set_mqtt_connection (c : option Connection) (p : IoTMessagePublisher) :=
  {| config := config p; client_id := client_id p; mqtt_connection := c;
     is_connected := is_connected p; publish_count := publish_count p |}.

Definition set_is_connected (b : bool) (p : IoTMessagePublisher) :=
  {| config := config p; client_id := client_id p;
     mqtt_connection := mqtt_connection p;
     is_connected := b; publish_count := publish_count p |}.

Definition set_publish_count (n : Z) (p : IoTMessagePublisher) :=
  {| config := config p; client_id := client_id p;
     mqtt_connection := mqtt_connection p;
     is_connected := is_connected p; publish_count := n |}.

(** What the transport does to the publisher on its own threads. *)
Inductive callback :=
| Interrupted (error : string)
| Resumed (session_present : bool)
| PublishComplete (publish_future : outcome).

(** The callbacks that run around one turn of the publishing loop: before
    the loop looks at [is_connected] (that is, during the previous sleep),
    and between that look and the one [publish_test_message] takes. *)
Record tick := {
  before_check : list callback;
  before_publish : list callback
}.

Section Methods.
Variable env : Env.
Local Abbreviation Pub := IoTMessagePublisher.

Definition _on_connection_interrupted (error : string) : M Pub unit :=
  modify (set_is_connected false) >>
  let* self := get in
  print (LInterrupted (client_id self) error) >>
  print LAwaitReconnect.

Definition _on_connection_resumed (session_present : bool) : M Pub unit :=
  modify (set_is_connected true) >>
  let* self := get in
  print (LResumed (client_id self) session_present).

(** [publish_future.result()]. *)
Definition future_result (publish_future : outcome) : M Pub Z :=
  match publish_future with
  | Ack info => ret info
  | Nack msg => raise (Exn "AwsCrtError" msg)
  end.

Definition _on_publish_complete (publish_future : outcome) : M Pub unit :=
  try_except
    (future_result publish_future >>
     (* with self.lock: *)
     modify (fun self => set_publish_count (publish_count self + 1) self) >>
     let* self := get in
     print (LPublishDone (publish_count self)))
    (fun e => print (LPublishFailed (exn_str e))).

Definition connect : M Pub bool :=
  try_except
    (let* self := get in
     let* serial := position in
     request env (Build (client_id self)) >>
     modify (set_mqtt_connection (Some (Conn serial))) >>
     print (LConnecting (endpoint (config self))) >>
     let* connect_result := request env (Connect (client_id self)) in
     modify (set_is_connected true) >>
     print (LConnected (client_id self) (negb (connect_result =? 0))) >>
     ret true)
    (fun e =>
       print (LConnectError (exn_str e)) >>
       modify (set_is_connected false) >>
       ret false).

(** The [message] dict of [publish_test_message]. *)
Definition message_of (message_id stamp sender : string) (sequence : Z) : json :=
  JObj [ ("message_id", JStr message_id);
         ("timestamp", JStr stamp);
         ("sender", JStr sender);
         ("data", JObj [ ("temperature", JFloat 255 (-1));
                         ("humidity", JFloat 600 (-1));
                         ("status", JStr "normal") ]);
         ("sequence", JInt sequence) ].

Definition publish_test_message (message_id : option string) : M Pub bool :=
  let* self := get in
  if negb (is_connected self) || negb (bool_decide (is_Some (mqtt_connection self)))
  then print LSkipNotConnected >> ret false
  else
    let* message_id :=
      match message_id with
      | Some given => ret given
      | None => new_uuid env
      end in
    let* stamp := datetime_now env in
    let message :=
      message_of message_id stamp (client_id self) (publish_count self + 1) in
    try_except
      (let topic := get_publish_topic (config self) in
       let* packet_id :=
         request env (Publish (client_id self) topic (json_dumps env message)) in
       print (LPublished message_id packet_id) >>
       ret true)
      (fun e => print (LPublishError (exn_str e)) >> ret false).

Definition run_callback (cb : callback) : M Pub unit :=
  match cb with
  | Interrupted error => _on_connection_interrupted error
  | Resumed session_present => _on_connection_resumed session_present
  | PublishComplete publish_future => _on_publish_complete publish_future
  end.

Fixpoint run_callbacks (cbs : list callback) : M Pub unit :=
  match cbs with
  | [] => ret tt
  | cb :: rest => run_callback cb >> run_callbacks rest
  end.

(** The [for i in range(max_messages)] loop of
    [start_continuous_publishing], from turn [i] on, [n] turns to go. *)
Fixpoint publishing_from (interval : Q) (max_messages : Z)
    (schedule : nat -> tick) (i n : nat) : M Pub unit :=
  match n with
  | O => ret tt
  | S n' =>
      run_callbacks (before_check (schedule i)) >>
      let* self := get in
      if negb (is_connected self) then print LLoopStopped   (* break *)
      else
        run_callbacks (before_publish (schedule i)) >>
        let* success := publish_test_message None in
        when success (print (LProgress (Z.of_nat i + 1) max_messages)) >>
        sleep interval >>
        publishing_from interval max_messages schedule (S i) n'
  end.

Definition start_continuous_publishing (interval : Q) (max_messages : Z)
    (schedule : nat -> tick) : M Pub unit :=
  print (LLoopStart interval max_messages) >>
  publishing_from interval max_messages schedule 0 (Z.to_nat max_messages) >>
  print LLoopDone >>
  let* self := get in
  print (LSummary (publish_count self)) >>
  print LCheckSubscribers.

Definition disconnect : M Pub unit :=
  let* self := get in
  if bool_decide (is_Some (mqtt_connection self)) && is_connected self then
    try_except
      (request env (Disconnect (client_id self)) >>
       modify (set_is_connected false) >>
       print LDisconnected)
      (fun e =>
         (if contains "NOT_CONNECTED" (exn_str e)
          then print LAlreadyDisconnected
          else print (LDisconnectError (exn_str e))) >>
         modify (set_is_connected false))
  else if negb (is_connected self) then print LAlreadyDown
  else ret tt.

End Methods.

(** [main()]: [schedule] gives the callbacks around each turn of the loop,
    [late] those that run during the final [time.sleep(5)]. *)
Definition main (env : Env) (config : AWSIoTConfig) (schedule : nat -> tick)
    (late : list callback) : M unit unit :=
  let* valid := validate env config in
  if negb valid then print LConfigInvalid
  else
    with_object (__init__ config)
      (try_finally
         (let* connected := connect env in
          if negb connected then print LConnectFailed
          else
            print LTestStart >>
            start_continuous_publishing env 1 20 schedule >>
            sleep 5 >>
            run_callbacks late)
         (disconnect env)).

End Publisher.

(* ===================================================================== *)
(** ** Vocabulary of the statements *)
(* ===================================================================== *)

(** *** Outcomes and traces *)

Section Outcome.
Context {Self A : Type}.

Definition result_of (out : res A * Self * list effect) : res A := out.1.1.
Definition self_of (out : res A * Self * list effect) : Self := out.1.2.
Definition trace_of (out : res A * Self * list effect) : list effect := out.2.
End Outcome.

(** The requests a trace made to the MQTT library, in order. *)
Definition requests (tr : list effect) : list call :=
  omap (fun e => match e with Transport c => Some c | _ => None end) tr.

(** The payloads a trace handed to [publish], in order. *)
Definition published (tr : list effect) : list string :=
  omap (fun e => match e with
                 | Transport (Publish _ _ payload) => Some payload
                 | _ => None
                 end) tr.

(** The number of [time.sleep] calls a trace completed. *)
Definition sleeps (tr : list effect) : nat :=
  length (List.filter (fun e => match e with Sleep _ => true | _ => false end) tr).

(** The client ids a trace asked the MQTT library to build a connection
    for, in order: one per [connect()] call. *)
Definition builds (tr : list effect) : list string :=
  omap (fun e => match e with Transport (Build client) => Some client | _ => None end) tr.

(** *** The delivery tracker *)

Definition is_object (v : json) : bool :=
  match v with JObj _ => true | _ => false end.

(** The payload of [a] decodes to an object that has no ["message_id"]. *)
Definition lacks_message_id (env : Env) (a : Subscriber.arrival) : bool :=
  match json_loads env (Subscriber.a_payload a) with
  | Some (JObj members) =>
      match assoc "message_id" members with
      | None => true
      | Some _ => false
      end
  | _ => false
  end.

(** The tracker invariant: no more distinct ids than arrivals counted. *)
Definition tracker_ok (s : Subscriber.IoTSharedSubscriber) : Prop :=
  Z.of_nat (size (Subscriber.processed_messages s)) <= Subscriber.message_count s.

(** Whether the arrival callback counts [a] (its payload decodes to a JSON
    object), and the key its record is stored under, if any. *)
Definition counted (env : Env) (a : Subscriber.arrival) : bool :=
  match json_loads env (Subscriber.a_payload a) with
  | Some (JObj _) => true
  | _ => false
  end.

Definition key_of (env : Env) (a : Subscriber.arrival) : option pykey :=
  match json_loads env (Subscriber.a_payload a) with
  | Some (JObj members) => hash_key (Subscriber.message_id_of members)
  | _ => None
  end.

(** C1 as the specification words its mechanism: the arrival [a] adds
    exactly one to [message_count]. *)
Definition counts_exactly_one (env : Env) (a : Subscriber.arrival)
    (s : Subscriber.IoTSharedSubscriber) (tr : list effect) : Prop :=
  Subscriber.message_count (self_of (Subscriber.deliver env a s tr))
  = Subscriber.message_count s + 1.

(** *** Connections and the pool *)

(** What [disconnect] owes its caller, for a class whose connection flag is
    [connected], whose connection attribute is [handle] and whose client
    id is [who]:
    - it returns without raising, and so does a second call right after
      it, which makes no request to the MQTT library;
    - called on an object that is not connected it changes nothing and
      makes no request;
    - when the MQTT library answers the request with an error, it still
      returns, with the flag down; an error that says [NOT_CONNECTED] is
      reported as "already disconnected". *)
Definition disconnect_idempotent {Self : Type} (env : Env)
    (connected : Self -> bool) (handle : Self -> option Connection)
    (who : Self -> string) (disconnect : M Self unit) : Prop :=
  forall (self : Self) (tr : list effect),
    let out1 := disconnect self tr in
    let out2 := disconnect (self_of out1) (trace_of out1) in
    result_of out1 = Ret tt /\ result_of out2 = Ret tt /\
    requests (trace_of out2) = requests (trace_of out1) /\
    (connected self = false ->
       self_of out1 = self /\ requests (trace_of out1) = requests tr) /\
    (forall msg,
       connected self = true -> is_Some (handle self) ->
       transport env (length tr) (Disconnect (who self)) = Nack msg ->
       connected (self_of out1) = false /\
       (contains "NOT_CONNECTED" msg = true ->
          trace_of out1
          = tr ++ [Transport (Disconnect (who self)); Console LAlreadyDisconnected])).

(** The number of subscribers of a pool whose [is_connected] is set. *)
Definition connected_count (subs : list Subscriber.IoTSharedSubscriber) : Z :=
  Z.of_nat (length (List.filter Subscriber.is_connected subs)).

(** C6 as the specification words it: the value [start_all] returns,
    taken as a number ([True] is 1), is the number of subscribers that
    connected. *)
Definition returns_connected_count (env : Env)
    (mgr : Subscriber.MultiSubscriberManager) (tr : list effect) : Prop :=
  let out := Subscriber.start_all env mgr tr in
  exists b : bool,
    result_of out = Ret b /\
    Z.b2z b = connected_count (Subscriber.subscribers (self_of out)).

(** *** The publishing loop *)

(** [is_connected] after the callbacks [cbs], when it was [up] before. *)
Definition up_after (cbs : list Publisher.callback) (up : bool) : bool :=
  fold_left
    (fun up cb =>
       match cb with
       | Publisher.Interrupted _ => false
       | Publisher.Resumed _ => true
       | Publisher.PublishComplete _ => up
       end)
    cbs up.





(** *** The disconnect simulator *)

(** A subscriber has no sleeping reconnect thread, or it has exactly one
    and is disconnected: at most one simulated outage in flight. *)
Definition outage_ok (s : Subscriber.IoTSharedSubscriber) : Prop :=
  Subscriber.reconnect_threads s = [] \/
  (Subscriber.is_connected s = false /\
   length (Subscriber.reconnect_threads s) = 1%nat).

#[global] Instance outage_ok_dec s : Decision (outage_ok s).
Proof. unfold outage_ok. solve_decision. Defined.

Definition pool_ok (mgr : Subscriber.MultiSubscriberManager) : Prop :=
  Forall outage_ok (Subscriber.subscribers mgr).

#[global] Instance pool_ok_dec mgr : Decision (pool_ok mgr).
Proof. unfold pool_ok. solve_decision. Defined.

(** Along the events [evs], no connection-resumed callback reaches a
    subscriber while one of its reconnect threads sleeps. *)
Fixpoint resumes_outside_outages (env : Env) (evs : list Subscriber.event)
    (mgr : Subscriber.MultiSubscriberManager) (tr : list effect) : bool :=
  match evs with
  | [] => true
  | ev :: rest =>
      match ev with
      | Subscriber.Resumed i _ =>
          match Subscriber.subscribers mgr !! i with
          | Some s => bool_decide (Subscriber.reconnect_threads s = [])
          | None => true
          end
      | _ => true
      end
      && let out := Subscriber.run_events env [ev] mgr tr in
         resumes_outside_outages env rest (self_of out) (trace_of out)
  end.

(** [m] keeps [P]: run from a state where [P] holds, it ends in one. *)
Definition keeps {Self A : Type} (P : Self -> Prop) (m : M Self A) : Prop :=
  forall s tr, P s -> P (self_of (m s tr)).

(** *** Configuration *)

(** All three credential files are there. *)
Definition credentials_present (env : Env) (config : Config.AWSIoTConfig) : bool :=
  path_exists env (Config.root_ca_path config)
  && path_exists env (Config.cert_path config)
  && path_exists env (Config.private_key_path config).

(** *** A fake environment for the examples

    Every request is acknowledged, every file exists, and the codec is a
    table: four payloads decode, everything else is rejected. *)

Definition demo_config : Config.AWSIoTConfig :=
  {| Config.endpoint := "your-iot-endpoint.iot.region.amazonaws.com";
     Config.root_ca_path := "certs/AmazonRootCA1.pem";
     Config.cert_path := "certs/device.pem.crt";
     Config.private_key_path := "certs/private.pem.key";
     Config.client_id_prefix := "message-queuing-test";
     Config.topic_prefix := "test/shared";
     Config.shared_subscription_group := "message-queuing-group" |}.

Definition demo_loads (payload : string) : option json :=
  if decide (payload = "first") then
    Some (JObj [("message_id", JStr "id-1"); ("sequence", JInt 1)])
  else if decide (payload = "first again") then
    Some (JObj [("message_id", JStr "id-1"); ("sequence", JInt 1);
                ("sender", JStr "retry")])
  else if decide (payload = "anonymous") then
    Some (JObj [("sequence", JInt 7)])
  else if decide (payload = "array") then
    Some (JArr [JInt 1; JInt 2])
  else None.

Definition demo_dumps (message : json) : string :=
  match message with
  | JObj members =>
      match assoc "message_id" members, assoc "sequence" members with
      | Some (JStr id), Some (JInt n) => (id ++ "#" ++ pretty n)%string
      | _, _ => "?"
      end
  | _ => "?"
  end.

Definition demo_env : Env :=
  {| json_loads := demo_loads;
     json_dumps := demo_dumps;
     transport := fun _ _ => Ack 1;
     uuid4 := fun n => ("uuid-" ++ pretty n)%string;
     now := fun n => ("t" ++ pretty n)%string;
     path_exists := fun _ => true |}.

(** The fake environment with a transport that answers every disconnect
    request with "not connected". *)
Definition stale_env : Env :=
  {| json_loads := demo_loads;
     json_dumps := demo_dumps;
     transport := fun _ c =>
       match c with
       | Disconnect _ => Nack "AWS_ERROR_MQTT_NOT_CONNECTED"
       | _ => Ack 1
       end;
     uuid4 := fun n => ("uuid-" ++ pretty n)%string;
     now := fun n => ("t" ++ pretty n)%string;
     path_exists := fun _ => true |}.

(** The fake environment with a broker that lets every disconnect request
    time out. *)
Definition slow_env : Env :=
  {| json_loads := demo_loads;
     json_dumps := demo_dumps;
     transport := fun _ c =>
       match c with
       | Disconnect _ => Nack "AWS_ERROR_MQTT_TIMEOUT"
       | _ => Ack 1
       end;
     uuid4 := fun n => ("uuid-" ++ pretty n)%string;
     now := fun n => ("t" ++ pretty n)%string;
     path_exists := fun _ => true |}.

(** The fake environment on a machine without the private key. *)
Definition keyless_env : Env :=
  {| json_loads := demo_loads;
     json_dumps := demo_dumps;
     transport := fun _ _ => Ack 1;
     uuid4 := fun n => ("uuid-" ++ pretty n)%string;
     now := fun n => ("t" ++ pretty n)%string;
     path_exists := fun path => negb (bool_decide (path = "certs/private.pem.key")) |}.

(** The fake environment with a codec for three payloads whose message ids
    are the numbers [1], [1.0] and [true]. *)
Definition numeric_env : Env :=
  {| json_loads := fun payload =>
       if decide (payload = "one") then Some (JObj [("message_id", JInt 1)])
       else if decide (payload = "one point zero")
       then Some (JObj [("message_id", JFloat 10 (-1))])
       else if decide (payload = "true") then Some (JObj [("message_id", JBool true)])
       else None;
     json_dumps := demo_dumps;
     transport := fun _ _ => Ack 1;
     uuid4 := fun n => ("uuid-" ++ pretty n)%string;
     now := fun n => ("t" ++ pretty n)%string;
     path_exists := fun _ => true |}.

Definition demo_arrival (payload : string) : Subscriber.arrival :=
  {| Subscriber.a_topic := "test/shared/messages";
     Subscriber.a_payload := payload;
     Subscriber.a_dup := false;
     Subscriber.a_qos := Subscriber.QEnum AT_LEAST_ONCE;
     Subscriber.a_retain := false |}.

(** A subscriber of the examples, fresh and connected. *)
Definition demo_subscriber : Subscriber.IoTSharedSubscriber :=
  Subscriber.__init__ demo_config "01".

Definition demo_connected_subscriber : Subscriber.IoTSharedSubscriber :=
  self_of (Subscriber.connect stale_env demo_subscriber []).

(** The pool of [main] once [start_all] has run, and the same pool after a
    turn of the simulator has put its first subscriber in an outage. *)
Definition demo_pool : Subscriber.MultiSubscriberManager :=
  self_of (Subscriber.start_all demo_env (Subscriber.new_manager demo_config 3) []).

Definition demo_pool_in_outage : Subscriber.MultiSubscriberManager :=
  self_of (Subscriber.simulate_cycle demo_env 5 0 8 demo_pool []).

(** The pool of [main] under [slow_env], after a turn of the simulator has
    put its first subscriber in an outage of eight seconds. *)
Definition slow_pool_in_outage : Subscriber.MultiSubscriberManager :=
  self_of (Subscriber.simulate_cycle slow_env 5 0 8
             (self_of (Subscriber.start_all slow_env
                         (Subscriber.new_manager demo_config 3) []))
             []).

(** The publisher of the examples, connected. *)
Definition demo_publisher : Publisher.IoTMessagePublisher :=
  self_of (Publisher.connect demo_env (Publisher.__init__ demo_config) []).

Definition idle : Publisher.tick :=
  {| Publisher.before_check := []; Publisher.before_publish := [] |}.


(** The connection drops between the check of the first turn and its
    publish, and is back before the second turn. *)
Definition blip_in_first (i : nat) : Publisher.tick :=
  match i with
  | 0%nat => {| Publisher.before_check := [];
                Publisher.before_publish := [Publisher.Interrupted "network"] |}
  | 1%nat => {| Publisher.before_check := [Publisher.Resumed true];
                Publisher.before_publish := [] |}
  | _ => idle
  end.

(** *** Further vocabulary *)

(** Whether the MQTT library acknowledges request [c] made at position
    [n] of the trace. *)
Definition acked (env : Env) (n : nat) (c : call) : bool :=
  match transport env n c with
  | Ack _ => true
  | Nack _ => false
  end.

(** [P] does not look at the connection attributes of a subscriber
    ([mqtt_connection], [is_connected], [should_disconnect],
    [disconnect_duration] and the sleeping reconnect threads). *)
Definition connection_blind (P : Subscriber.IoTSharedSubscriber -> Prop) : Prop :=
  forall s, P s ->
    (forall c, P (Subscriber.set_mqtt_connection c s)) /\
    (forall b, P (Subscriber.set_is_connected b s)) /\
    (forall b, P (Subscriber.set_should_disconnect b s)) /\
    (forall d, P (Subscriber.set_disconnect_duration d s)) /\
    (forall l, P (Subscriber.set_reconnect_threads l s)).

(** [P] survives what an arrival does to a subscriber: one more message
    counted, and possibly one record stored. *)
Definition arrival_proof (P : Subscriber.IoTSharedSubscriber -> Prop) : Prop :=
  forall s, P s ->
    P (Subscriber.set_message_count (Subscriber.message_count s + 1) s) /\
    (forall k entry,
       P (Subscriber.set_processed_messages
            (<[k := entry]> (Subscriber.processed_messages s))
            (Subscriber.set_message_count (Subscriber.message_count s + 1) s))).

(** Who a subscriber is: what [__init__] fixes once and for all. *)
Definition identity (s : Subscriber.IoTSharedSubscriber)
  : Config.AWSIoTConfig * string * string :=
  (Subscriber.config s, Subscriber.subscriber_id s, Subscriber.client_id s).

(** What a subscriber has received. *)
Definition tracker (s : Subscriber.IoTSharedSubscriber) : Z * gmap pykey Subscriber.received :=
  (Subscriber.message_count s, Subscriber.processed_messages s).

(** [s] has received at least what [s0] had: no fewer messages counted, no
    key gone. *)
Definition grown_from (s0 s : Subscriber.IoTSharedSubscriber) : Prop :=
  Subscriber.message_count s0 <= Subscriber.message_count s /\
  dom (Subscriber.processed_messages s0) ⊆ dom (Subscriber.processed_messages s).

Definition is_arrival (ev : Subscriber.event) : bool :=
  match ev with Subscriber.Arrive _ _ => true | _ => false end.

(** The subscribers of the pool stand, one by one, in relation [R] to
    those of [subs0]. *)
Definition pool_related (R : Subscriber.IoTSharedSubscriber -> Subscriber.IoTSharedSubscriber -> Prop)
    (subs0 : list Subscriber.IoTSharedSubscriber)
    (mgr : Subscriber.MultiSubscriberManager) : Prop :=
  Forall2 R subs0 (Subscriber.subscribers mgr).

(** [disconnect] has something to do on [s]: a connection object and
    [is_connected]. *)
Definition reachable (s : Subscriber.IoTSharedSubscriber) : bool :=
  bool_decide (is_Some (Subscriber.mqtt_connection s)) && Subscriber.is_connected s.

Definition stopped (s : Subscriber.IoTSharedSubscriber) : Subscriber.IoTSharedSubscriber :=
  if reachable s then Subscriber.set_is_connected false s else s.

(** The event is a connection-resumed callback on subscriber [i]. *)
Definition resumes (i : nat) (ev : Subscriber.event) : bool :=
  match ev with
  | Subscriber.Resumed j _ => bool_decide (j = i)
  | _ => false
  end.

(** Down with no reconnect thread asleep. *)
Definition abandoned (s : Subscriber.IoTSharedSubscriber) : Prop :=
  Subscriber.is_connected s = false /\ Subscriber.reconnect_threads s = [].

(** The lines of [print_stats]. *)
Definition stat_line (s : Subscriber.IoTSharedSubscriber) : effect :=
  Console (LStat (Subscriber.subscriber_id s) (Subscriber.is_connected s)
             (Subscriber.message_count s)).

Definition total_messages (subs : list Subscriber.IoTSharedSubscriber) : Z :=
  foldr (fun s acc => Subscriber.message_count s + acc) 0 subs.

Definition disconnected_count (subs : list Subscriber.IoTSharedSubscriber) : Z :=
  Z.of_nat (length (List.filter (fun s => negb (Subscriber.is_connected s)) subs)).

(** The completion callbacks of [cbs] whose publish was acknowledged. *)
Definition is_acknowledgement (cb : Publisher.callback) : bool :=
  match cb with
  | Publisher.PublishComplete (Ack _) => true
  | _ => false
  end.

Definition acknowledgements (cbs : list Publisher.callback) : Z :=
  Z.of_nat (length (List.filter is_acknowledgement cbs)).

(** The files [validate] looks for and does not find, in its order. *)
Definition missing_files (env : Env) (config : Config.AWSIoTConfig) : list string :=
  List.filter (fun file_path => negb (path_exists env file_path))
    [Config.root_ca_path config; Config.cert_path config;
     Config.private_key_path config].

(** The fake environment with a broker that refuses every subscription,
    and the one with a broker that cannot be reached. *)
Definition deaf_env : Env :=
  {| json_loads := demo_loads;
     json_dumps := demo_dumps;
     transport := fun _ c =>
       match c with
       | Subscribe _ _ => Nack "AWS_ERROR_MQTT_TIMEOUT"
       | _ => Ack 1
       end;
     uuid4 := fun n => ("uuid-" ++ pretty n)%string;
     now := fun n => ("t" ++ pretty n)%string;
     path_exists := fun _ => true |}.

Definition offline_env : Env :=
  {| json_loads := demo_loads;
     json_dumps := demo_dumps;
     transport := fun _ c =>
       match c with
       | Connect _ => Nack "AWS_IO_DNS_QUERY_FAILED"
       | _ => Ack 1
       end;
     uuid4 := fun n => ("uuid-" ++ pretty n)%string;
     now := fun n => ("t" ++ pretty n)%string;
     path_exists := fun _ => true |}.

(** The pool has an [i]-th subscriber, and [P] holds of it. *)
Definition subscriber_at (i : nat) (P : Subscriber.IoTSharedSubscriber -> Prop)
    (mgr : Subscriber.MultiSubscriberManager) : Prop :=
  exists s, Subscriber.subscribers mgr !! i = Some s /\ P s.

(** The request builds a connection object or asks the broker to connect. *)
Definition opens_connection (c : call) : bool :=
  match c with
  | Build _ | Connect _ => true
  | _ => false
  end.

(* ===================================================================== *)
(** ** Reasoning about methods *)
(* ===================================================================== *)

(** Stepping through a method body. *)
Lemma bind_get {Self B} (k : Self -> M Self B) s tr :
  (let* x := get in k x) s tr = k s s tr.
Proof. reflexivity. Qed.

Lemma bind_modify {Self B} (f : Self -> Self) (k : M Self B) s tr :
  (modify f >> k) s tr = k (f s) tr.
Proof. reflexivity. Qed.

Lemma bind_print {Self B} l (k : M Self B) s tr :
  (print l >> k) s tr = k s (tr ++ [Console l]).
Proof. reflexivity. Qed.

Lemma bind_sleep {Self B} d (k : M Self B) s tr :
  sleepable d = true -> (sleep d >> k) s tr = k s (tr ++ [Sleep d]).
Proof. intros H. unfold sleep. rewrite H. reflexivity. Qed.

Lemma bind_sleep_refused {Self B} d (k : M Self B) s tr :
  sleepable d = false ->
  (sleep d >> k) s tr = (Raise (sleep_error d), s, tr).
Proof. intros H. unfold sleep. rewrite H. reflexivity. Qed.

(** The lengths whose count of nanoseconds fits. *)
Lemma sleep_fits_spec (n : Z) (den : positive) :
  sleep_fits (n # den) = true <->
  -9223372036854776832 * Z.pos den <= n * 1000000000 < 9223372036854775296 * Z.pos den.
Proof.
  unfold sleep_fits, Qle_bool, Qmult. cbn [Qnum Qden].
  rewrite Pos.mul_1_r, !Z.mul_1_r.
  rewrite andb_true_iff, negb_true_iff, Z.leb_gt, Z.leb_le. reflexivity.
Qed.

(** Which error a refused length gives: [ValueError] below zero,
    [OverflowError] from [9223372037] seconds on. *)
Lemma sleep_error_negative (d : Q) :
  Qle_bool 0 d = false -> Qle_bool (-9223372036 # 1) d = true ->
  sleep_error d = Exn "ValueError" "sleep length must be non-negative".
Proof.
  destruct d as [n den]. unfold Qle_bool. cbn [Qnum Qden].
  rewrite Z.leb_gt, Z.leb_le. intros Hneg Hlow.
  assert (Hfits : sleep_fits (n # den) = true) by (apply sleep_fits_spec; lia).
  unfold sleep_error. rewrite Hfits. reflexivity.
Qed.

Lemma sleep_error_overflow (d : Q) :
  Qle_bool (9223372037 # 1) d = true ->
  exists msg, sleep_error d = Exn "OverflowError" msg.
Proof.
  destruct d as [n den]. unfold Qle_bool. cbn [Qnum Qden].
  rewrite Z.leb_le. intros Hbig.
  destruct (sleep_fits (n # den)) eqn:Hfits.
  - apply sleep_fits_spec in Hfits. lia.
  - unfold sleep_error. rewrite Hfits. eauto.
Qed.


Lemma bind_ret {Self A B} (a : A) (k : A -> M Self B) s tr :
  (let* x := ret a in k x) s tr = k a s tr.
Proof. reflexivity. Qed.

(** Methods that keep a property of the receiver. *)
Lemma keeps_bind {Self A B} (P : Self -> Prop) (m : M Self A) (k : A -> M Self B) :
  keeps P m -> (forall a, keeps P (k a)) -> keeps P (bind m k).
Proof.
  intros Hm Hk s tr HP. unfold bind. specialize (Hm s tr HP).
  destruct (m s tr) as [[[a|e] s'] tr']; unfold self_of in *; simpl in *.
  - apply Hk. exact Hm.
  - exact Hm.
Qed.

Lemma keeps_pure {Self A} (P : Self -> Prop) (m : M Self A) :
  (forall s tr, self_of (m s tr) = s) -> keeps P m.
Proof. intros Hm s tr HP. rewrite Hm. exact HP. Qed.

Lemma keeps_print {Self} (P : Self -> Prop) l : keeps P (print l).
Proof. apply keeps_pure. reflexivity. Qed.

Lemma keeps_sleep {Self} (P : Self -> Prop) d : keeps P (sleep d).
Proof. apply keeps_pure. intros s tr. unfold sleep. destruct (sleepable d); reflexivity. Qed.

Lemma keeps_ret {Self A} (P : Self -> Prop) (a : A) : keeps P (ret a).
Proof. apply keeps_pure. reflexivity. Qed.

Lemma keeps_get {Self} (P : Self -> Prop) : keeps P (@get Self).
Proof. apply keeps_pure. reflexivity. Qed.

Lemma keeps_dropping_errors {Self} (P : Self -> Prop) (m : M Self unit) :
  keeps P m -> keeps P (try_except m (fun _ => ret tt)).
Proof.
  intros Hm s tr HP. unfold try_except. specialize (Hm s tr HP).
  destruct (m s tr) as [[[a|e] s'] tr']; exact Hm.
Qed.

(** What a longer trace adds to what is read off it. *)
Lemma requests_app tr1 tr2 : requests (tr1 ++ tr2) = requests tr1 ++ requests tr2.
Proof. unfold requests. apply omap_app. Qed.

Lemma requests_print tr l : requests (tr ++ [Console l]) = requests tr.
Proof. rewrite requests_app. simpl. apply app_nil_r. Qed.

Lemma builds_app tr1 tr2 : builds (tr1 ++ tr2) = builds tr1 ++ builds tr2.
Proof. unfold builds. apply omap_app. Qed.

Lemma sleeps_app tr1 tr2 : sleeps (tr1 ++ tr2) = (sleeps tr1 + sleeps tr2)%nat.
Proof. unfold sleeps. rewrite List.filter_app, length_app. reflexivity. Qed.

Lemma published_app tr1 tr2 : published (tr1 ++ tr2) = published tr1 ++ published tr2.
Proof. unfold published. apply omap_app. Qed.

(* ===================================================================== *)
(** ** Keys of the tracker *)
(* ===================================================================== *)

Lemma number_key_int (z : Z) : number_key (inject_Z z) = KInt z.
Proof.
  assert (Hred : Qred (inject_Z z) = inject_Z z).
  { unfold Qred, inject_Z.
    pose proof (Z.ggcd_gcd z 1) as Hg.
    pose proof (Z.ggcd_correct_divisors z 1) as Hd.
    destruct (Z.ggcd z 1) as [g [aa bb]]. simpl in Hg, Hd.
    rewrite Z.gcd_1_r in Hg. subst g. destruct Hd as [Ha Hb].
    rewrite Z.mul_1_l in Ha, Hb. subst aa bb. reflexivity. }
  unfold number_key. rewrite Hred. reflexivity.
Qed.

Lemma number_key_by_value (q1 q2 : Q) :
  number_key q1 = number_key q2 <-> (q1 == q2)%Q.
Proof.
  split.
  - intros Hkey. rewrite <- (Qred_correct q1), <- (Qred_correct q2).
    unfold number_key in Hkey.
    destruct (Qred q1) as [n1 d1], (Qred q2) as [n2 d2]. cbn [Qnum Qden] in Hkey.
    destruct (Pos.eqb_spec d1 1) as [E1|H1]; destruct (Pos.eqb_spec d2 1) as [E2|H2];
      try discriminate Hkey.
    + injection Hkey as ->. subst d1 d2. reflexivity.
    + injection Hkey as -> ->. reflexivity.
  - intros Heq. unfold number_key. by rewrite (Qred_complete _ _ Heq).
Qed.

(** Two decoded numbers are one key of a [dict] exactly when they are
    equal as numbers, whatever their types: Python's [==] and [hash] on
    [bool], [int] and [float]. *)
Lemma hash_key_by_value (v1 v2 : json) (q1 q2 : Q) :
  number_value v1 = Some q1 -> number_value v2 = Some q2 ->
  (hash_key v1 = hash_key v2 <-> (q1 == q2)%Q).
Proof.
  assert (Hkey : forall v q, number_value v = Some q -> hash_key v = Some (number_key q)).
  { intros [| b | z | m e | | |] q [=]; subst; simpl;
      rewrite ?number_key_int; reflexivity. }
  intros H1 H2. rewrite (Hkey _ _ H1), (Hkey _ _ H2).
  rewrite <- number_key_by_value. split; [by intros [=] | by intros ->].
Qed.

Example one_is_one_key :
  hash_key (JInt 1) = hash_key (JFloat 10 (-1)) /\
  hash_key (JInt 1) = hash_key (JBool true) /\
  hash_key (JFloat 15 (-1)) = hash_key (JFloat 1500 (-3)) /\
  hash_key (JInt 1) <> hash_key (JFloat 15 (-1)) /\
  hash_key (JInt 1) <> hash_key (JStr "1").
Proof. split_and!; (reflexivity || discriminate). Qed.

(* ===================================================================== *)
(** ** The delivery tracker *)
(* ===================================================================== *)

Section Tracker.
Import Subscriber.
Variable env : Env.

(** Unfolds the monad under a method body. *)
Ltac step_monad :=
  unfold try_except, bind, ret, raise, get, modify, emit, print, position,
    datetime_now, new_uuid, when, sleep in *; simpl in *.

Lemma deliver_undecodable a s tr :
  json_loads env (a_payload a) = None ->
  deliver env a s tr
  = (Ret tt, s, tr ++ [Console (LMessageError "payload is not JSON")]).
Proof.
  intros Hload. unfold deliver, _on_message_received, decode_payload.
  rewrite Hload. reflexivity.
Qed.

Lemma deliver_not_object a s tr v :
  json_loads env (a_payload a) = Some v -> is_object v = false ->
  deliver env a s tr
  = (Ret tt, s, tr ++ [Console (LMessageError "object has no attribute 'get'")]).
Proof.
  intros Hload Hv. unfold deliver, _on_message_received, decode_payload.
  rewrite Hload. destruct v; try discriminate Hv; reflexivity.
Qed.

Lemma deliver_unhashable a s tr members :
  json_loads env (a_payload a) = Some (JObj members) ->
  hash_key (message_id_of members) = None ->
  deliver env a s tr
  = (Ret tt, set_message_count (message_count s + 1) s,
     tr ++ [Console (LMessageError "unhashable type")]).
Proof.
  intros Hload Hkey. unfold deliver, _on_message_received, decode_payload.
  rewrite Hload. step_monad. unfold store_processed.
  fold (message_id_of members). rewrite Hkey. reflexivity.
Qed.

Lemma deliver_object a s tr members k :
  json_loads env (a_payload a) = Some (JObj members) ->
  hash_key (message_id_of members) = Some k ->
  exists tr',
    deliver env a s tr
    = (Ret tt,
       set_processed_messages
         (<[k := entry_of a (now env (length tr)) (JObj members)]>
            (processed_messages s))
         (set_message_count (message_count s + 1) s),
       tr ++ tr').
Proof.
  intros Hload Hkey. unfold deliver, _on_message_received, decode_payload.
  rewrite Hload. step_monad. unfold store_processed.
  fold (message_id_of members). rewrite Hkey. step_monad.
  eexists. rewrite <- !app_assoc. reflexivity.
Qed.


(** What one arrival can do to the tracker: nothing, count only, or count
    and one keyed store. *)
Lemma deliver_cases a s tr :
  exists s' tr',
    deliver env a s tr = (Ret tt, s', tr ++ tr') /\
    (s' = s \/
     s' = set_message_count (message_count s + 1) s \/
     exists k entry,
       s' = set_processed_messages (<[k := entry]> (processed_messages s))
              (set_message_count (message_count s + 1) s)).
Proof.
  destruct (json_loads env (a_payload a)) as [v|] eqn:Hload.
  - destruct (is_object v) eqn:Hobj.
    + destruct v as [| | | | | |members]; try discriminate Hobj.
      destruct (hash_key (message_id_of members)) as [k|] eqn:Hkey.
      * destruct (deliver_object a s tr members k Hload Hkey) as [tr' ->].
        eexists _, tr'. split; [reflexivity|]. right; right. eauto.
      * rewrite (deliver_unhashable a s tr members Hload Hkey).
        eexists _, _. split; [reflexivity|]. auto.
    + rewrite (deliver_not_object a s tr v Hload Hobj).
      eexists _, _. split; [reflexivity|]. auto.
  - rewrite (deliver_undecodable a s tr Hload).
    eexists _, _. split; [reflexivity|]. auto.
Qed.

(** One arrival: counted when it decodes to an object, stored when its
    message id can be a key. *)
Lemma deliver_step a s tr :
  exists s' tr',
    deliver env a s tr = (Ret tt, s', tr ++ tr') /\
    message_count s' = message_count s + (if counted env a then 1 else 0) /\
    is_connected s' = is_connected s /\
    match key_of env a with
    | Some k => exists entry, processed_messages s' = <[k := entry]> (processed_messages s)
    | None => processed_messages s' = processed_messages s
    end.
Proof.
  unfold counted, key_of.
  destruct (json_loads env (a_payload a)) as [v|] eqn:Hload.
  - destruct (is_object v) eqn:Hobj.
    + destruct v as [| | | | | |members]; try discriminate Hobj.
      destruct (hash_key (message_id_of members)) as [k|] eqn:Hkey.
      * destruct (deliver_object a s tr members k Hload Hkey) as [tr' ->].
        eexists _, tr'. split; [reflexivity|]. simpl. eauto.
      * rewrite (deliver_unhashable a s tr members Hload Hkey).
        eexists _, _. split; [reflexivity|]. simpl. auto.
    + rewrite (deliver_not_object a s tr v Hload Hobj).
      eexists _, _. split; [reflexivity|].
      destruct v; try discriminate Hobj; simpl; split_and!; auto; lia.
  - rewrite (deliver_undecodable a s tr Hload).
    eexists _, _. split; [reflexivity|]. simpl. split_and!; auto; lia.
Qed.

Lemma deliver_preserves_tracker a s tr :
  tracker_ok s -> tracker_ok (self_of (deliver env a s tr)).
Proof.
  unfold tracker_ok. intros Hok.
  destruct (deliver_cases a s tr) as (s' & tr' & -> & [-> | [-> | (k & entry & ->)]]);
    unfold self_of; simpl; [lia | lia |].
  rewrite map_size_insert. destruct (processed_messages s !! k); simpl; lia.
Qed.

Lemma deliver_all_returns arrivals : forall s tr,
  result_of (deliver_all env arrivals s tr) = Ret tt.
Proof.
  induction arrivals as [|a rest IH]; intros s tr; [reflexivity|].
  simpl. unfold bind.
  destruct (deliver_cases a s tr) as (s' & tr' & -> & _). apply IH.
Qed.

Lemma deliver_all_cons a rest s tr :
  deliver_all env (a :: rest) s tr
  = deliver_all env rest (self_of (deliver env a s tr)) (trace_of (deliver env a s tr)).
Proof.
  simpl. unfold bind.
  destruct (deliver_cases a s tr) as (s' & tr' & -> & _). reflexivity.
Qed.

Lemma deliver_all_preserves_tracker arrivals : forall s tr,
  tracker_ok s -> tracker_ok (self_of (deliver_all env arrivals s tr)).
Proof.
  induction arrivals as [|a rest IH]; intros s tr Hok; [exact Hok|].
  rewrite deliver_all_cons. apply IH. by apply deliver_preserves_tracker.
Qed.

(** C1, as the code has it.  After any finite sequence of arrival
    callbacks on a subscriber, the sequence has returned without raising,
    [message_count] is the number of arrivals whose payload decodes to a
    JSON object, and the number of keys of [processed_messages] is at
    most [message_count]; [get_stats] reports the two numbers with the
    same order between them.  Each single arrival, in any state, returns;
    it adds exactly one to [message_count] when its payload decodes to a
    JSON object and changes nothing otherwise; it removes no key and adds
    at most one; and it keeps the invariant. *)
Theorem message_count_bounds_distinct_ids config subscriber_id arrivals tr :
  let out := deliver_all env arrivals (__init__ config subscriber_id) tr in
  (result_of out = Ret tt /\
   message_count (self_of out)
   = Z.of_nat (length (List.filter (counted env) arrivals)) /\
   Z.of_nat (size (processed_messages (self_of out))) <= message_count (self_of out) /\
   exists st,
     result_of (get_stats (self_of out) (trace_of out)) = Ret st /\
     st_message_count st = message_count (self_of out) /\
     Z.of_nat (length (st_processed_message_ids st)) <= st_message_count st) /\
  (forall a s tr0,
     let one := deliver env a s tr0 in
     result_of one = Ret tt /\
     message_count (self_of one)
     = message_count s + (if counted env a then 1 else 0) /\
     (counted env a = false -> self_of one = s) /\
     dom (processed_messages s) ⊆ dom (processed_messages (self_of one)) /\
     (size (processed_messages (self_of one))
      <= size (processed_messages s) + 1)%nat /\
     (Z.of_nat (size (processed_messages s)) <= message_count s ->
      Z.of_nat (size (processed_messages (self_of one)))
      <= message_count (self_of one))).
Proof.
  intros out. split.
  - assert (Hok : tracker_ok (self_of out)).
    { apply deliver_all_preserves_tracker. unfold tracker_ok. simpl.
      rewrite map_size_empty. lia. }
    split; [apply deliver_all_returns|]. split; [|split; [exact Hok|]].
    + subst out.
      assert (Hcount : forall s0 tr0,
        message_count (self_of (deliver_all env arrivals s0 tr0))
        = message_count s0 + Z.of_nat (length (List.filter (counted env) arrivals))).
      { clear. induction arrivals as [|a rest IH]; intros s0 tr0.
        - simpl. unfold self_of, ret. simpl. lia.
        - rewrite deliver_all_cons, IH.
          destruct (deliver_step a s0 tr0) as (s1 & tr1 & -> & Hc & _).
          unfold self_of at 1. simpl. rewrite Hc.
          destruct (counted env a); simpl length; lia. }
      rewrite Hcount. reflexivity.
    + eexists. split; [reflexivity|]. simpl. split; [reflexivity|].
      rewrite length_fmap, length_map_to_list. exact Hok.
  - intros a s tr0 one. subst one.
    destruct (deliver_step a s tr0) as (s1 & tr1 & E & Hcount & _ & Hstore).
    pose proof (deliver_preserves_tracker a s tr0) as Hkeeps.
    rewrite E in *. unfold result_of, self_of in *. cbn [fst snd] in *.
    split; [reflexivity|]. split; [exact Hcount|]. split_and!.
    + intros Hplain. unfold counted, key_of in *.
      destruct (json_loads env (a_payload a)) as [v|] eqn:Hload.
      * destruct (is_object v) eqn:Hobj.
        -- destruct v; discriminate.
        -- rewrite (deliver_not_object a s tr0 v Hload Hobj) in E. congruence.
      * rewrite (deliver_undecodable a s tr0 Hload) in E. congruence.
    + destruct (key_of env a) as [k|].
      * destruct Hstore as [entry ->]. rewrite dom_insert_L. set_solver.
      * by rewrite Hstore.
    + destruct (key_of env a) as [k|].
      * destruct Hstore as [entry ->]. rewrite map_size_insert.
        destruct (processed_messages s !! k); simpl; lia.
      * rewrite Hstore. lia.
    + exact Hkeeps.
Qed.

(** C9. An arrival whose payload does not decode leaves every attribute of
    the subscriber as it was, and the callback returns without raising:
    all it does is print the error. *)
Theorem undecodable_payload_changes_nothing a s tr :
  json_loads env (a_payload a) = None ->
  let out := deliver env a s tr in
  result_of out = Ret tt /\
  self_of out = s /\
  message_count (self_of out) = message_count s /\
  processed_messages (self_of out) = processed_messages s /\
  exists e, trace_of out = tr ++ [Console (LMessageError e)].
Proof.
  intros Hload out. subst out. rewrite (deliver_undecodable a s tr Hload).
  unfold result_of, self_of, trace_of. simpl. eauto 10.
Qed.

(** C2. Two deliveries in a row whose payloads decode to objects with the
    same message id: both return, each adds one to [message_count], and
    the second leaves the key set and the cardinality of
    [processed_messages] as the first left them, storing its own record
    under the key the first one used. *)
Theorem redelivery_counts_twice_stores_once a1 a2 members1 members2 s tr :
  json_loads env (a_payload a1) = Some (JObj members1) ->
  json_loads env (a_payload a2) = Some (JObj members2) ->
  message_id_of members1 = message_id_of members2 ->
  let out1 := deliver env a1 s tr in
  let out2 := deliver env a2 (self_of out1) (trace_of out1) in
  result_of out1 = Ret tt /\ result_of out2 = Ret tt /\
  message_count (self_of out1) = message_count s + 1 /\
  message_count (self_of out2) = message_count s + 2 /\
  size (processed_messages (self_of out2)) = size (processed_messages (self_of out1)) /\
  dom (processed_messages (self_of out2)) = dom (processed_messages (self_of out1)) /\
  forall k, hash_key (message_id_of members1) = Some k ->
    processed_messages (self_of out2) !! k
    = Some (entry_of a2 (now env (length (trace_of out1))) (JObj members2)) /\
    processed_messages (self_of out2)
    = <[k := entry_of a2 (now env (length (trace_of out1))) (JObj members2)]>
        (processed_messages (self_of out1)).
Proof.
  intros Hload1 Hload2 Hid out1 out2.
  destruct (hash_key (message_id_of members1)) as [k|] eqn:Hkey.
  - assert (Hkey2 : hash_key (message_id_of members2) = Some k) by (by rewrite <- Hid).
    destruct (deliver_object a1 s tr members1 k Hload1 Hkey) as [tr1 E1].
    assert (E1' : out1 = (Ret tt,
        set_processed_messages
          (<[k := entry_of a1 (now env (length tr)) (JObj members1)]>
             (processed_messages s))
          (set_message_count (message_count s + 1) s), tr ++ tr1)) by exact E1.
    destruct (deliver_object a2 (self_of out1) (trace_of out1) members2 k Hload2 Hkey2)
      as [tr2 E2].
    assert (E2' : out2 = (Ret tt,
        set_processed_messages
          (<[k := entry_of a2 (now env (length (trace_of out1))) (JObj members2)]>
             (processed_messages (self_of out1)))
          (set_message_count (message_count (self_of out1) + 1) (self_of out1)),
        trace_of out1 ++ tr2)) by exact E2.
    rewrite E2'. unfold result_of, self_of at 1 2 3 4 5. simpl.
    rewrite E1'. unfold result_of, self_of. simpl.
    split_and!.
    + reflexivity.
    + reflexivity.
    + reflexivity.
    + lia.
    + rewrite map_size_insert, lookup_insert_eq. reflexivity.
    + rewrite !dom_insert_L. set_solver.
    + intros k' [= <-]. split; [apply lookup_insert_eq | reflexivity].
  - assert (Hkey2 : hash_key (message_id_of members2) = None) by (by rewrite <- Hid).
    assert (E1 : out1 = (Ret tt, set_message_count (message_count s + 1) s,
                         tr ++ [Console (LMessageError "unhashable type")]))
      by (exact (deliver_unhashable a1 s tr members1 Hload1 Hkey)).
    assert (E2 : out2 = (Ret tt,
        set_message_count (message_count (self_of out1) + 1) (self_of out1),
        trace_of out1 ++ [Console (LMessageError "unhashable type")]))
      by (exact (deliver_unhashable a2 _ _ members2 Hload2 Hkey2)).
    rewrite E2. unfold result_of, self_of at 1 2 3 4 5. simpl.
    rewrite E1. unfold result_of, self_of. simpl.
    split_and!; try reflexivity; try lia. intros k' [=].
Qed.

Lemma lacks_message_id_true a :
  lacks_message_id env a = true ->
  exists members,
    json_loads env (a_payload a) = Some (JObj members) /\
    assoc "message_id" members = None.
Proof.
  unfold lacks_message_id. intros H.
  destruct (json_loads env (a_payload a)) as [[| | | | | |members]|];
    try discriminate H.
  destruct (assoc "message_id" members) eqn:Hnone; [discriminate H|]. eauto.
Qed.

Lemma deliver_anonymous a s tr members :
  json_loads env (a_payload a) = Some (JObj members) ->
  assoc "message_id" members = None ->
  exists tr',
    deliver env a s tr
    = (Ret tt,
       set_processed_messages
         (<[KStr "unknown" := entry_of a (now env (length tr)) (JObj members)]>
            (processed_messages s))
         (set_message_count (message_count s + 1) s),
       tr ++ tr').
Proof.
  intros Hload Hnone. apply deliver_object; [exact Hload|].
  unfold message_id_of. rewrite Hnone. reflexivity.
Qed.

(** C10. Any number of arrivals whose payloads decode to objects without a
    ["message_id"] member: the callbacks return, [message_count] grows by
    one per arrival, every one of them is stored under the key
    ["unknown"], and together they add at most that one key to
    [processed_messages]. *)
Theorem anonymous_messages_share_one_key arrivals : forall s tr,
  Forall (fun a => lacks_message_id env a = true) arrivals ->
  let out := deliver_all env arrivals s tr in
  result_of out = Ret tt /\
  message_count (self_of out) = message_count s + Z.of_nat (length arrivals) /\
  (arrivals <> [] ->
     dom (processed_messages (self_of out))
     = {[ KStr "unknown" ]} ∪ dom (processed_messages s)) /\
  (size (processed_messages (self_of out)) <= S (size (processed_messages s)))%nat.
Proof.
  induction arrivals as [|a rest IH]; intros s tr Hall out.
  - subst out. unfold result_of, self_of. simpl. repeat split; [lia|done|lia].
  - apply Forall_cons in Hall as [Ha Hrest].
    destruct (lacks_message_id_true a Ha) as (members & Hload & Hnone).
    destruct (deliver_anonymous a s tr members Hload Hnone) as [tr' E].
    subst out. rewrite deliver_all_cons, E.
    unfold self_of at 1 3 5 7, trace_of at 1 2 3 4. simpl.
    destruct (IH (set_processed_messages
         (<[KStr "unknown" := entry_of a (now env (length tr)) (JObj members)]>
            (processed_messages s))
         (set_message_count (message_count s + 1) s)) (tr ++ tr') Hrest)
      as (Hr & Hc & Hd & Hs).
    simpl in Hc, Hd, Hs.
    split; [exact Hr|]. split; [rewrite Hc; lia|]. split.
    + intros _. destruct rest as [|b rest'].
      * unfold self_of. simpl. apply dom_insert_L.
      * rewrite Hd by discriminate. rewrite dom_insert_L. set_solver.
    + destruct rest as [|b rest'].
      * unfold self_of. simpl. rewrite map_size_insert.
        destruct (processed_messages s !! KStr "unknown"); simpl; lia.
      * assert (Hsz : size (processed_messages (self_of (deliver_all env (b :: rest')
            (set_processed_messages
              (<[KStr "unknown" := entry_of a (now env (length tr)) (JObj members)]>
                 (processed_messages s))
              (set_message_count (message_count s + 1) s)) (tr ++ tr'))))
          = size (<[KStr "unknown" := entry_of a (now env (length tr)) (JObj members)]>
                 (processed_messages s))).
        { rewrite <- !size_dom. rewrite Hd by discriminate.
          rewrite dom_insert_L. f_equal. set_solver. }
        rewrite Hsz, map_size_insert.
        destruct (processed_messages s !! KStr "unknown"); simpl; lia.
Qed.

End Tracker.

(** C1 as stated fails: not every arrival adds one to [message_count].  A
    payload that is JSON but no object (here an array) has no [get]; the
    callback catches the [AttributeError] before the count has moved. *)
Lemma non_object_arrival_is_not_counted :
  ~ counts_exactly_one demo_env (demo_arrival "array") demo_subscriber [].
Proof. unfold counts_exactly_one. vm_compute. discriminate. Qed.

(** Ids that are equal as numbers share one record: three arrivals with
    the ids [1], [1.0] and [true] are counted three times and stored
    once. *)
Example numeric_ids_share_one_record :
  let out := Subscriber.deliver_all numeric_env
               [demo_arrival "one"; demo_arrival "one point zero"; demo_arrival "true"]
               demo_subscriber [] in
  Subscriber.message_count (self_of out) = 3 /\
  size (Subscriber.processed_messages (self_of out)) = 1%nat.
Proof. vm_compute. split; reflexivity. Qed.

(* ===================================================================== *)
(** ** Disconnecting *)
(* ===================================================================== *)

Section Disconnect.
Variable env : Env.

(** The three ways a [disconnect] of the subscriber can go. *)
Lemma subscriber_disconnect_cases (s : Subscriber.IoTSharedSubscriber) tr :
  let out := Subscriber.disconnect env s tr in
  (Subscriber.is_connected s = false /\
     out = (Ret tt, s, tr ++ [Console LAlreadyDown])) \/
  (Subscriber.is_connected s = true /\ Subscriber.mqtt_connection s = None /\
     out = (Ret tt, s, tr)) \/
  (Subscriber.is_connected s = true /\ is_Some (Subscriber.mqtt_connection s) /\
     exists l,
       out = (Ret tt, Subscriber.set_is_connected false s,
              tr ++ [Transport (Disconnect (Subscriber.client_id s)); Console l]) /\
       forall msg,
         transport env (length tr) (Disconnect (Subscriber.client_id s)) = Nack msg ->
         contains "NOT_CONNECTED" msg = true -> l = LAlreadyDisconnected).
Proof.
  unfold Subscriber.disconnect, bind, get. simpl.
  destruct (Subscriber.is_connected s) eqn:Hc;
    destruct (Subscriber.mqtt_connection s) as [c|] eqn:Hm; simpl.
  - right; right. split; [reflexivity|]. split; [eauto|].
    unfold try_except, bind, Subscriber.request_disconnect, bind, get, request.
    simpl. rewrite Hm. simpl.
    destruct (transport env (length tr) (Disconnect (Subscriber.client_id s)))
      as [info|msg] eqn:Ht; simpl.
    + eexists. rewrite <- app_assoc. split; [reflexivity|]. intros ? [=].
    + unfold Subscriber.disconnect_failed, bind. simpl.
      destruct (contains "NOT_CONNECTED" msg) eqn:Hin; simpl;
        eexists; rewrite <- app_assoc; (split; [reflexivity|]);
        intros ? [= <-] ?; congruence.
  - right; left. auto.
  - left. rewrite ?andb_false_r. auto.
  - left. rewrite ?andb_false_r. auto.
Qed.

Lemma publisher_disconnect_cases (p : Publisher.IoTMessagePublisher) tr :
  let out := Publisher.disconnect env p tr in
  (Publisher.is_connected p = false /\
     out = (Ret tt, p, tr ++ [Console LAlreadyDown])) \/
  (Publisher.is_connected p = true /\ Publisher.mqtt_connection p = None /\
     out = (Ret tt, p, tr)) \/
  (Publisher.is_connected p = true /\ is_Some (Publisher.mqtt_connection p) /\
     exists l,
       out = (Ret tt, Publisher.set_is_connected false p,
              tr ++ [Transport (Disconnect (Publisher.client_id p)); Console l]) /\
       forall msg,
         transport env (length tr) (Disconnect (Publisher.client_id p)) = Nack msg ->
         contains "NOT_CONNECTED" msg = true -> l = LAlreadyDisconnected).
Proof.
  unfold Publisher.disconnect, bind, get. simpl.
  destruct (Publisher.is_connected p) eqn:Hc;
    destruct (Publisher.mqtt_connection p) as [c|] eqn:Hm; simpl.
  - right; right. split; [reflexivity|]. split; [eauto|].
    unfold try_except, bind, request. simpl.
    destruct (transport env (length tr) (Disconnect (Publisher.client_id p)))
      as [info|msg] eqn:Ht; simpl.
    + eexists. rewrite <- app_assoc. split; [reflexivity|]. intros ? [=].
    + destruct (contains "NOT_CONNECTED" msg) eqn:Hin; simpl;
        eexists; rewrite <- app_assoc; (split; [reflexivity|]);
        intros ? [= <-] ?; congruence.
  - right; left. auto.
  - left. rewrite ?andb_false_r. auto.
  - left. rewrite ?andb_false_r. auto.
Qed.

(** From the ways the first and the second call can go to what
    [disconnect_idempotent] asks of the pair. *)
Ltac two_calls H1 H2 :=
  destruct H1 as [(Hc & E1) | [(Hc & Hm & E1) | (Hc & Hm & l & E1 & Hl)]];
  rewrite E1 in *; unfold self_of, trace_of, result_of in *; simpl in *;
  [ destruct H2 as [(_ & E2) | [(Hc2 & _) | (Hc2 & _)]]; try congruence;
    rewrite E2; simpl; rewrite !requests_print;
    split_and!; try done; intros; congruence
  | destruct H2 as [(Hc2 & _) | [(_ & _ & E2) | (_ & [c Hs] & _)]];
    try congruence;
    rewrite E2; simpl; split_and!; try done; try congruence;
    intros msg _ [c Hs]; congruence
  | destruct H2 as [(_ & E2) | [(Hc2 & _) | (Hc2 & _)]]; try discriminate;
    rewrite E2; simpl; rewrite !requests_print;
    split_and!; try done; try congruence;
    intros msg _ _ Ht; split; [reflexivity|]; intros Hin;
    rewrite (Hl msg Ht Hin); reflexivity ].

(** C3. [disconnect] of the subscriber and of the publisher: it returns
    without raising whatever the MQTT library answers, a second call in a
    row returns too and makes no request, a call on an object that is not
    connected changes nothing and makes no request, and an error of the
    library (one that says [NOT_CONNECTED] included) leaves [is_connected]
    false. *)
Theorem disconnect_twice_is_safe :
  disconnect_idempotent env Subscriber.is_connected Subscriber.mqtt_connection
    Subscriber.client_id (Subscriber.disconnect env) /\
  disconnect_idempotent env Publisher.is_connected Publisher.mqtt_connection
    Publisher.client_id (Publisher.disconnect env).
Proof.
  split.
  - intros s tr out1 out2.
    pose proof (subscriber_disconnect_cases s tr) as H1.
    pose proof (subscriber_disconnect_cases (self_of out1) (trace_of out1)) as H2.
    simpl in H1, H2. fold out1 in H1. fold out2 in H2. two_calls H1 H2.
  - intros p tr out1 out2.
    pose proof (publisher_disconnect_cases p tr) as H1.
    pose proof (publisher_disconnect_cases (self_of out1) (trace_of out1)) as H2.
    simpl in H1, H2. fold out1 in H1. fold out2 in H2. two_calls H1 H2.
Qed.
End Disconnect.

(* ===================================================================== *)
(** ** Starting the pool *)
(* ===================================================================== *)

Section StartAll.
Import Subscriber.
Variable env : Env.

(** [connect] never raises; it returns whether it left the subscriber
    connected, touches no other attribute the pool looks at, and asks for
    exactly one connection to be built. *)
Lemma connect_spec (s : IoTSharedSubscriber) tr :
  exists b s' tr',
    connect env s tr = (Ret b, s', tr ++ tr') /\
    is_connected s' = b /\
    client_id s' = client_id s /\
    reconnect_threads s' = reconnect_threads s /\
    should_disconnect s' = should_disconnect s /\
    message_count s' = message_count s /\
    processed_messages s' = processed_messages s /\
    builds tr' = [client_id s].
Proof.
  unfold connect, try_except, bind, get, position, request, modify, print, emit, ret.
  simpl.
  destruct (transport env (length tr) (Build (client_id s))) as [i1|m1]; simpl.
  - destruct (transport env _ (Connect (client_id s))) as [i2|m2]; simpl.
    + destruct (transport env _ (Subscribe (client_id s) _)) as [i3|m3]; simpl;
        eexists _, _, _; rewrite <- !app_assoc; (split; [reflexivity|]);
        simpl; auto 10.
    + eexists _, _, _; rewrite <- !app_assoc; (split; [reflexivity|]);
        simpl; auto 10.
  - eexists _, _, _; rewrite <- !app_assoc; (split; [reflexivity|]);
      simpl; auto 10.
Qed.

Lemma take_le_eq {A} (l1 l2 : list A) (i j : nat) :
  (i <= j)%nat -> take j l1 = take j l2 -> take i l1 = take i l2.
Proof.
  intros Hij H. rewrite <- (Nat.min_l i j Hij), <- !take_take, H. reflexivity.
Qed.

(** Putting the result of the [i]-th [connect] back in front of what the
    rest of the loop did. *)
Lemma start_step_facts (subs subs' : list IoTSharedSubscriber) i s s' :
  subs !! i = Some s ->
  client_id s' = client_id s ->
  take (S i) subs' = take (S i) (<[i:=s']> subs) ->
  length subs' = length (<[i:=s']> subs) ->
  take i subs' = take i subs /\
  length subs' = length subs /\
  connected_count (drop i subs')
  = Z.b2z (is_connected s') + connected_count (drop (S i) subs') /\
  client_id s :: List.map client_id (drop (S i) (<[i:=s']> subs))
  = List.map client_id (drop i subs).
Proof.
  intros Hs Hid Htake Hlen.
  assert (Hi : (i < length subs)%nat) by (apply lookup_lt_is_Some; eauto).
  assert (Hi' : subs' !! i = Some s').
  { rewrite <- (lookup_take_lt _ (S i)) by lia. rewrite Htake.
    rewrite lookup_take_lt by lia. by apply list_lookup_insert_eq. }
  split_and!.
  - rewrite (take_le_eq subs' (<[i:=s']> subs) i (S i)) by (lia || done).
    apply take_insert_ge. lia.
  - rewrite Hlen. apply length_insert.
  - rewrite (drop_S _ _ _ Hi'). unfold connected_count. simpl.
    destruct (is_connected s'); simpl; lia.
  - rewrite drop_insert_lt by lia. rewrite (drop_S _ _ _ Hs). reflexivity.
Qed.

Lemma start_from_spec n : forall i acc (mgr : MultiSubscriberManager) tr,
  length (subscribers mgr) = (i + n)%nat ->
  exists mgr' tr',
    start_from env i n acc mgr tr
    = (Ret (acc + connected_count (drop i (subscribers mgr'))), mgr', tr ++ tr') /\
    take i (subscribers mgr') = take i (subscribers mgr) /\
    length (subscribers mgr') = length (subscribers mgr) /\
    builds tr' = List.map client_id (drop i (subscribers mgr)).
Proof.
  induction n as [|n IH]; intros i acc mgr tr Hlen.
  - exists mgr, []. simpl. unfold ret.
    rewrite !drop_ge by lia. unfold connected_count. simpl.
    rewrite Z.add_0_r, app_nil_r. auto.
  - destruct (lookup_lt_is_Some_2 (subscribers mgr) i ltac:(lia)) as [s Hs].
    destruct (connect_spec s tr) as (b & s' & tr1 & Ec & Hb & Hid & _ & _ & _ & _ & Hbuild).
    simpl. unfold bind at 1. unfold on_subscriber. rewrite Hs, Ec.
    set (mgr1 := set_subscribers (<[i:=s']> (subscribers mgr)) mgr).
    assert (Hlen1 : length (subscribers mgr1) = (S i + n)%nat).
    { unfold mgr1. simpl. rewrite length_insert. lia. }
    destruct b.
    + unfold bind at 1. unfold sleep. simpl. unfold emit.
      destruct (IH (S i) (acc + 1) mgr1 ((tr ++ tr1) ++ [Sleep 1]) Hlen1)
        as (mgr' & tr' & E & Htake & Hlen' & Hb').
      destruct (start_step_facts _ _ i s s' Hs Hid Htake Hlen') as (H1 & H2 & H3 & H4).
      rewrite E. exists mgr', (tr1 ++ [Sleep 1] ++ tr').
      rewrite H3, Hb. rewrite <- !app_assoc. split; [do 3 f_equal; simpl; lia|].
      split; [exact H1|]. split; [exact H2|].
      rewrite !builds_app, Hbuild, Hb'. simpl. exact H4.
    + destruct (IH (S i) acc mgr1 (tr ++ tr1) Hlen1)
        as (mgr' & tr' & E & Htake & Hlen' & Hb').
      destruct (start_step_facts _ _ i s s' Hs Hid Htake Hlen') as (H1 & H2 & H3 & H4).
      rewrite E. exists mgr', (tr1 ++ tr').
      rewrite H3, Hb. rewrite <- !app_assoc. split; [do 3 f_equal|].
      split; [exact H1|]. split; [exact H2|].
      rewrite !builds_app, Hbuild, Hb'. exact H4.
Qed.

Lemma connected_count_bounds (subs : list IoTSharedSubscriber) :
  0 <= connected_count subs <= Z.of_nat (length subs).
Proof.
  unfold connected_count. pose proof (List.filter_length_le is_connected subs). lia.
Qed.

(** C6, as the code has it. [start_all] calls [connect] once on every
    subscriber, in pool order; it prints how many of them connected, a
    number between 0 and the size of the pool, and returns whether that
    number is positive. *)
Theorem start_all_reports_any_success (mgr : MultiSubscriberManager) tr :
  let out := start_all env mgr tr in
  let n := length (subscribers mgr) in
  let connected := connected_count (subscribers (self_of out)) in
  result_of out = Ret (0 <? connected) /\
  0 <= connected <= Z.of_nat n /\
  length (subscribers (self_of out)) = n /\
  In (Console (LManagerConnected connected n)) (trace_of out) /\
  builds (trace_of out) = builds tr ++ List.map client_id (subscribers mgr).
Proof.
  intros out n connected.
  destruct (start_from_spec (length (subscribers mgr)) 0 0 mgr
              (tr ++ [Console (LManagerStart (length (subscribers mgr)))]) eq_refl)
    as (mgr' & tr' & E & _ & Hlen & Hb).
  rewrite drop_0, Z.add_0_l in E. rewrite drop_0 in Hb.
  assert (Eout : out =
    (Ret (0 <? connected_count (subscribers mgr')), mgr',
     ((tr ++ [Console (LManagerStart n)]) ++ tr')
       ++ Console (LManagerConnected (connected_count (subscribers mgr')) n)
       :: (if 0 <? connected_count (subscribers mgr')
           then [Console LManagerReady] else []))).
  { subst out. unfold start_all, bind at 1, get. unfold bind at 1, print, emit.
    unfold bind at 1. fold n in E |- *. rewrite E.
    unfold bind, when, ret, print, emit.
    destruct (0 <? connected_count (subscribers mgr')); simpl;
      rewrite <- ?app_assoc; reflexivity. }
  subst connected. rewrite Eout. unfold result_of, self_of, trace_of. simpl.
  split; [reflexivity|]. split.
  { pose proof (connected_count_bounds (subscribers mgr')). fold n in Hlen. lia. }
  split; [exact Hlen|]. split.
  - apply in_or_app. right. left. reflexivity.
  - rewrite !builds_app, Hb. simpl.
    destruct (0 <? connected_count (subscribers mgr')); simpl;
      rewrite ?app_nil_r; reflexivity.
Qed.

End StartAll.

(** C6 as stated fails: in a pool of two that both connect, [start_all]
    returns [True], which is not the number 2. *)
Lemma start_all_returns_flag_not_count :
  ~ returns_connected_count demo_env (Subscriber.new_manager demo_config 2) [].
Proof.
  unfold returns_connected_count. intros (b & Hres & Hcount).
  vm_compute in Hres. injection Hres as <-.
  vm_compute in Hcount. discriminate Hcount.
Qed.

(* ===================================================================== *)
(** ** The publishing loop *)
(* ===================================================================== *)

Section Loop.
Import Publisher.
Variable env : Env.

(** A callback returns, sleeps nowhere, publishes nothing, and moves
    [is_connected] as [up_after] says; only a completed publish moves
    [publish_count], by one. *)
Lemma run_callback_spec cb (p : IoTMessagePublisher) tr :
  exists p' tr',
    run_callback cb p tr = (Ret tt, p', tr ++ tr') /\
    is_connected p' = up_after [cb] (is_connected p) /\
    mqtt_connection p' = mqtt_connection p /\
    client_id p' = client_id p /\ config p' = config p /\
    publish_count p <= publish_count p' <= publish_count p + 1 /\
    sleeps tr' = 0%nat /\ published tr' = [] /\
    ~ In (Console LLoopStopped) tr'.
Proof.
  destruct cb as [error|session_present|[info|msg]]; simpl;
    unfold _on_connection_interrupted, _on_connection_resumed, _on_publish_complete,
      try_except, bind, modify, get, print, emit, ret; simpl;
    eexists _, _; rewrite <- ?app_assoc; (split; [reflexivity|]); simpl;
    split_and!; try reflexivity; try lia; intuition discriminate.
Qed.

Lemma run_callbacks_spec cbs : forall (p : IoTMessagePublisher) tr,
  exists p' tr',
    run_callbacks cbs p tr = (Ret tt, p', tr ++ tr') /\
    is_connected p' = up_after cbs (is_connected p) /\
    mqtt_connection p' = mqtt_connection p /\
    client_id p' = client_id p /\ config p' = config p /\
    publish_count p <= publish_count p' /\
    sleeps tr' = 0%nat /\ published tr' = [] /\
    ~ In (Console LLoopStopped) tr'.
Proof.
  induction cbs as [|cb rest IH]; intros p tr.
  - exists p, []. simpl. unfold ret. rewrite app_nil_r. split_and!; auto; lia.
  - destruct (run_callback_spec cb p tr)
      as (p1 & tr1 & E1 & Hu1 & Hm1 & Hi1 & Hg1 & Hc1 & Hs1 & Hp1 & Hn1).
    destruct (IH p1 (tr ++ tr1))
      as (p2 & tr2 & E2 & Hu2 & Hm2 & Hi2 & Hg2 & Hc2 & Hs2 & Hp2 & Hn2).
    exists p2, (tr1 ++ tr2). simpl run_callbacks. unfold bind. rewrite E1, E2.
    rewrite <- app_assoc. split; [reflexivity|].
    rewrite sleeps_app, published_app, Hs1, Hs2, Hp1, Hp2.
    split_and!; try congruence; try reflexivity; try lia.
    + rewrite Hu2, Hu1. reflexivity.
    + intros Hin. apply in_app_or in Hin. tauto.
Qed.

(** One call of [publish_test_message]: it returns, sleeps nowhere, and
    changes no attribute.  Down, it only prints the skip; up, it hands
    the MQTT library one message whose sequence is [publish_count + 1]. *)
Lemma publish_spec given (p : IoTMessagePublisher) tr :
  exists b tr',
    publish_test_message env given p tr = (Ret b, p, tr ++ tr') /\
    sleeps tr' = 0%nat /\ ~ In (Console LLoopStopped) tr' /\
    (is_connected p = false -> b = false /\ tr' = [Console LSkipNotConnected]) /\
    (is_connected p = true -> is_Some (mqtt_connection p) ->
       published tr'
       = [json_dumps env
            (message_of (default (uuid4 env (length tr)) given)
               (now env (length tr)) (client_id p) (publish_count p + 1))]).
Proof.
  unfold publish_test_message, bind at 1, get.
  destruct (is_connected p) eqn:Hc; simpl.
  - destruct (mqtt_connection p) as [c|] eqn:Hm; simpl.
    + unfold bind, new_uuid, datetime_now, bind, position, ret, try_except,
        bind, request, print, emit.
      destruct given as [id|]; simpl;
        match goal with
        | |- context [transport env ?n ?c] =>
            destruct (transport env n c) as [info|msg]
        end; simpl; eexists _, _; rewrite <- ?app_assoc;
        (split; [reflexivity|]); simpl;
        (split_and!; [reflexivity| intuition discriminate | discriminate | reflexivity]).
    + unfold bind, print, emit, ret. eexists _, _. rewrite <- ?app_assoc.
      split; [reflexivity|]. simpl.
      split_and!; [reflexivity| intuition discriminate | discriminate |].
      intros _ [? [=]].
  - unfold bind, print, emit, ret. eexists _, _. rewrite <- ?app_assoc.
    split; [reflexivity|]. simpl.
    split_and!; [reflexivity| intuition discriminate | auto | discriminate].
Qed.





Section Turns.
Variables (interval : Q) (max_messages : Z) (schedule : nat -> tick).
Hypothesis interval_ok : sleepable interval = true.



(** With no callback at all the loop publishes once per turn, and every
    message carries the sequence number the first one had. *)
Lemma unacknowledged_loop_spec n : forall i (p : IoTMessagePublisher) tr,
  is_connected p = true ->
  is_Some (mqtt_connection p) ->
  exists tr',
    publishing_from env interval max_messages (fun _ => idle) i n p tr
    = (Ret tt, p, tr ++ tr') /\
    length (published tr') = n /\
    Forall (fun payload => exists id stamp,
              payload = json_dumps env
                (message_of id stamp (client_id p) (publish_count p + 1)))
           (published tr').
Proof.
  induction n as [|n IH]; intros i p tr Hc Hm.
  - exists []. simpl. unfold ret. rewrite app_nil_r. auto.
  - destruct (publish_spec None p tr) as (b & tr1 & E1 & _ & _ & _ & Hp1).
    specialize (Hp1 Hc Hm).
    assert (Hwhen : exists tr2,
      when b (print (LProgress (Z.of_nat i + 1) max_messages)) p (tr ++ tr1)
      = (Ret tt, p, (tr ++ tr1) ++ tr2) /\ published tr2 = []).
    { destruct b; [exists [Console (LProgress (Z.of_nat i + 1) max_messages)] | exists []];
        simpl; unfold ret, print, emit; rewrite ?app_nil_r; auto. }
    destruct Hwhen as (tr2 & E2 & Hp2).
    destruct (IH (S i) p (((tr ++ tr1) ++ tr2) ++ [Sleep interval]) Hc Hm)
      as (tr3 & E3 & Hlen & Hall).
    exists (tr1 ++ tr2 ++ [Sleep interval] ++ tr3).
    cbn [publishing_from idle before_check before_publish run_callbacks].
    unfold bind at 1, ret at 1. unfold bind at 1, get at 1. rewrite Hc.
    cbn [negb]. unfold bind at 1, ret at 1. unfold bind at 1. rewrite E1.
    unfold bind at 1. rewrite E2.
    unfold bind at 1, sleep at 1. rewrite interval_ok. unfold emit at 1.
    rewrite E3. rewrite <- !app_assoc. split; [reflexivity|].
    rewrite !published_app, Hp1, Hp2. simpl. split; [by rewrite Hlen|].
    constructor; [eauto | exact Hall].
Qed.

End Turns.

(** C5 at its failing input.  Two turns of the loop with no completion
    callback in between, at any interval [time.sleep] accepts: the two
    messages handed to the MQTT library carry the same sequence number,
    [publish_count + 1]. *)
Theorem two_attempts_one_sequence (interval : Q) (p : IoTMessagePublisher) tr :
  sleepable interval = true ->
  is_connected p = true ->
  is_Some (mqtt_connection p) ->
  let out := start_continuous_publishing env interval 2 (fun _ => idle) p tr in
  exists id1 stamp1 id2 stamp2,
    published (trace_of out)
    = published tr
        ++ [json_dumps env (message_of id1 stamp1 (client_id p) (publish_count p + 1));
            json_dumps env (message_of id2 stamp2 (client_id p) (publish_count p + 1))].
Proof.
  intros Hi Hc Hm out.
  destruct (unacknowledged_loop_spec interval 2 Hi 2 0 p
              (tr ++ [Console (LLoopStart interval 2)]) Hc Hm)
    as (tr' & E & Hlen & Hall).
  assert (Eout : trace_of out =
    (tr ++ [Console (LLoopStart interval 2)]) ++ tr'
       ++ [Console LLoopDone; Console (LSummary (publish_count p)); Console LCheckSubscribers]).
  { subst out. unfold start_continuous_publishing, bind at 1, print at 1, emit.
    unfold bind at 1. change (Z.to_nat 2) with 2%nat.
    rewrite E.
    unfold bind, print, emit, get. rewrite <- !app_assoc. reflexivity. }
  rewrite Eout, !published_app. simpl. rewrite app_nil_r.
  destruct (published tr') as [|m1 [|m2 [|m3 rest]]]; try discriminate Hlen.
  apply Forall_cons in Hall as [(id1 & stamp1 & ->) Hall].
  apply Forall_cons in Hall as [(id2 & stamp2 & ->) _].
  eauto.
Qed.
End Loop.

(** With the acknowledgement of each publish arriving during the sleep
    that follows it, the sequence numbers count up. *)
Example acknowledged_attempts_count_up :
  let acked := fun i : nat =>
    match i with
    | O => idle
    | S _ => {| Publisher.before_check := [Publisher.PublishComplete (Ack 0)];
                Publisher.before_publish := [] |}
    end in
  published (trace_of (Publisher.start_continuous_publishing demo_env 1 3 acked
                         demo_publisher []))
  = ["uuid-1#1"; "uuid-6#2"; "uuid-11#3"].
Proof. vm_compute. reflexivity. Qed.


(** A skipped publish does not end the loop: the connection is down for the
    publish of the first turn and back for the second turn, and the loop
    completes both turns with one message published. *)
Example skipped_turn_is_followed_by_next :
  let out := Publisher.start_continuous_publishing demo_env 1 2 blip_in_first
               demo_publisher [] in
  sleeps (trace_of out) = 2%nat /\
  In (Console LSkipNotConnected) (trace_of out) /\
  length (published (trace_of out)) = 1%nat.
Proof. vm_compute. intuition. Qed.

(* ===================================================================== *)
(** ** The disconnect simulator *)
(* ===================================================================== *)

Section Simulator.
Import Subscriber.
Variable env : Env.

(** The guarded request of [simulate_disconnect]: whatever the MQTT
    library answers, the subscriber ends up disconnected and nothing is
    raised. *)
Lemma disconnect_attempt_spec (s : IoTSharedSubscriber) tr :
  exists tr',
    try_except (request_disconnect env >> modify (set_is_connected false))
      disconnect_failed s tr
    = (Ret tt, set_is_connected false s, tr ++ tr').
Proof.
  unfold try_except, request_disconnect, bind at 1 2, get.
  destruct (mqtt_connection s) as [c|]; simpl.
  - unfold bind, request, ret, modify.
    destruct (transport env (length tr) (Disconnect (client_id s))) as [info|msg].
    + eexists. reflexivity.
    + unfold disconnect_failed, bind, print, emit, modify. simpl.
      destruct (contains "NOT_CONNECTED" msg); eexists;
        rewrite <- app_assoc; reflexivity.
  - unfold raise, disconnect_failed, bind, print, emit, modify. simpl.
    eexists. reflexivity.
Qed.

(** [simulate_disconnect] does nothing to a subscriber that is not
    connected; a connected one it leaves disconnected, with one more
    sleeping reconnect thread. *)
Lemma simulate_disconnect_spec duration (s : IoTSharedSubscriber) tr :
  (is_connected s = false /\
     simulate_disconnect env duration s tr = (Ret tt, s, tr)) \/
  (is_connected s = true /\
     exists s' tr',
       simulate_disconnect env duration s tr = (Ret tt, s', tr ++ tr') /\
       is_connected s' = false /\
       reconnect_threads s' = reconnect_threads s ++ [duration] /\
       s' <> s).
Proof.
  unfold simulate_disconnect. rewrite bind_get.
  destruct (is_connected s) eqn:Hc; cbn [negb]; [right|left; auto].
  split; [reflexivity|].
  rewrite bind_print, !bind_modify, bind_get.
  set (s1 := set_disconnect_duration duration (set_should_disconnect true s)).
  assert (Hc1 : is_connected s1 = true) by exact Hc.
  rewrite Hc1. unfold when.
  destruct (disconnect_attempt_spec s1 (tr ++ [Console (LSimulateStart duration)]))
    as (tr1 & E).
  unfold bind at 1. rewrite E. unfold modify.
  eexists _, _. rewrite <- !app_assoc. split; [reflexivity|].
  simpl. split_and!; try reflexivity. intros Heq.
  apply (f_equal is_connected) in Heq. simpl in Heq. congruence.
Qed.

Lemma simulate_disconnect_keeps duration (s : IoTSharedSubscriber) tr :
  outage_ok s -> outage_ok (self_of (simulate_disconnect env duration s tr)).
Proof.
  intros Hok.
  destruct (simulate_disconnect_spec duration s tr)
    as [(_ & ->) | (Hc & s' & tr' & -> & Hc' & Ht & _)]; [exact Hok|].
  unfold self_of. simpl. right. split; [exact Hc'|].
  destruct Hok as [Hnil | (Hd & _)]; [|congruence].
  rewrite Ht, Hnil. reflexivity.
Qed.

(** A reconnect thread that wakes up leaves the list of sleeping threads
    one shorter. *)
Lemma reconnect_after_delay_keeps k (s : IoTSharedSubscriber) tr :
  outage_ok s -> outage_ok (self_of (reconnect_after_delay env k s tr)).
Proof.
  intros Hok. unfold reconnect_after_delay, bind at 1, get at 1.
  destruct (reconnect_threads s !! k) as [duration|] eqn:Hk; [|exact Hok].
  assert (Hnil : delete k (reconnect_threads s) = []).
  { destruct Hok as [Hnil | (_ & Hone)].
    - rewrite Hnil in Hk. discriminate.
    - destruct (reconnect_threads s) as [|d [|d' rest]]; try discriminate Hone.
      destruct k; [reflexivity | discriminate]. }
  unfold bind at 1, modify at 1. rewrite Hnil.
  set (s1 := set_reconnect_threads [] s).
  assert (Hfinal : forall s2, reconnect_threads s2 = [] -> outage_ok s2)
    by (intros; left; assumption).
  unfold try_except, bind at 1, sleep.
  destruct (sleepable (inject_Z duration)); simpl; [|apply Hfinal; reflexivity].
  unfold emit, bind at 1, get at 1, when.
  destruct (should_disconnect s1) eqn:Hsd; simpl; [|apply Hfinal; reflexivity].
  unfold bind at 1, print, emit. unfold bind at 1, modify at 1.
  destruct (connect_spec env (set_should_disconnect false s1)
              ((tr ++ [Sleep (inject_Z duration)]) ++ [Console LReconnecting]))
    as (b & s2 & tr2 & E & _ & _ & Ht & _).
  unfold bind at 1. rewrite E. unfold ret, self_of. simpl.
  apply Hfinal. rewrite Ht. reflexivity.
Qed.

Lemma deliver_keeps a (s : IoTSharedSubscriber) tr :
  outage_ok s -> outage_ok (self_of (deliver env a s tr)).
Proof.
  intros Hok.
  destruct (deliver_cases env a s tr)
    as (s' & tr' & -> & [-> | [-> | (k & entry & ->)]]); exact Hok.
Qed.

Lemma interrupted_keeps error (s : IoTSharedSubscriber) tr :
  outage_ok s -> outage_ok (self_of (_on_connection_interrupted error s tr)).
Proof.
  intros Hok. unfold _on_connection_interrupted, bind, modify, get, print, emit, when, ret.
  simpl. assert (Hgoal : outage_ok (set_is_connected false s)).
  { destruct Hok as [Hnil | (_ & Hd)]; [left | right]; auto. }
  destruct (should_disconnect s); exact Hgoal.
Qed.

Lemma resumed_keeps session_present (s : IoTSharedSubscriber) tr :
  reconnect_threads s = [] ->
  outage_ok (self_of (_on_connection_resumed session_present s tr)).
Proof.
  intros Hnil. unfold _on_connection_resumed, bind, modify, get, print, emit, when, ret.
  simpl. destruct session_present; left; exact Hnil.
Qed.

(** A method that keeps a subscriber in order keeps the pool in order. *)
Lemma on_subscriber_keeps_at {A} i (m : M IoTSharedSubscriber A)
    (mgr : MultiSubscriberManager) tr :
  (forall s, subscribers mgr !! i = Some s -> outage_ok (self_of (m s tr))) ->
  pool_ok mgr -> pool_ok (self_of (on_subscriber i m mgr tr)).
Proof.
  intros Hm Hok. unfold on_subscriber.
  destruct (subscribers mgr !! i) as [s|] eqn:Hs; [|exact Hok].
  specialize (Hm s eq_refl). destruct (m s tr) as [[r s'] tr'] eqn:E.
  unfold pool_ok, self_of in *. simpl in *. apply Forall_insert; assumption.
Qed.

Lemma on_subscriber_keeps {A} i (m : M IoTSharedSubscriber A) :
  keeps outage_ok m -> keeps pool_ok (on_subscriber i m).
Proof.
  intros Hm mgr tr Hok. apply on_subscriber_keeps_at; [|exact Hok].
  intros s Hs. apply Hm. unfold pool_ok in Hok.
  rewrite Forall_lookup in Hok. eapply Hok. exact Hs.
Qed.

Lemma connected_subscribers_connected (mgr : MultiSubscriberManager) i :
  In i (connected_subscribers mgr) ->
  exists s, subscribers mgr !! i = Some s /\ is_connected s = true.
Proof.
  unfold connected_subscribers. intros Hin. apply List.filter_In in Hin as [_ Hc].
  destruct (subscribers mgr !! i) as [s|]; [eauto | discriminate].
Qed.

(** A turn of the simulator either leaves the pool alone and asks the MQTT
    library for nothing, or runs [simulate_disconnect] on one subscriber
    that it found connected. *)
Lemma simulate_cycle_cases wait pick duration (mgr : MultiSubscriberManager) tr :
  let out := simulate_cycle env wait pick duration mgr tr in
  (self_of out = mgr /\ requests (trace_of out) = requests tr) \/
  (exists target s s' tr',
     In target (connected_subscribers mgr) /\
     subscribers mgr !! target = Some s /\ is_connected s = true /\
     out = (Ret tt, set_subscribers (<[target:=s']> (subscribers mgr)) mgr, tr ++ tr') /\
     is_connected s' = false /\
     reconnect_threads s' = reconnect_threads s ++ [duration] /\
     s' <> s).
Proof.
  unfold simulate_cycle.
  destruct (sleepable wait) eqn:Hw.
  - rewrite (bind_sleep _ _ _ _ Hw), bind_get.
    destruct (running mgr); cbn [negb].
    + destruct (connected_subscribers mgr !! (pick mod length (connected_subscribers mgr))%nat)
        as [target|] eqn:Ht.
      * right. assert (Hin : In target (connected_subscribers mgr)).
        { apply list_elem_of_In. eapply list_elem_of_lookup_2. exact Ht. }
        destruct (connected_subscribers_connected mgr target Hin) as (s & Hs & Hc).
        unfold on_subscriber. rewrite Hs.
        destruct (simulate_disconnect_spec duration s (tr ++ [Sleep wait]))
          as [(Hc' & _) | (_ & s' & tr' & E & Hc' & Hthreads & Hne)]; [congruence|].
        rewrite E. exists target, s, s', ([Sleep wait] ++ tr').
        rewrite <- !app_assoc. auto 10.
      * left. split; [reflexivity|]. unfold ret, trace_of. simpl.
        rewrite requests_app. simpl. apply app_nil_r.
    + left. split; [reflexivity|]. unfold ret, trace_of. simpl.
      rewrite requests_app. simpl. apply app_nil_r.
  - rewrite (bind_sleep_refused _ _ _ _ Hw). left. auto.
Qed.

Lemma simulate_cycle_keeps wait pick duration :
  keeps pool_ok (simulate_cycle env wait pick duration).
Proof.
  intros mgr tr Hok.
  destruct (simulate_cycle_cases wait pick duration mgr tr)
    as [(-> & _) | (target & s & s' & tr' & _ & Hs & Hc & -> & Hc' & Ht & _)];
    [exact Hok|].
  unfold pool_ok, self_of in *. simpl. apply Forall_insert; [exact Hok|].
  right. split; [exact Hc'|]. rewrite Ht.
  rewrite Forall_lookup in Hok. destruct (Hok target s Hs) as [-> | (Hd & _)];
    [reflexivity | congruence].
Qed.

Lemma stats_from_keeps n : forall i total_messages disconnected_count,
  keeps pool_ok (stats_from i n total_messages disconnected_count).
Proof.
  induction n as [|n IH]; intros i total_messages disconnected_count; simpl.
  - apply keeps_ret.
  - apply keeps_bind.
    + apply on_subscriber_keeps. apply keeps_pure. reflexivity.
    + intros st. apply keeps_bind; [apply keeps_print | intros _; apply IH].
Qed.

Lemma print_stats_keeps : keeps pool_ok print_stats.
Proof.
  unfold print_stats. apply keeps_bind; [apply keeps_print|]. intros _.
  apply keeps_bind; [apply keeps_get|]. intros self.
  apply keeps_bind; [apply stats_from_keeps|]. intros [total_messages disconnected_count].
  apply keeps_bind; [apply keeps_print|]. intros _.
  destruct (0 <? disconnected_count); [apply keeps_print|].
  destruct (0 <? total_messages); [apply keeps_print | apply keeps_ret].
Qed.

(** Every event but a resumed connection keeps the pool in order; a
    resumed connection does when it reaches a subscriber that has no
    sleeping reconnect thread. *)
Lemma run_event_keeps ev (mgr : MultiSubscriberManager) tr :
  match ev with
  | Resumed i _ =>
      forall s, subscribers mgr !! i = Some s -> reconnect_threads s = []
  | _ => True
  end ->
  pool_ok mgr -> pool_ok (self_of (run_event env ev mgr tr)).
Proof.
  destruct ev as [wait pick duration|i k|i a|i error|i session_present|]; simpl;
    intros Hside Hok.
  - by apply simulate_cycle_keeps.
  - apply on_subscriber_keeps; [|exact Hok]. intros s tr0.
    apply reconnect_after_delay_keeps.
  - apply on_subscriber_keeps; [|exact Hok]. intros s tr0. apply deliver_keeps.
  - apply on_subscriber_keeps; [|exact Hok]. intros s tr0. apply interrupted_keeps.
  - apply on_subscriber_keeps_at; [|exact Hok]. intros s Hs.
    apply resumed_keeps. by apply Hside.
  - revert Hok. apply keeps_bind; [apply keeps_sleep | intros _; apply print_stats_keeps].
Qed.

Lemma run_events_cons ev rest (mgr : MultiSubscriberManager) tr :
  run_events env (ev :: rest) mgr tr
  = run_events env rest (self_of (run_events env [ev] mgr tr))
      (trace_of (run_events env [ev] mgr tr)).
Proof.
  simpl. unfold bind, try_except.
  destruct (run_event env ev mgr tr) as [[[[]|e] mgr'] tr']; reflexivity.
Qed.

Lemma run_events_single_state ev (mgr : MultiSubscriberManager) tr :
  self_of (run_events env [ev] mgr tr) = self_of (run_event env ev mgr tr).
Proof.
  simpl. unfold bind, try_except.
  destruct (run_event env ev mgr tr) as [[[[]|e] mgr'] tr']; reflexivity.
Qed.

Lemma run_events_keeps evs : forall (mgr : MultiSubscriberManager) tr,
  resumes_outside_outages env evs mgr tr = true ->
  pool_ok mgr -> pool_ok (self_of (run_events env evs mgr tr)).
Proof.
  induction evs as [|ev rest IH]; intros mgr tr Hres Hok; [exact Hok|].
  cbn [resumes_outside_outages] in Hres.
  apply andb_true_iff in Hres as [Hside Hrest]. rewrite run_events_cons.
  apply IH; [exact Hrest|]. rewrite run_events_single_state.
  apply run_event_keeps; [|exact Hok].
  destruct ev as [wait pick duration|i k|i a|i error|i session_present|];
    try exact I.
  intros s Hs. rewrite Hs in Hside. by apply bool_decide_eq_true in Hside.
Qed.

(** What of C7 holds.  A turn of the disconnect simulator, from any state
    of the pool:
    - when no subscriber is connected it leaves the pool as it is and asks
      the MQTT library for nothing;
    - a subscriber that is not connected, so one that is in a simulated
      outage in particular, is left exactly as it was: it gets no second
      reconnect thread;
    - the only subscriber it can change is one it found connected, which
      it leaves disconnected with one more sleeping reconnect thread;
    - if every subscriber had at most one sleeping reconnect thread and was
      disconnected while it had one, this is still so after the turn. *)
Theorem simulator_turn_spares_disconnected wait pick duration
    (mgr : MultiSubscriberManager) tr :
  let out := simulate_cycle env wait pick duration mgr tr in
  (connected_subscribers mgr = [] ->
     self_of out = mgr /\ requests (trace_of out) = requests tr) /\
  (forall i s, subscribers mgr !! i = Some s -> is_connected s = false ->
     subscribers (self_of out) !! i = Some s) /\
  (forall i s s', subscribers mgr !! i = Some s ->
     subscribers (self_of out) !! i = Some s' -> s' <> s ->
     In i (connected_subscribers mgr) /\ is_connected s = true /\
     is_connected s' = false /\
     reconnect_threads s' = reconnect_threads s ++ [duration]) /\
  (pool_ok mgr -> pool_ok (self_of out)).
Proof.
  intros out.
  destruct (simulate_cycle_cases wait pick duration mgr tr)
    as [(Hsame & Hreq) | (target & s & s' & tr' & Hin & Hs & Hc & E & Hc' & Ht & Hne)];
    fold out in Hsame, Hreq || fold out in E.
  - rewrite Hsame. split_and!; [auto | auto | | auto].
    intros i s s' Hs Hs' Hne. congruence.
  - split_and!; [| | | subst out; apply simulate_cycle_keeps];
      rewrite E; unfold self_of; simpl.
    + intros Hnil. rewrite Hnil in Hin. destruct Hin.
    + intros i s1 Hs1 Hc1. rewrite list_lookup_insert_ne; [exact Hs1|].
      intros ->. congruence.
    + intros i s1 s1' Hs1 Hs1' Hne1. destruct (decide (i = target)) as [->|Hi].
      * rewrite list_lookup_insert_eq in Hs1' by (eapply lookup_lt_Some; eauto).
        injection Hs1' as <-. rewrite Hs in Hs1. injection Hs1 as <-. auto.
      * rewrite list_lookup_insert_ne in Hs1' by congruence. congruence.
Qed.

(** A freshly built pool is in order, and so is the pool [start_all]
    leaves: [connect] starts no thread. *)
Lemma new_manager_ok config n : pool_ok (new_manager config n).
Proof.
  unfold pool_ok, new_manager. simpl. apply Forall_forall. intros s Hin.
  apply list_elem_of_In, in_map_iff in Hin as (i & <- & _). left. reflexivity.
Qed.

Lemma connect_keeps_threadless :
  keeps (fun s => reconnect_threads s = []) (connect env).
Proof.
  intros s tr Hnil.
  destruct (connect_spec env s tr) as (b & s' & tr' & -> & _ & _ & Ht & _).
  unfold self_of. simpl. congruence.
Qed.

Lemma start_from_keeps_threadless n : forall i success_count,
  keeps (fun mgr => Forall (fun s => reconnect_threads s = []) (subscribers mgr))
        (start_from env i n success_count).
Proof.
  induction n as [|n IH]; intros i success_count; simpl.
  - apply keeps_ret.
  - apply keeps_bind.
    + intros mgr tr Hall. unfold on_subscriber.
      destruct (subscribers mgr !! i) as [s|] eqn:Hs; [|exact Hall].
      pose proof (connect_keeps_threadless s tr) as Hk.
      destruct (connect env s tr) as [[r s'] tr']. unfold self_of in *. simpl in *.
      apply Forall_insert; [exact Hall|]. apply Hk.
      rewrite Forall_lookup in Hall. eapply Hall. exact Hs.
    + intros [].
      * apply keeps_bind; [apply keeps_sleep | intros _; apply IH].
      * apply IH.
Qed.

Lemma start_all_keeps_threadless :
  keeps (fun mgr => Forall (fun s => reconnect_threads s = []) (subscribers mgr))
        (start_all env).
Proof.
  unfold start_all. apply keeps_bind; [apply keeps_get|]. intros self.
  apply keeps_bind; [apply keeps_print|]. intros _.
  apply keeps_bind; [apply start_from_keeps_threadless|]. intros success_count.
  apply keeps_bind; [apply keeps_print|]. intros _.
  apply keeps_bind; [|intros _; apply keeps_ret].
  destruct (0 <? success_count); [apply keeps_print | apply keeps_ret].
Qed.

Lemma started_pool_ok config n tr :
  pool_ok (self_of (start_all env (new_manager config n) tr)).
Proof.
  assert (Hall : Forall (fun s => reconnect_threads s = [])
                   (subscribers (self_of (start_all env (new_manager config n) tr)))).
  { apply start_all_keeps_threadless. unfold new_manager. simpl.
    apply Forall_forall. intros s Hin.
    apply list_elem_of_In, in_map_iff in Hin as (i & <- & _). reflexivity. }
  unfold pool_ok. eapply Forall_impl; [exact Hall|]. intros s Hs. left. exact Hs.
Qed.

(** At most one simulated outage per subscriber throughout a run of
    [main]: after [start_all] and any events among which no
    connection-resumed callback reaches a subscriber in an outage, every
    subscriber has at most one sleeping reconnect thread. *)
Lemma one_outage_per_subscriber_throughout config n tr evs :
  let started := start_all env (new_manager config n) tr in
  resumes_outside_outages env evs (self_of started) (trace_of started) = true ->
  forall s, In s (subscribers (self_of (run_events env evs (self_of started) (trace_of started)))) ->
            (length (reconnect_threads s) <= 1)%nat.
Proof.
  intros started Hres s Hin.
  assert (Hok : pool_ok (self_of (run_events env evs (self_of started) (trace_of started)))).
  { apply run_events_keeps; [exact Hres | apply started_pool_ok]. }
  unfold pool_ok in Hok. rewrite Forall_forall in Hok.
  destruct (Hok s) as [-> | (_ & ->)]; [by apply list_elem_of_In | |]; simpl; lia.
Qed.

(** A reconnect thread that wakes up after another one has already
    reconnected finds [should_disconnect] false and does nothing but end:
    one reconnect per simulated outage. *)
Lemma late_thread_does_nothing k duration (s : IoTSharedSubscriber) tr :
  reconnect_threads s !! k = Some duration ->
  should_disconnect s = false ->
  self_of (reconnect_after_delay env k s tr)
  = set_reconnect_threads (delete k (reconnect_threads s)) s /\
  requests (trace_of (reconnect_after_delay env k s tr)) = requests tr.
Proof.
  intros Hk Hflag. unfold reconnect_after_delay. rewrite bind_get, Hk, bind_modify.
  unfold try_except.
  destruct (sleepable (inject_Z duration)) eqn:Hd.
  - rewrite (bind_sleep _ _ _ _ Hd), bind_get.
    cbn [should_disconnect set_reconnect_threads]. rewrite Hflag.
    unfold when, ret, self_of, trace_of. simpl.
    rewrite requests_app. simpl. split; [reflexivity | apply app_nil_r].
  - rewrite (bind_sleep_refused _ _ _ _ Hd). unfold ret, self_of, trace_of.
    simpl. auto.
Qed.

(** C7 at its failing input.  The simulator and [simulate_disconnect]
    look at [is_connected] only, never at [should_disconnect].  When the
    transport reports the connection of a subscriber resumed while the
    reconnect thread of its simulated outage still sleeps, the subscriber
    counts as connected again; the next turn of the simulator that picks
    it starts a second outage on it: a second reconnect thread beside the
    first, which has not woken up. *)
Theorem resumed_subscriber_gets_second_outage session_present wait pick
    duration first i (s : IoTSharedSubscriber) (mgr : MultiSubscriberManager) tr :
  subscribers mgr !! i = Some s ->
  is_connected s = false ->
  reconnect_threads s = [first] ->
  running mgr = true ->
  sleepable wait = true ->
  let resumed := run_event env (Resumed i session_present) mgr tr in
  let connected := connected_subscribers (self_of resumed) in
  connected !! (pick mod length connected)%nat = Some i ->
  let out := run_event env (Cycle wait pick duration)
               (self_of resumed) (trace_of resumed) in
  result_of out = Ret tt /\
  exists s',
    subscribers (self_of out) !! i = Some s' /\
    reconnect_threads s' = [first; duration] /\
    is_connected s' = false /\
    should_disconnect s' = true.
Proof.
  intros Hs Hc Ht Hrun Hwait.
  set (s1 := set_is_connected true s).
  set (mgr1 := set_subscribers (<[i := s1]> (subscribers mgr)) mgr).
  assert (Eres : exists tr1,
    run_event env (Resumed i session_present) mgr tr = (Ret tt, mgr1, tr1)).
  { simpl. unfold on_subscriber. rewrite Hs.
    unfold _on_connection_resumed, bind, modify, get, print, emit, when, ret. simpl.
    destruct session_present; eexists; reflexivity. }
  destruct Eres as (tr1 & Eres). intros resumed. subst resumed. rewrite Eres.
  change (self_of (Ret tt, mgr1, tr1)) with mgr1.
  change (trace_of (Ret tt, mgr1, tr1)) with tr1.
  intros connected Hpick out.
  assert (Hs1 : subscribers mgr1 !! i = Some s1).
  { unfold mgr1. cbn [subscribers set_subscribers].
    apply list_lookup_insert_eq. by eapply lookup_lt_Some. }
  destruct (simulate_disconnect_spec duration s1 (tr1 ++ [Sleep wait]))
    as [(Hdown & _) | (_ & s' & tr' & E & Hc' & Ht' & _)]; [discriminate Hdown|].
  assert (Hflag : should_disconnect s' = true).
  { revert E. unfold simulate_disconnect. rewrite bind_get.
    change (is_connected s1) with true. cbn [negb].
    rewrite bind_print, !bind_modify, bind_get.
    set (s2 := set_disconnect_duration duration (set_should_disconnect true s1)).
    change (is_connected s2) with true. unfold when.
    destruct (disconnect_attempt_spec s2 ((tr1 ++ [Sleep wait]) ++ [Console (LSimulateStart duration)]))
      as (tr2 & E2).
    unfold bind at 1. rewrite E2. unfold modify. intros [= <- _]. reflexivity. }
  assert (Eout : out = (Ret tt, set_subscribers (<[i := s']> (subscribers mgr1)) mgr1,
                        (tr1 ++ [Sleep wait]) ++ tr')).
  { subst out. cbn [run_event]. unfold simulate_cycle.
    rewrite (bind_sleep _ _ _ _ Hwait), bind_get.
    change (running mgr1) with (running mgr). rewrite Hrun. cbn [negb].
    fold connected. rewrite Hpick. unfold on_subscriber. rewrite Hs1, E.
    reflexivity. }
  rewrite Eout. unfold result_of, self_of. cbn [fst snd subscribers set_subscribers].
  split; [reflexivity|]. exists s'. split_and!.
  - apply list_lookup_insert_eq. by eapply lookup_lt_Some.
  - rewrite Ht'. cbn [reconnect_threads s1 set_is_connected]. by rewrite Ht.
  - exact Hc'.
  - exact Hflag.
Qed.

End Simulator.

(** Why the run-long statement keeps connection-resumed callbacks away from
    subscribers in an outage: the simulator only looks at [is_connected],
    so a subscriber whose connection is reported back while its reconnect
    thread still sleeps can be picked again.  Of its two threads only the
    first to wake up reconnects. *)
Example resumed_subscriber_can_be_picked_again :
  let out := Subscriber.run_events demo_env
               [Subscriber.Cycle 5 0 8; Subscriber.Resumed 0 false;
                Subscriber.Cycle 5 0 9]
               demo_pool [] in
  let woken := Subscriber.run_events demo_env
                 [Subscriber.Wake 0 0; Subscriber.Wake 0 0]
                 (self_of out) [] in
  Subscriber.reconnect_threads <$> Subscriber.subscribers (self_of out) !! 0%nat
  = Some [8; 9] /\
  builds (trace_of woken) = ["message-queuing-test-subscriber-01"].
Proof. vm_compute. split; reflexivity. Qed.

(* ===================================================================== *)
(** ** Configuration *)
(* ===================================================================== *)

Section Credentials.
Import Config.
Variable env : Env.

(** [validate] returns whether the three files exist, changes nothing and
    asks the MQTT library for nothing. *)
Lemma validate_spec {Self} config (s : Self) tr :
  exists tr',
    validate env config s tr = (Ret (credentials_present env config), s, tr ++ tr') /\
    requests tr' = [].
Proof.
  unfold validate, validate_files, credentials_present, bind, print, emit, ret.
  destruct (path_exists env (root_ca_path config)); simpl;
    [destruct (path_exists env (cert_path config)); simpl;
       [destruct (path_exists env (private_key_path config)); simpl|]|];
    try (exists []; rewrite app_nil_r; split; reflexivity);
    eexists; split; reflexivity.
Qed.

(** C8. [validate] returns [True] exactly when the root CA, the
    certificate and the private key all exist, and [False] otherwise;
    when it returns [False], [main] of the publisher and [main] of the
    subscribers return without a single request to the MQTT library. *)
Theorem missing_credentials_stop_before_connecting config :
  (forall (s : unit) tr,
     exists b,
       result_of (validate env config s tr) = Ret b /\
       requests (trace_of (validate env config s tr)) = requests tr /\
       (b = true <->
        path_exists env (root_ca_path config) = true /\
        path_exists env (cert_path config) = true /\
        path_exists env (private_key_path config) = true)) /\
  (credentials_present env config = false ->
     (forall schedule late tr,
        let out := Publisher.main env config schedule late tt tr in
        result_of out = Ret tt /\ requests (trace_of out) = requests tr) /\
     (forall schedule tr,
        let out := Subscriber.main env config schedule tt tr in
        result_of out = Ret tt /\ requests (trace_of out) = requests tr)).
Proof.
  split.
  - intros s tr. destruct (validate_spec config s tr) as (tr' & E & Hreq).
    exists (credentials_present env config). rewrite E. split; [reflexivity|].
    split; [unfold trace_of; simpl; by rewrite requests_app, Hreq, app_nil_r|].
    unfold credentials_present. rewrite !andb_true_iff. tauto.
  - intros Hmissing. split.
    + intros schedule late tr out. subst out. unfold Publisher.main, bind.
      destruct (validate_spec config tt tr) as (tr' & E & Hreq).
      rewrite E, Hmissing. simpl. unfold result_of, trace_of, print, emit. simpl.
      split; [reflexivity|]. rewrite !requests_app, Hreq. simpl.
      by rewrite !app_nil_r.
    + intros schedule tr out. subst out. unfold Subscriber.main, bind.
      destruct (validate_spec config tt tr) as (tr' & E & Hreq).
      rewrite E, Hmissing. simpl. unfold result_of, trace_of, print, emit. simpl.
      split; [reflexivity|]. rewrite !requests_app, Hreq. simpl.
      by rewrite !app_nil_r.
Qed.
End Credentials.

(* ===================================================================== *)
(** ** The statements at concrete inputs *)
(* ===================================================================== *)

Lemma redelivery_counts_twice_stores_once_witness :
  let out1 := Subscriber.deliver demo_env (demo_arrival "first") demo_subscriber [] in
  let out2 := Subscriber.deliver demo_env (demo_arrival "first again")
                (self_of out1) (trace_of out1) in
  Subscriber.message_count (self_of out2) = 2 /\
  size (Subscriber.processed_messages (self_of out2))
  = size (Subscriber.processed_messages (self_of out1)).
Proof.
  pose proof (redelivery_counts_twice_stores_once demo_env
                (demo_arrival "first") (demo_arrival "first again")
                [("message_id", JStr "id-1"); ("sequence", JInt 1)]
                [("message_id", JStr "id-1"); ("sequence", JInt 1);
                 ("sender", JStr "retry")]
                demo_subscriber [] eq_refl eq_refl eq_refl)
    as (_ & _ & _ & Hcount & Hsize & _).
  split; [exact Hcount | exact Hsize].
Defined.

Lemma undecodable_payload_changes_nothing_witness :
  self_of (Subscriber.deliver demo_env (demo_arrival "junk") demo_subscriber [])
  = demo_subscriber.
Proof.
  apply (undecodable_payload_changes_nothing demo_env (demo_arrival "junk")
           demo_subscriber [] eq_refl).
Defined.

Lemma anonymous_messages_share_one_key_witness :
  let out := Subscriber.deliver_all demo_env
               [demo_arrival "anonymous"; demo_arrival "anonymous"]
               demo_subscriber [] in
  Subscriber.message_count (self_of out) = 2 /\
  (size (Subscriber.processed_messages (self_of out)) <= 1)%nat.
Proof.
  assert (Hall : Forall (fun a => lacks_message_id demo_env a = true)
                   [demo_arrival "anonymous"; demo_arrival "anonymous"]).
  { repeat constructor. }
  pose proof (anonymous_messages_share_one_key demo_env _ demo_subscriber [] Hall)
    as (_ & Hcount & _ & Hsize).
  split; [exact Hcount | exact Hsize].
Defined.

Lemma disconnect_twice_is_safe_witness :
  (let out := Subscriber.disconnect stale_env demo_subscriber [] in
   self_of out = demo_subscriber /\ requests (trace_of out) = requests []) /\
  (let out := Subscriber.disconnect stale_env demo_connected_subscriber [] in
   Subscriber.is_connected (self_of out) = false) /\
  (let out := Publisher.disconnect stale_env demo_publisher [] in
   Publisher.is_connected (self_of out) = false).
Proof.
  destruct (disconnect_twice_is_safe stale_env) as [Hsub Hpub].
  split_and!.
  - destruct (Hsub demo_subscriber []) as (_ & _ & _ & Hdown & _).
    apply Hdown. reflexivity.
  - destruct (Hsub demo_connected_subscriber []) as (_ & _ & _ & _ & Hfail).
    apply (Hfail "AWS_ERROR_MQTT_NOT_CONNECTED"); [reflexivity | by eexists | reflexivity].
  - destruct (Hpub demo_publisher []) as (_ & _ & _ & _ & Hfail).
    apply (Hfail "AWS_ERROR_MQTT_NOT_CONNECTED"); [reflexivity | by eexists | reflexivity].
Defined.


Lemma two_attempts_one_sequence_witness :
  exists id1 stamp1 id2 stamp2,
    published (trace_of (Publisher.start_continuous_publishing demo_env 1 2
                           (fun _ => idle) demo_publisher []))
    = published []
        ++ [json_dumps demo_env
              (Publisher.message_of id1 stamp1 (Publisher.client_id demo_publisher)
                 (Publisher.publish_count demo_publisher + 1));
            json_dumps demo_env
              (Publisher.message_of id2 stamp2 (Publisher.client_id demo_publisher)
                 (Publisher.publish_count demo_publisher + 1))].
Proof.
  apply (two_attempts_one_sequence demo_env 1 demo_publisher []);
    [reflexivity | reflexivity | by eexists].
Defined.

Lemma simulator_turn_spares_disconnected_witness :
  let out := Subscriber.simulate_cycle demo_env 5 0 9 demo_pool_in_outage [] in
  pool_ok (self_of out) /\
  Subscriber.subscribers (self_of out) !! 0%nat
  = Subscriber.subscribers demo_pool_in_outage !! 0%nat.
Proof.
  destruct (simulator_turn_spares_disconnected demo_env 5 0 9 demo_pool_in_outage [])
    as (_ & Hdown & _ & Hkeeps).
  split.
  - apply Hkeeps. apply (bool_decide_unpack _). vm_compute. exact I.
  - assert (Hfirst : exists s,
      Subscriber.subscribers demo_pool_in_outage !! 0%nat = Some s /\
      Subscriber.is_connected s = false)
      by (vm_compute; eexists; split; reflexivity).
    destruct Hfirst as (s & Hs & Hc). rewrite Hs. exact (Hdown 0%nat s Hs Hc).
Defined.

Lemma resumed_subscriber_gets_second_outage_witness :
  let resumed := Subscriber.run_event slow_env (Subscriber.Resumed 0 true)
                   slow_pool_in_outage [] in
  let out := Subscriber.run_event slow_env (Subscriber.Cycle 5 0 9)
               (self_of resumed) (trace_of resumed) in
  exists s',
    Subscriber.subscribers (self_of out) !! 0%nat = Some s' /\
    Subscriber.reconnect_threads s' = [8; 9].
Proof.
  edestruct (resumed_subscriber_gets_second_outage slow_env true 5 0 9 8 0)
    with (mgr := slow_pool_in_outage) (tr := @nil effect)
    as (_ & s' & Hs' & Hthreads & _);
    [vm_compute; reflexivity | reflexivity | reflexivity | reflexivity
    | reflexivity | reflexivity |].
  exists s'. split; [exact Hs' | exact Hthreads].
Defined.

Lemma missing_credentials_stop_before_connecting_witness :
  requests (trace_of (Publisher.main keyless_env demo_config (fun _ => idle) [] tt []))
  = requests [] /\
  requests (trace_of (Subscriber.main keyless_env demo_config [] tt []))
  = requests [].
Proof.
  destruct (missing_credentials_stop_before_connecting keyless_env demo_config)
    as [_ Hstop].
  destruct (Hstop eq_refl) as [Hpub Hsub].
  split; [apply (Hpub (fun _ => idle) [] []) | apply (Hsub [] [])].
Defined.

(* ===================================================================== *)
(** ** What the methods of a subscriber leave alone *)
(* ===================================================================== *)

Lemma keeps_modify {Self} (P : Self -> Prop) (f : Self -> Self) :
  (forall s, P s -> P (f s)) -> keeps P (modify f).
Proof. intros Hf s tr HP. apply Hf. exact HP. Qed.

Lemma keeps_request {Self} (P : Self -> Prop) env c : keeps P (@request Self env c).
Proof.
  intros s tr HP. unfold request. destruct (transport env (length tr) c); exact HP.
Qed.

Lemma keeps_raise {Self A} (P : Self -> Prop) e : keeps P (@raise Self A e).
Proof. apply keeps_pure. reflexivity. Qed.

Lemma keeps_position {Self} (P : Self -> Prop) : keeps P (@position Self).
Proof. apply keeps_pure. reflexivity. Qed.

Lemma keeps_try_except {Self A} (P : Self -> Prop) (m : M Self A) h :
  keeps P m -> (forall e, keeps P (h e)) -> keeps P (try_except m h).
Proof.
  intros Hm Hh s tr HP. unfold try_except. specialize (Hm s tr HP).
  destruct (m s tr) as [[[a|e] s'] tr']; unfold self_of in *; simpl in *.
  - exact Hm.
  - apply Hh. exact Hm.
Qed.

Lemma keeps_when {Self} (P : Self -> Prop) b (m : M Self unit) :
  keeps P m -> keeps P (when b m).
Proof. intros Hm. destruct b; [exact Hm | apply keeps_ret]. Qed.

(** Breaks a method body into its statements. *)
Ltac keep_on :=
  repeat first
    [ apply keeps_ret | apply keeps_get | apply keeps_print | apply keeps_sleep
    | apply keeps_request | apply keeps_raise | apply keeps_position
    | apply keeps_when
    | apply keeps_bind; [|intros ?]
    | apply keeps_try_except; [|intros ?] ].

Section Frames.
Import Subscriber.
Variable env : Env.
Variable P : IoTSharedSubscriber -> Prop.
Hypothesis blind : connection_blind P.

Lemma blind_connection c : keeps P (modify (set_mqtt_connection c)).
Proof. apply keeps_modify. intros s Hs. by apply blind. Qed.

Lemma blind_connected b : keeps P (modify (set_is_connected b)).
Proof. apply keeps_modify. intros s Hs. by apply blind. Qed.

Lemma blind_flag b : keeps P (modify (set_should_disconnect b)).
Proof. apply keeps_modify. intros s Hs. by apply blind. Qed.

Lemma blind_duration d : keeps P (modify (set_disconnect_duration d)).
Proof. apply keeps_modify. intros s Hs. by apply blind. Qed.

Ltac keep_blind :=
  repeat first
    [ apply blind_connection | apply blind_connected | apply blind_flag
    | apply blind_duration | progress keep_on ].

Lemma connect_blind : keeps P (connect env).
Proof. unfold connect. keep_blind. Qed.

Lemma request_disconnect_blind : keeps P (request_disconnect env).
Proof.
  unfold request_disconnect. apply keeps_bind; [apply keeps_get|]. intros self.
  destruct (mqtt_connection self); keep_blind.
Qed.

Lemma disconnect_failed_blind e : keeps P (disconnect_failed e).
Proof.
  unfold disconnect_failed. destruct (contains "NOT_CONNECTED" (exn_str e)); keep_blind.
Qed.

Lemma disconnect_blind : keeps P (disconnect env).
Proof.
  unfold disconnect. apply keeps_bind; [apply keeps_get|]. intros self.
  destruct (bool_decide (is_Some (mqtt_connection self)) && is_connected self).
  - apply keeps_try_except; [|apply disconnect_failed_blind].
    apply keeps_bind; [apply request_disconnect_blind|]. intros _. keep_blind.
  - destruct (negb (is_connected self)); keep_blind.
Qed.

Lemma simulate_disconnect_blind duration : keeps P (simulate_disconnect env duration).
Proof.
  unfold simulate_disconnect. apply keeps_bind; [apply keeps_get|]. intros self.
  destruct (negb (is_connected self)); [apply keeps_ret|].
  apply keeps_bind; [apply keeps_print|]. intros _.
  apply keeps_bind; [apply blind_flag|]. intros _.
  apply keeps_bind; [apply blind_duration|]. intros _.
  apply keeps_bind; [apply keeps_get|]. intros self'.
  apply keeps_bind.
  - apply keeps_when. apply keeps_try_except; [|apply disconnect_failed_blind].
    apply keeps_bind; [apply request_disconnect_blind|]. intros _. keep_blind.
  - intros _. apply keeps_modify. intros s Hs. by apply blind.
Qed.

Lemma reconnect_after_delay_blind k : keeps P (reconnect_after_delay env k).
Proof.
  unfold reconnect_after_delay. apply keeps_bind; [apply keeps_get|]. intros self.
  destruct (reconnect_threads self !! k) as [duration|]; [|apply keeps_ret].
  apply keeps_bind; [apply keeps_modify; intros s Hs; by apply blind|]. intros _.
  apply keeps_try_except; [|intros e; apply keeps_ret].
  apply keeps_bind; [apply keeps_sleep|]. intros _.
  apply keeps_bind; [apply keeps_get|]. intros self'.
  apply keeps_when.
  apply keeps_bind; [apply keeps_print|]. intros _.
  apply keeps_bind; [apply blind_flag|]. intros _.
  apply keeps_bind; [apply connect_blind|]. intros _. apply keeps_ret.
Qed.

Lemma interrupted_blind error : keeps P (_on_connection_interrupted error).
Proof. unfold _on_connection_interrupted. keep_blind. Qed.

Lemma resumed_blind session_present : keeps P (_on_connection_resumed session_present).
Proof. unfold _on_connection_resumed. keep_blind. Qed.

Lemma get_stats_blind : keeps P get_stats.
Proof. unfold get_stats. keep_blind. Qed.

Hypothesis proof : arrival_proof P.

Lemma deliver_proof a : keeps P (deliver env a).
Proof.
  intros s tr HP.
  destruct (deliver_cases env a s tr)
    as (s' & tr' & -> & [-> | [-> | (k & entry & ->)]]); unfold self_of; simpl.
  - exact HP.
  - by apply proof.
  - by apply proof.
Qed.
End Frames.


(* ===================================================================== *)
(** ** What a run leaves alone in the pool *)
(* ===================================================================== *)

Section PoolFrames.
Import Subscriber.
Variable env : Env.
Variable R : IoTSharedSubscriber -> IoTSharedSubscriber -> Prop.
Variable subs0 : list IoTSharedSubscriber.

Local Abbreviation related := (pool_related R subs0).

Lemma on_subscriber_relates {A} i (m : M IoTSharedSubscriber A) :
  (forall s0, keeps (R s0) m) -> keeps related (on_subscriber i m).
Proof.
  intros Hm mgr tr Hrel. unfold on_subscriber.
  destruct (subscribers mgr !! i) as [s|] eqn:Hs; [|exact Hrel].
  destruct (Forall2_lookup_r _ _ _ _ _ Hrel Hs) as (s0 & Hs0 & HR).
  specialize (Hm s0 s tr HR). destruct (m s tr) as [[r s'] tr'].
  unfold pool_related, self_of in *. simpl in *.
  rewrite <- (list_insert_id subs0 i s0 Hs0). by apply Forall2_insert.
Qed.

Hypothesis blind : forall s0, connection_blind (R s0).

Lemma start_from_relates n : forall i success_count,
  keeps related (start_from env i n success_count).
Proof.
  induction n as [|n IH]; intros i success_count; simpl; [apply keeps_ret|].
  apply keeps_bind.
  - apply on_subscriber_relates. intros s0. by apply connect_blind.
  - intros []; [apply keeps_bind; [apply keeps_sleep | intros _; apply IH] | apply IH].
Qed.

Lemma start_all_relates : keeps related (start_all env).
Proof.
  unfold start_all. apply keeps_bind; [apply keeps_get|]. intros self.
  apply keeps_bind; [apply keeps_print|]. intros _.
  apply keeps_bind; [apply start_from_relates|]. intros success_count.
  keep_on.
Qed.

Lemma stop_from_relates n : forall i, keeps related (stop_from env i n).
Proof.
  induction n as [|n IH]; intros i; simpl; [apply keeps_ret|].
  apply keeps_bind; [|intros _; apply IH].
  apply on_subscriber_relates. intros s0. by apply disconnect_blind.
Qed.

Lemma stop_all_relates : keeps related (stop_all env).
Proof.
  unfold stop_all. apply keeps_bind; [apply keeps_modify; auto|]. intros _.
  apply keeps_bind; [apply keeps_print|]. intros _.
  apply keeps_bind; [apply keeps_get|]. intros self. apply stop_from_relates.
Qed.

Lemma simulate_cycle_relates wait pick duration :
  keeps related (simulate_cycle env wait pick duration).
Proof.
  unfold simulate_cycle. apply keeps_bind; [apply keeps_sleep|]. intros _.
  apply keeps_bind; [apply keeps_get|]. intros self.
  destruct (negb (running self)); [apply keeps_ret|].
  destruct (connected_subscribers self !! _) as [target|]; [|apply keeps_ret].
  apply on_subscriber_relates. intros s0. by apply simulate_disconnect_blind.
Qed.

Lemma stats_from_relates n : forall i total_messages disconnected_count,
  keeps related (stats_from i n total_messages disconnected_count).
Proof.
  induction n as [|n IH]; intros i total_messages disconnected_count; simpl;
    [apply keeps_ret|].
  apply keeps_bind.
  - apply on_subscriber_relates. intros s0. by apply get_stats_blind.
  - intros st. apply keeps_bind; [apply keeps_print | intros _; apply IH].
Qed.

Lemma print_stats_relates : keeps related print_stats.
Proof.
  unfold print_stats. apply keeps_bind; [apply keeps_print|]. intros _.
  apply keeps_bind; [apply keeps_get|]. intros self.
  apply keeps_bind; [apply stats_from_relates|]. intros [total_messages disconnected_count].
  apply keeps_bind; [apply keeps_print|]. intros _.
  destruct (0 <? disconnected_count); [apply keeps_print|].
  destruct (0 <? total_messages); [apply keeps_print | apply keeps_ret].
Qed.

(** An event keeps the relation; an arrival needs it to survive arrivals. *)
Lemma run_event_relates ev :
  (is_arrival ev = true -> forall s0, arrival_proof (R s0)) ->
  keeps related (run_event env ev).
Proof.
  intros Harrival.
  destruct ev as [wait pick duration|i k|i a|i error|i session_present|]; simpl.
  - apply simulate_cycle_relates.
  - apply on_subscriber_relates. intros s0. by apply reconnect_after_delay_blind.
  - apply on_subscriber_relates. intros s0. apply deliver_proof. by apply Harrival.
  - apply on_subscriber_relates. intros s0. by apply interrupted_blind.
  - apply on_subscriber_relates. intros s0. by apply resumed_blind.
  - apply keeps_bind; [apply keeps_sleep | intros _; apply print_stats_relates].
Qed.

Lemma run_events_relates evs :
  (forall ev, In ev evs -> is_arrival ev = true -> forall s0, arrival_proof (R s0)) ->
  keeps related (run_events env evs).
Proof.
  induction evs as [|ev rest IH]; intros Harrival; simpl; [apply keeps_ret|].
  apply keeps_bind.
  - apply keeps_try_except; [|intros e; apply keeps_ret].
    apply run_event_relates. apply Harrival. by left.
  - intros _. apply IH. intros ev' Hin. apply Harrival. by right.
Qed.
End PoolFrames.

Section RunInvariants.
Import Subscriber.
Variable env : Env.

Lemma identity_blind s0 : connection_blind (fun s => identity s = identity s0).
Proof. intros s Hs. split_and!; intros; exact Hs. Qed.

Lemma identity_arrival_proof s0 : arrival_proof (fun s => identity s = identity s0).
Proof. intros s Hs. split; intros; exact Hs. Qed.

Lemma tracker_blind s0 : connection_blind (fun s => tracker s = tracker s0).
Proof. intros s Hs. split_and!; intros; exact Hs. Qed.

Lemma grown_blind s0 : connection_blind (grown_from s0).
Proof. intros s Hs. split_and!; intros; exact Hs. Qed.

Lemma grown_arrival_proof s0 : arrival_proof (grown_from s0).
Proof.
  intros s [Hcount Hdom]. unfold grown_from. simpl. split.
  - split; [lia | exact Hdom].
  - intros k entry. split; [lia|]. rewrite dom_insert. set_solver.
Qed.

Lemma tracker_ok_blind : connection_blind tracker_ok.
Proof. intros s Hs. split_and!; intros; exact Hs. Qed.

Lemma tracker_ok_arrival_proof : arrival_proof tracker_ok.
Proof.
  intros s Hs. unfold tracker_ok in *. simpl. split; [lia|].
  intros k entry. rewrite map_size_insert.
  destruct (processed_messages s !! k); simpl; lia.
Qed.

Lemma Forall2_same {A} (Rel : A -> A -> Prop) (l : list A) :
  (forall x, Rel x x) -> Forall2 Rel l l.
Proof. intros Hrefl. induction l; constructor; auto. Qed.

Lemma Forall2_fmap_eq {A B} (f : A -> B) (l k : list A) :
  Forall2 (fun x y => f y = f x) l k -> List.map f k = List.map f l.
Proof. induction 1; simpl; congruence. Qed.

Lemma Forall2_right {A} (Q : A -> Prop) (l k : list A) :
  Forall2 (fun _ y => Q y) l k -> Forall Q k.
Proof. induction 1; constructor; auto. Qed.

Lemma Forall2_left_right {A} (Q : A -> Prop) (l : list A) :
  Forall Q l -> Forall2 (fun _ y => Q y) l l.
Proof. induction 1; constructor; auto. Qed.

(** X1. Whatever happens while [main] runs, the pool keeps its size and
    every subscriber its configuration, its id and its client id: every
    reconnect presents the broker with the client id of the first
    connect. *)
Theorem identities_survive_every_run evs (mgr : MultiSubscriberManager) tr :
  let out := run_events env evs mgr tr in
  length (subscribers (self_of out)) = length (subscribers mgr) /\
  List.map identity (subscribers (self_of out)) = List.map identity (subscribers mgr) /\
  List.map client_id (subscribers (self_of out)) = List.map client_id (subscribers mgr).
Proof.
  intros out.
  assert (Hrel : Forall2 (fun s0 s => identity s = identity s0)
                   (subscribers mgr) (subscribers (self_of out))).
  { apply (run_events_relates env (fun s0 s => identity s = identity s0)).
    - apply identity_blind.
    - intros ev _ _. apply identity_arrival_proof.
    - by apply Forall2_same. }
  split; [symmetry; eapply Forall2_length; exact Hrel|].
  split; [by apply Forall2_fmap_eq|].
  apply Forall2_fmap_eq. eapply Forall2_impl; [exact Hrel|].
  intros s0 s Hid. unfold identity in Hid. congruence.
Qed.

(** X2. Only the arrival callback touches what a subscriber has received:
    through any events none of which is an arrival (turns of the
    simulator, reconnect threads waking up, interrupted and resumed
    connections, statistics), every [message_count] and every
    [processed_messages] stays as it was. *)
Theorem lifecycle_never_touches_the_tracker evs (mgr : MultiSubscriberManager) tr :
  Forall (fun ev => is_arrival ev = false) evs ->
  List.map tracker (subscribers (self_of (run_events env evs mgr tr)))
  = List.map tracker (subscribers mgr).
Proof.
  intros Hnone. apply Forall2_fmap_eq.
  apply (run_events_relates env (fun s0 s => tracker s = tracker s0)).
  - apply tracker_blind.
  - intros ev Hin Harr. rewrite Forall_forall in Hnone.
    apply list_elem_of_In in Hin. rewrite (Hnone ev Hin) in Harr. discriminate.
  - by apply Forall2_same.
Qed.

(** X3. Nothing is ever pruned: through any events, subscriber by
    subscriber, [message_count] does not go down and no key leaves
    [processed_messages]. *)
Theorem trackers_only_grow evs (mgr : MultiSubscriberManager) tr :
  Forall2 (fun s0 s =>
             message_count s0 <= message_count s /\
             dom (processed_messages s0) ⊆ dom (processed_messages s))
          (subscribers mgr)
          (subscribers (self_of (run_events env evs mgr tr))).
Proof.
  apply (run_events_relates env grown_from).
  - apply grown_blind.
  - intros ev _ _. apply grown_arrival_proof.
  - apply Forall2_same. intros s. split; [lia | set_solver].
Qed.

(** X4. The tracker invariant of a subscriber holds in the whole pool
    throughout: from [start_all] on a fresh pool through any events, every
    subscriber has counted at least as many messages as it holds
    records. *)
Theorem tracker_invariant_throughout config n tr evs :
  let started := start_all env (new_manager config n) tr in
  let out := run_events env evs (self_of started) (trace_of started) in
  Forall (fun s => Z.of_nat (size (processed_messages s)) <= message_count s)
         (subscribers (self_of out)).
Proof.
  intros started out.
  apply (Forall2_right tracker_ok (subscribers (new_manager config n))).
  apply (run_events_relates env (fun _ s => tracker_ok s)).
  - intros _. apply tracker_ok_blind.
  - intros ev _ _ _. apply tracker_ok_arrival_proof.
  - apply (start_all_relates env (fun _ s => tracker_ok s)).
    + intros _. apply tracker_ok_blind.
    + apply Forall2_left_right. unfold new_manager. simpl.
      apply Forall_forall. intros s Hin.
      apply list_elem_of_In, in_map_iff in Hin as (j & <- & _).
      unfold tracker_ok. simpl. rewrite map_size_empty. lia.
Qed.
End RunInvariants.

(* ===================================================================== *)
(** ** Connecting *)
(* ===================================================================== *)

Section Connecting.
Variable env : Env.

Lemma length_snoc2 {A} (l : list A) x y : length ((l ++ [x]) ++ [y]) = (length l + 2)%nat.
Proof. rewrite !length_app. simpl. lia. Qed.

Lemma length_snoc4 {A} (l : list A) x y z w :
  length ((((l ++ [x]) ++ [y]) ++ [z]) ++ [w]) = (length l + 4)%nat.
Proof. rewrite !length_app. simpl. lia. Qed.

(** The four ways [connect] of a subscriber can go: the builder fails,
    the broker refuses the connection, it refuses the subscription, or
    all three requests are granted. *)
Lemma subscriber_connect_cases (s : Subscriber.IoTSharedSubscriber) tr :
  let client := Subscriber.client_id s in
  let shared_topic := Config.get_shared_topic (Subscriber.config s) in
  let fresh := Subscriber.set_mqtt_connection (Some (Conn (length tr))) s in
  let out := Subscriber.connect env s tr in
  (acked env (length tr) (Build client) = false /\
   exists e,
     out = (Ret false, Subscriber.set_is_connected false s,
            tr ++ [Transport (Build client); Console (LConnectError e)])) \/
  (acked env (length tr) (Build client) = true /\
   acked env (length tr + 2) (Connect client) = false /\
   exists e,
     out = (Ret false, Subscriber.set_is_connected false fresh,
            tr ++ [Transport (Build client);
                   Console (LConnecting (Config.endpoint (Subscriber.config s)));
                   Transport (Connect client); Console (LConnectError e)])) \/
  (acked env (length tr) (Build client) = true /\
   acked env (length tr + 2) (Connect client) = true /\
   acked env (length tr + 4) (Subscribe client shared_topic) = false /\
   exists session_present e,
     out = (Ret false,
            Subscriber.set_is_connected false (Subscriber.set_is_connected true fresh),
            tr ++ [Transport (Build client);
                   Console (LConnecting (Config.endpoint (Subscriber.config s)));
                   Transport (Connect client);
                   Console (LConnected client session_present);
                   Transport (Subscribe client shared_topic);
                   Console (LConnectError e)])) \/
  (acked env (length tr) (Build client) = true /\
   acked env (length tr + 2) (Connect client) = true /\
   acked env (length tr + 4) (Subscribe client shared_topic) = true /\
   exists session_present granted,
     out = (Ret true, Subscriber.set_is_connected true fresh,
            tr ++ [Transport (Build client);
                   Console (LConnecting (Config.endpoint (Subscriber.config s)));
                   Transport (Connect client);
                   Console (LConnected client session_present);
                   Transport (Subscribe client shared_topic);
                   Console (LSubscribed shared_topic granted)])).
Proof.
  cbv zeta. unfold acked.
  unfold Subscriber.connect, try_except, bind, get, position, request, modify,
    print, emit, ret. simpl.
  destruct (transport env (length tr) (Build (Subscriber.client_id s)))
    as [i1|m1]; simpl.
  - rewrite length_snoc2.
    destruct (transport env (length tr + 2) (Connect (Subscriber.client_id s)))
      as [i2|m2]; simpl.
    + rewrite length_snoc4.
      destruct (transport env (length tr + 4) _) as [i3|m3]; simpl.
      * do 3 right. split_and!; try reflexivity. eexists _, _.
        rewrite <- !app_assoc. reflexivity.
      * do 2 right; left. split_and!; try reflexivity. eexists _, _.
        rewrite <- !app_assoc. reflexivity.
    + right; left. split_and!; try reflexivity. eexists.
      rewrite <- !app_assoc. reflexivity.
  - left. split; [reflexivity|]. eexists. rewrite <- !app_assoc. reflexivity.
Qed.

(** X5. [connect] of a subscriber asks the MQTT library for a connection
    object, then to connect, then to subscribe to the shared topic, and
    stops at the first refusal.  It returns, and leaves in [is_connected],
    whether all three were granted; the connection object is replaced as
    soon as it is built; what the subscriber has received and who it is
    stay as they were. *)
Theorem subscriber_connect_outcome (s : Subscriber.IoTSharedSubscriber) tr :
  let client := Subscriber.client_id s in
  let shared_topic := Config.get_shared_topic (Subscriber.config s) in
  let built := acked env (length tr) (Build client) in
  let connected := built && acked env (length tr + 2) (Connect client) in
  let subscribed :=
    connected && acked env (length tr + 4) (Subscribe client shared_topic) in
  let out := Subscriber.connect env s tr in
  result_of out = Ret subscribed /\
  Subscriber.is_connected (self_of out) = subscribed /\
  Subscriber.mqtt_connection (self_of out)
  = (if built then Some (Conn (length tr)) else Subscriber.mqtt_connection s) /\
  requests (trace_of out)
  = requests tr ++ Build client ::
      (if built
       then Connect client :: (if connected then [Subscribe client shared_topic] else [])
       else []) /\
  identity (self_of out) = identity s /\
  tracker (self_of out) = tracker s.
Proof.
  cbv zeta.
  destruct (subscriber_connect_cases s tr)
    as [(-> & e & ->) | [(-> & -> & e & ->) | [(-> & -> & -> & sp & e & ->)
       | (-> & -> & -> & sp & granted & ->)]]];
    unfold result_of, self_of, trace_of; simpl; rewrite requests_app;
    split_and!; reflexivity.
Qed.
End Connecting.

Section Leak.
Variable env : Env.

(** X6. When the broker accepts the connection and then refuses the
    subscription, [connect] reports failure and marks the subscriber as
    not connected, but the connection it opened stays open: no disconnect
    request follows, and a later [disconnect] sends none either, because
    it sees [is_connected] false. *)
Theorem refused_subscription_leaves_connection_open
    (s : Subscriber.IoTSharedSubscriber) tr :
  let client := Subscriber.client_id s in
  let shared_topic := Config.get_shared_topic (Subscriber.config s) in
  acked env (length tr) (Build client) = true ->
  acked env (length tr + 2) (Connect client) = true ->
  acked env (length tr + 4) (Subscribe client shared_topic) = false ->
  let out := Subscriber.connect env s tr in
  let later := Subscriber.disconnect env (self_of out) (trace_of out) in
  result_of out = Ret false /\
  Subscriber.mqtt_connection (self_of out) = Some (Conn (length tr)) /\
  Subscriber.is_connected (self_of out) = false /\
  self_of later = self_of out /\
  requests (trace_of later)
  = requests tr ++ [Build client; Connect client; Subscribe client shared_topic].
Proof.
  cbv zeta. intros Hbuild Hconnect Hsubscribe.
  destruct (subscriber_connect_cases env s tr)
    as [(Hb & _) | [(_ & Hc & _) | [(_ & _ & _ & sp & e & ->) | (_ & _ & Hs & _)]]];
    try congruence.
  unfold result_of, self_of, trace_of. cbn [fst snd].
  destruct (subscriber_disconnect_cases env
              (Subscriber.set_is_connected false
                 (Subscriber.set_is_connected true
                    (Subscriber.set_mqtt_connection (Some (Conn (length tr))) s)))
              (tr ++ [Transport (Build (Subscriber.client_id s));
                      Console (LConnecting (Config.endpoint (Subscriber.config s)));
                      Transport (Connect (Subscriber.client_id s));
                      Console (LConnected (Subscriber.client_id s) sp);
                      Transport (Subscribe (Subscriber.client_id s)
                                   (Config.get_shared_topic (Subscriber.config s)));
                      Console (LConnectError e)]))
    as [(_ & E) | [(Hc & _) | (Hc & _)]]; try discriminate Hc.
  cbv zeta in E. rewrite E. cbn [fst snd].
  rewrite !requests_app. simpl. rewrite app_nil_r. split_and!; reflexivity.
Qed.
End Leak.

(* ===================================================================== *)
(** ** What the arrivals leave in the tracker *)
(* ===================================================================== *)

Section Arrivals.
Import Subscriber.
Variable env : Env.

(** X7. After any arrivals, [message_count] has grown by the number of
    payloads that decode to a JSON object (stored or not), the keys of
    [processed_messages] are the old ones and the hashable message ids of
    those payloads, and [get_stats] reports this count and these ids, each
    id once, without changing the subscriber. *)
Theorem tracker_after_arrivals arrivals : forall s tr tr0,
  let out := deliver_all env arrivals s tr in
  let report := get_stats (self_of out) tr0 in
  result_of out = Ret tt /\
  message_count (self_of out)
  = message_count s + Z.of_nat (length (List.filter (counted env) arrivals)) /\
  dom (processed_messages (self_of out))
  = dom (processed_messages s) ∪ list_to_set (omap (key_of env) arrivals) /\
  exists st,
    report = (Ret st, self_of out, tr0) /\
    st_message_count st = message_count (self_of out) /\
    NoDup (st_processed_message_ids st) /\
    forall k, k ∈ st_processed_message_ids st <->
              k ∈ dom (processed_messages s) \/ Some k ∈ List.map (key_of env) arrivals.
Proof.
  induction arrivals as [|a rest IH]; intros s tr tr0.
  - cbn zeta. simpl. unfold result_of, self_of, ret. simpl.
    split_and!; [reflexivity | lia | set_solver |].
    eexists. unfold get_stats, bind, get, ret. split; [reflexivity|]. simpl.
    split_and!; [reflexivity | apply NoDup_fst_map_to_list |].
    intros k. rewrite elem_of_dom. split.
    + intros Hin. left. apply list_elem_of_fmap in Hin as [[k' x] [-> Hin]].
      apply elem_of_map_to_list in Hin. eauto.
    + intros [[x Hx] | Hin]; [|by apply elem_of_nil in Hin].
      apply list_elem_of_fmap. exists (k, x). split; [reflexivity|].
      by apply elem_of_map_to_list.
  - cbn zeta. rewrite deliver_all_cons.
    destruct (deliver_step env a s tr) as (s1 & tr1 & E1 & Hcount & _ & Hstore).
    rewrite E1. unfold self_of at 1 3 5 7, trace_of at 1 2 3 4. simpl fst. simpl snd.
    destruct (IH s1 (tr ++ tr1) tr0) as (Hret & Hn & Hdom & st & Hst & Hc & Hnodup & Hids).
    assert (Hdom1 : dom (processed_messages s1)
                    = dom (processed_messages s) ∪ list_to_set (omap (key_of env) [a])).
    { simpl. destruct (key_of env a) as [k|].
      - destruct Hstore as [entry ->]. rewrite dom_insert_L. set_solver.
      - rewrite Hstore. set_solver. }
    split_and!.
    + exact Hret.
    + rewrite Hn, Hcount. simpl. destruct (counted env a); simpl length; lia.
    + rewrite Hdom, Hdom1. simpl. destruct (key_of env a); set_solver.
    + exists st. split_and!; try assumption.
      intros k. rewrite Hids, Hdom1. simpl.
      destruct (key_of env a) as [k1|]; set_solver.
Qed.

Lemma deliver_keeps_other_records a s tr k :
  key_of env a <> Some k ->
  processed_messages (self_of (deliver env a s tr)) !! k = processed_messages s !! k.
Proof.
  intros Hk. destruct (deliver_step env a s tr) as (s1 & tr1 & -> & _ & _ & Hstore).
  unfold self_of. simpl. destruct (key_of env a) as [k1|].
  - destruct Hstore as [entry ->]. apply lookup_insert_ne. congruence.
  - by rewrite Hstore.
Qed.

(** X8. A record is replaced only by an arrival with the same message
    id, two ids being the same when they are one key of a [dict] (so the
    numbers [1], [1.0] and [True] are the same id).  For the key [k] of
    any id [v], through any arrivals none of which is stored under [k],
    what [processed_messages] holds under [k] (a record or nothing)
    stays as it was. *)
Theorem record_outlives_other_ids arrivals v k : forall s tr,
  hash_key v = Some k ->
  Forall (fun a => key_of env a <> Some k) arrivals ->
  processed_messages (self_of (deliver_all env arrivals s tr)) !! k
  = processed_messages s !! k.
Proof.
  induction arrivals as [|a rest IH]; intros s tr Hk Hall; [reflexivity|].
  rewrite deliver_all_cons. inversion Hall as [|? ? Ha Hrest]; subst.
  rewrite IH by assumption. by apply deliver_keeps_other_records.
Qed.
End Arrivals.

(* ===================================================================== *)
(** ** Statistics and shutdown of the pool *)
(* ===================================================================== *)

Section Shutdown.
Import Subscriber.
Variable env : Env.

Lemma set_subscribers_same (mgr : MultiSubscriberManager) :
  set_subscribers (subscribers mgr) mgr = mgr.
Proof. by destruct mgr. Qed.

Lemma stats_from_spec suffix : forall prefix total disconnected (mgr : MultiSubscriberManager) tr,
  subscribers mgr = prefix ++ suffix ->
  stats_from (length prefix) (length suffix) total disconnected mgr tr
  = (Ret (total + total_messages suffix, disconnected + disconnected_count suffix),
     mgr, tr ++ List.map stat_line suffix).
Proof.
  induction suffix as [|s rest IH]; intros prefix total disconnected mgr tr Hsubs.
  - simpl. unfold ret, total_messages, disconnected_count. simpl.
    rewrite !Z.add_0_r, app_nil_r. reflexivity.
  - assert (Hs : subscribers mgr !! length prefix = Some s).
    { rewrite Hsubs. by apply list_lookup_middle. }
    simpl stats_from. unfold bind at 1, on_subscriber, get_stats, bind at 1, get, ret.
    rewrite Hs. simpl. rewrite (list_insert_id _ _ _ Hs), set_subscribers_same.
    unfold bind at 1, print, emit.
    replace (S (length prefix)) with (length (prefix ++ [s]))
      by (rewrite length_app; simpl; lia).
    rewrite (IH (prefix ++ [s])) by (rewrite Hsubs, <- app_assoc; reflexivity).
    rewrite <- app_assoc. simpl. unfold stat_line at 2.
    replace (total + message_count s + total_messages rest)
      with (total + (message_count s + total_messages rest)) by lia.
    replace ((if is_connected s then disconnected else disconnected + 1)
             + disconnected_count rest)
      with (disconnected + disconnected_count (s :: rest)); [reflexivity|].
    unfold disconnected_count. simpl. destruct (is_connected s); simpl length; lia.
Qed.

(** X9. [print_stats] prints the header, one line per subscriber in pool
    order, the sum of their [message_count]s, and then: the queuing notice
    with the number of disconnected subscribers if there is one; otherwise
    the all-is-well line if anything was received; otherwise nothing.  It
    returns, changes nothing in the pool and asks the MQTT library for
    nothing. *)
Theorem print_stats_report (mgr : MultiSubscriberManager) tr :
  let subs := subscribers mgr in
  let out := print_stats mgr tr in
  out = (Ret tt, mgr,
         tr ++ [Console LStatHeader] ++ List.map stat_line subs
            ++ [Console (LStatTotal (total_messages subs))]
            ++ (if 0 <? disconnected_count subs
                then [Console (LStatQueuing (disconnected_count subs))]
                else if 0 <? total_messages subs then [Console LStatHealthy]
                else [])) /\
  requests (trace_of out) = requests tr.
Proof.
  cbv zeta.
  assert (E : print_stats mgr tr
    = (Ret tt, mgr,
         tr ++ [Console LStatHeader] ++ List.map stat_line (subscribers mgr)
            ++ [Console (LStatTotal (total_messages (subscribers mgr)))]
            ++ (if 0 <? disconnected_count (subscribers mgr)
                then [Console (LStatQueuing (disconnected_count (subscribers mgr)))]
                else if 0 <? total_messages (subscribers mgr) then [Console LStatHealthy]
                else []))).
  { unfold print_stats. rewrite bind_print, bind_get. unfold bind at 1.
    rewrite (stats_from_spec (subscribers mgr) [] 0 0 mgr) by reflexivity.
    rewrite !Z.add_0_l, bind_print.
    destruct (0 <? disconnected_count (subscribers mgr)).
    - unfold print, emit. rewrite <- !app_assoc. reflexivity.
    - destruct (0 <? total_messages (subscribers mgr)); unfold print, emit, ret;
        rewrite <- !app_assoc; simpl; rewrite ?app_nil_r; reflexivity. }
  split; [exact E|]. rewrite E. unfold trace_of. simpl.
  assert (Hlines : forall l, requests (List.map stat_line l) = []).
  { induction l; simpl; auto. }
  rewrite requests_app. simpl. rewrite requests_app, Hlines. simpl.
  destruct (0 <? disconnected_count (subscribers mgr));
    [|destruct (0 <? total_messages (subscribers mgr))]; simpl; by rewrite app_nil_r.
Qed.

(** [disconnect] on one subscriber, in the vocabulary of the pool. *)
Lemma disconnect_stops (s : IoTSharedSubscriber) tr :
  exists tr',
    disconnect env s tr = (Ret tt, stopped s, tr ++ tr') /\
    requests tr' = (if reachable s then [Disconnect (client_id s)] else []).
Proof.
  unfold stopped, reachable.
  destruct (subscriber_disconnect_cases env s tr)
    as [(Hc & E) | [(Hc & Hm & E) | (Hc & Hm & l & E & _)]]; cbv zeta in E; rewrite E.
  - rewrite Hc, andb_false_r. eexists. split; reflexivity.
  - rewrite Hc, Hm. rewrite bool_decide_eq_false_2 by (intros [? [=]]).
    exists []. rewrite app_nil_r. split; reflexivity.
  - rewrite Hc, (bool_decide_eq_true_2 _ Hm). eexists. split; reflexivity.
Qed.

Lemma stop_from_spec suffix : forall prefix (mgr : MultiSubscriberManager) tr,
  subscribers mgr = prefix ++ suffix ->
  exists tr',
    stop_from env (length prefix) (length suffix) mgr tr
    = (Ret tt, set_subscribers (prefix ++ List.map stopped suffix) mgr, tr ++ tr') /\
    requests tr'
    = List.map (fun s => Disconnect (client_id s)) (List.filter reachable suffix).
Proof.
  induction suffix as [|s rest IH]; intros prefix mgr tr Hsubs.
  - exists []. simpl. unfold ret. rewrite app_nil_r in Hsubs.
    rewrite !app_nil_r, <- Hsubs, set_subscribers_same. auto.
  - assert (Hs : subscribers mgr !! length prefix = Some s).
    { rewrite Hsubs. by apply list_lookup_middle. }
    destruct (disconnect_stops s tr) as (tr1 & E1 & Hr1).
    set (mgr1 := set_subscribers (<[length prefix := stopped s]> (subscribers mgr)) mgr).
    assert (Hsubs1 : subscribers mgr1 = (prefix ++ [stopped s]) ++ rest).
    { unfold mgr1. simpl. rewrite Hsubs, <- app_assoc. simpl.
      replace (length prefix) with (length prefix + 0)%nat at 1 by lia.
      by rewrite insert_app_r. }
    destruct (IH (prefix ++ [stopped s]) mgr1 (tr ++ tr1) Hsubs1) as (tr2 & E2 & Hr2).
    exists (tr1 ++ tr2). simpl stop_from. unfold bind at 1, on_subscriber.
    rewrite Hs, E1. fold mgr1.
    replace (S (length prefix)) with (length (prefix ++ [stopped s]))
      by (rewrite length_app; simpl; lia).
    rewrite E2. rewrite <- !app_assoc. split.
    + unfold mgr1. simpl. reflexivity.
    + rewrite requests_app, Hr1, Hr2. simpl. destruct (reachable s); reflexivity.
Qed.

Lemma stop_all_spec (mgr : MultiSubscriberManager) tr :
  exists tr',
    stop_all env mgr tr
    = (Ret tt,
       set_subscribers (List.map stopped (subscribers mgr)) (set_running false mgr),
       tr ++ tr') /\
    requests tr'
    = List.map (fun s => Disconnect (client_id s))
        (List.filter reachable (subscribers mgr)).
Proof.
  unfold stop_all. rewrite bind_modify, bind_print, bind_get.
  destruct (stop_from_spec (subscribers mgr) [] (set_running false mgr)
              (tr ++ [Console LStopping]) eq_refl) as (tr1 & E & Hr).
  simpl in E. simpl. rewrite E. exists ([Console LStopping] ++ tr1).
  rewrite <- app_assoc. split; [reflexivity|]. rewrite requests_app. exact Hr.
Qed.

(** X10. [stop_all] returns; it clears [running]; it sends one disconnect
    request for each subscriber that has a connection object and is
    marked connected, in pool order, and marks those as not connected
    whatever the MQTT library answers; every other subscriber it leaves
    as it was.  It wakes or cancels no reconnect thread. *)
Theorem stop_all_outcome (mgr : MultiSubscriberManager) tr :
  let out := stop_all env mgr tr in
  result_of out = Ret tt /\
  running (self_of out) = false /\
  subscribers (self_of out) = List.map stopped (subscribers mgr) /\
  requests (trace_of out)
  = requests tr ++ List.map (fun s => Disconnect (client_id s))
                    (List.filter reachable (subscribers mgr)) /\
  List.map reconnect_threads (subscribers (self_of out))
  = List.map reconnect_threads (subscribers mgr) /\
  Forall (fun s => is_connected s = true -> mqtt_connection s = None)
         (subscribers (self_of out)).
Proof.
  cbv zeta. destruct (stop_all_spec mgr tr) as (tr' & -> & Hr).
  unfold result_of, self_of, trace_of. simpl.
  split_and!; try reflexivity.
  - by rewrite requests_app, Hr.
  - rewrite List.map_map. apply List.map_ext. intros s.
    unfold stopped. by destruct (reachable s).
  - apply Forall_forall. intros s' Hin.
    apply list_elem_of_In, in_map_iff in Hin as (s & <- & _).
    unfold stopped, reachable.
    destruct (mqtt_connection s) as [c|] eqn:Hm; destruct (is_connected s) eqn:Hc;
      simpl; try rewrite Hm; try rewrite Hc; congruence.
Qed.

(** X11. Once [stop_all] has run, a turn of the simulator sleeps its
    interval (when [time.sleep] accepts it) and does nothing more: the
    pool is unchanged and the MQTT library is asked for nothing, whoever
    would have been picked. *)
Theorem stopped_simulator_only_sleeps (mgr : MultiSubscriberManager) tr
    wait pick duration tr1 :
  let halted := self_of (stop_all env mgr tr) in
  let out := simulate_cycle env wait pick duration halted tr1 in
  self_of out = halted /\
  trace_of out = (if sleepable wait then tr1 ++ [Sleep wait] else tr1).
Proof.
  cbv zeta. destruct (stop_all_spec mgr tr) as (tr' & -> & _).
  unfold self_of, trace_of. cbn [fst snd].
  set (halted := set_subscribers _ _).
  assert (Hhalted : running halted = false) by reflexivity.
  unfold simulate_cycle. destruct (sleepable wait) eqn:Hw.
  - rewrite (bind_sleep _ _ _ _ Hw), bind_get, Hhalted. split; reflexivity.
  - rewrite (bind_sleep_refused _ _ _ _ Hw). split; reflexivity.
Qed.
End Shutdown.

(* ===================================================================== *)
(** ** Who brings a subscriber back *)
(* ===================================================================== *)

Section Reconnecting.
Import Subscriber.
Variable env : Env.

Lemma on_subscriber_at {A} i j (P : IoTSharedSubscriber -> Prop)
    (m : M IoTSharedSubscriber A) :
  (j = i -> keeps P m) -> keeps (subscriber_at i P) (on_subscriber j m).
Proof.
  intros Hm mgr tr (s & Hs & HP). unfold on_subscriber.
  destruct (subscribers mgr !! j) as [sj|] eqn:Hj; [|by exists s].
  destruct (decide (j = i)) as [->|Hne].
  - assert (sj = s) as -> by congruence. specialize (Hm eq_refl s tr HP).
    destruct (m s tr) as [[r s'] tr']. unfold self_of in *. simpl in *.
    exists s'. split; [|exact Hm]. cbn [subscribers set_subscribers].
    apply list_lookup_insert_eq.
    by eapply lookup_lt_Some.
  - destruct (m sj tr) as [[r s'] tr']. unfold self_of. simpl.
    exists s. split; [|exact HP]. cbn [subscribers set_subscribers].
    by rewrite list_lookup_insert_ne.
Qed.

Lemma simulate_disconnect_abandoned duration :
  keeps abandoned (simulate_disconnect env duration).
Proof.
  intros s tr [Hc Ht].
  destruct (simulate_disconnect_spec env duration s tr) as [(_ & ->) | (Hc' & _)];
    [by split | congruence].
Qed.

Lemma reconnect_after_delay_abandoned k :
  keeps abandoned (reconnect_after_delay env k).
Proof.
  intros s tr [Hc Ht]. unfold reconnect_after_delay. rewrite bind_get, Ht.
  by split.
Qed.

Lemma deliver_abandoned a : keeps abandoned (deliver env a).
Proof.
  apply deliver_proof. intros s [Hc Ht]. split; [|intros k entry]; by split.
Qed.

Lemma interrupted_abandoned error : keeps abandoned (_on_connection_interrupted error).
Proof.
  intros s tr [Hc Ht].
  unfold _on_connection_interrupted, bind, modify, get, print, emit, when, ret.
  simpl. destruct (should_disconnect s); by split.
Qed.

Lemma get_stats_abandoned : keeps abandoned get_stats.
Proof. apply keeps_pure. reflexivity. Qed.

Lemma stats_from_at i (P : IoTSharedSubscriber -> Prop) n :
  forall j total disconnected,
    keeps (subscriber_at i P) (stats_from j n total disconnected).
Proof.
  induction n as [|n IH]; intros j total disconnected; simpl; [apply keeps_ret|].
  apply keeps_bind.
  - apply on_subscriber_at. intros _. apply keeps_pure. reflexivity.
  - intros st. apply keeps_bind; [apply keeps_print | intros _; apply IH].
Qed.

Lemma run_event_abandoned i ev :
  resumes i ev = false -> keeps (subscriber_at i abandoned) (run_event env ev).
Proof.
  intros Hres.
  destruct ev as [wait pick duration|j k|j a|j error|j session_present|]; simpl.
  - unfold simulate_cycle. apply keeps_bind; [apply keeps_sleep|]. intros _.
    apply keeps_bind; [apply keeps_get|]. intros self.
    destruct (negb (running self)); [apply keeps_ret|].
    destruct (connected_subscribers self !! _) as [target|]; [|apply keeps_ret].
    apply on_subscriber_at. intros _. apply simulate_disconnect_abandoned.
  - apply on_subscriber_at. intros _. apply reconnect_after_delay_abandoned.
  - apply on_subscriber_at. intros _. apply deliver_abandoned.
  - apply on_subscriber_at. intros _. apply interrupted_abandoned.
  - apply on_subscriber_at. intros ->. simpl in Hres.
    by rewrite bool_decide_eq_true_2 in Hres.
  - apply keeps_bind; [apply keeps_sleep|]. intros _.
    unfold print_stats. apply keeps_bind; [apply keeps_print|]. intros _.
    apply keeps_bind; [apply keeps_get|]. intros self.
    apply keeps_bind; [apply stats_from_at|]. intros [total disconnected].
    apply keeps_bind; [apply keeps_print|]. intros _.
    destruct (0 <? disconnected); [apply keeps_print|].
    destruct (0 <? total); [apply keeps_print | apply keeps_ret].
Qed.

Lemma run_events_abandoned i evs :
  Forall (fun ev => resumes i ev = false) evs ->
  keeps (subscriber_at i abandoned) (run_events env evs).
Proof.
  induction 1 as [|ev rest Hev Hrest IH]; simpl; [apply keeps_ret|].
  apply keeps_bind; [|intros _; exact IH].
  apply keeps_try_except; [|intros e; apply keeps_ret].
  by apply run_event_abandoned.
Qed.

(** X12. The program never retries a failed [connect]: a subscriber that
    [start_all] left disconnected is still disconnected, with no
    reconnect thread of its own, after any events among which the
    transport does not itself report its connection resumed.  The
    simulator picks only connected subscribers, and a reconnect thread
    exists only for a subscriber the simulator has disconnected. *)
Theorem failed_start_is_never_retried config n tr evs i s :
  let started := start_all env (new_manager config n) tr in
  subscribers (self_of started) !! i = Some s ->
  is_connected s = false ->
  Forall (fun ev => resumes i ev = false) evs ->
  exists s',
    subscribers (self_of (run_events env evs (self_of started) (trace_of started))) !! i
    = Some s' /\
    is_connected s' = false /\ reconnect_threads s' = [].
Proof.
  intros started Hs Hc Hevs.
  assert (Hthreads : Forall (fun s => reconnect_threads s = [])
                       (subscribers (self_of started))).
  { apply start_all_keeps_threadless. unfold new_manager. simpl.
    apply Forall_forall. intros s0 Hin.
    apply list_elem_of_In, in_map_iff in Hin as (j & <- & _). reflexivity. }
  rewrite Forall_lookup in Hthreads.
  destruct (run_events_abandoned i evs Hevs (self_of started) (trace_of started))
    as (s' & Hs' & Hc' & Ht').
  - exists s. split; [exact Hs|]. split; [exact Hc | by eapply Hthreads].
  - eauto.
Qed.


End Reconnecting.

(* ===================================================================== *)
(** ** The publisher *)
(* ===================================================================== *)

Section PublisherMethods.
Import Publisher.
Variable env : Env.

(** The three ways [connect] of the publisher can go. *)
Lemma publisher_connect_cases (p : IoTMessagePublisher) tr :
  let client := client_id p in
  let fresh := set_mqtt_connection (Some (Conn (length tr))) p in
  let out := connect env p tr in
  (acked env (length tr) (Build client) = false /\
   exists e,
     out = (Ret false, set_is_connected false p,
            tr ++ [Transport (Build client); Console (LConnectError e)])) \/
  (acked env (length tr) (Build client) = true /\
   acked env (length tr + 2) (Connect client) = false /\
   exists e,
     out = (Ret false, set_is_connected false fresh,
            tr ++ [Transport (Build client);
                   Console (LConnecting (Config.endpoint (config p)));
                   Transport (Connect client); Console (LConnectError e)])) \/
  (acked env (length tr) (Build client) = true /\
   acked env (length tr + 2) (Connect client) = true /\
   exists session_present,
     out = (Ret true, set_is_connected true fresh,
            tr ++ [Transport (Build client);
                   Console (LConnecting (Config.endpoint (config p)));
                   Transport (Connect client);
                   Console (LConnected client session_present)])).
Proof.
  cbv zeta. unfold acked.
  unfold connect, try_except, bind, get, position, request, modify,
    print, emit, ret. simpl.
  destruct (transport env (length tr) (Build (client_id p))) as [i1|m1]; simpl.
  - rewrite length_snoc2.
    destruct (transport env (length tr + 2) (Connect (client_id p)))
      as [i2|m2]; simpl.
    + do 2 right. split_and!; try reflexivity. eexists.
      rewrite <- !app_assoc. reflexivity.
    + right; left. split_and!; try reflexivity. eexists.
      rewrite <- !app_assoc. reflexivity.
  - left. split; [reflexivity|]. eexists. rewrite <- !app_assoc. reflexivity.
Qed.

(** X14. [connect] of the publisher asks for a connection object and
    then to connect, and stops at the first refusal; it never subscribes.
    It returns, and leaves in [is_connected], whether both were granted,
    and it leaves [publish_count] alone. *)
Theorem publisher_connect_outcome (p : IoTMessagePublisher) tr :
  let client := client_id p in
  let built := acked env (length tr) (Build client) in
  let connected := built && acked env (length tr + 2) (Connect client) in
  let out := connect env p tr in
  result_of out = Ret connected /\
  is_connected (self_of out) = connected /\
  mqtt_connection (self_of out)
  = (if built then Some (Conn (length tr)) else mqtt_connection p) /\
  requests (trace_of out)
  = requests tr ++ Build client :: (if built then [Connect client] else []) /\
  publish_count (self_of out) = publish_count p /\
  client_id (self_of out) = client /\ config (self_of out) = config p.
Proof.
  cbv zeta.
  destruct (publisher_connect_cases p tr)
    as [(-> & e & ->) | [(-> & -> & e & ->) | (-> & -> & sp & ->)]];
    unfold result_of, self_of, trace_of; simpl; rewrite requests_app;
    split_and!; reflexivity.
Qed.

Lemma run_callback_counts cb (p : IoTMessagePublisher) tr :
  exists p' tr',
    run_callback cb p tr = (Ret tt, p', tr ++ tr') /\
    publish_count p' = publish_count p + acknowledgements [cb] /\
    requests tr' = [].
Proof.
  destruct cb as [error|session_present|[info|msg]]; simpl;
    unfold _on_connection_interrupted, _on_connection_resumed, _on_publish_complete,
      try_except, bind, modify, get, print, emit, ret; simpl;
    eexists _, _; rewrite <- ?app_assoc; (split; [reflexivity|]); simpl;
    unfold acknowledgements; simpl; split; (reflexivity || lia).
Qed.

(** X15. [publish_count] counts acknowledgements: through any callbacks
    of the transport it grows by the number of completion callbacks whose
    publish succeeded; failed completions, interruptions and resumptions
    leave it alone.  No callback raises or makes a request. *)
Theorem publish_count_counts_acknowledgements cbs : forall (p : IoTMessagePublisher) tr,
  let out := run_callbacks cbs p tr in
  result_of out = Ret tt /\
  publish_count (self_of out) = publish_count p + acknowledgements cbs /\
  requests (trace_of out) = requests tr.
Proof.
  induction cbs as [|cb rest IH]; intros p tr; cbv zeta.
  - unfold result_of, self_of, trace_of, acknowledgements. simpl.
    split_and!; auto. lia.
  - destruct (run_callback_counts cb p tr) as (p1 & tr1 & E1 & Hc1 & Hr1).
    simpl run_callbacks. unfold bind. rewrite E1.
    destruct (IH p1 (tr ++ tr1)) as (Hres & Hc & Hr). cbv zeta in *.
    split_and!; [exact Hres | | ].
    + rewrite Hc, Hc1. unfold acknowledgements. simpl.
      destruct (is_acknowledgement cb); simpl length; lia.
    + rewrite Hr, requests_app, Hr1. apply app_nil_r.
Qed.

(** X16. On a connected publisher [publish_test_message] hands the MQTT
    library exactly one message, on the publish topic, with the given id
    or else a fresh UUID, and with sequence [publish_count + 1].  It
    returns whether the library accepted the request, not whether the
    broker acknowledged it, and it changes no attribute: [publish_count]
    moves only in the completion callback. *)
Theorem publish_reports_acceptance given (p : IoTMessagePublisher) tr :
  is_connected p = true ->
  is_Some (mqtt_connection p) ->
  let message_id := default (uuid4 env (length tr)) given in
  let message :=
    message_of message_id (now env (length tr)) (client_id p) (publish_count p + 1) in
  let request :=
    Publish (client_id p) (Config.get_publish_topic (config p)) (json_dumps env message) in
  let out := publish_test_message env given p tr in
  result_of out = Ret (acked env (length tr) request) /\
  self_of out = p /\
  requests (trace_of out) = requests tr ++ [request].
Proof.
  intros Hc [c Hm] message_id message request out.
  assert (E : exists l,
    out = (Ret (acked env (length tr) request), p,
           tr ++ [Transport request; Console l])).
  { subst out request message message_id. unfold acked.
    unfold publish_test_message, bind at 1, get. rewrite Hc, Hm. simpl.
    unfold bind, new_uuid, datetime_now, bind, position, ret, try_except,
      bind, request, print, emit.
    destruct given as [id|]; simpl;
      match goal with
      | |- context [transport env ?n ?c] => destruct (transport env n c) as [info|msg]
      end; eexists; rewrite <- ?app_assoc; reflexivity. }
  destruct E as (l & ->). unfold result_of, self_of, trace_of. cbn [fst snd].
  rewrite requests_app. split_and!; reflexivity.
Qed.


(** X18. When the connection is up at the first check of the loop and
    [max_messages] is positive, an interval that [time.sleep] refuses
    ends the loop in its first turn: the sleep that follows the first
    publish attempt raises ([ValueError] for a negative interval,
    [OverflowError] for one beyond what the clock holds), so the call
    raises after at most one message, with no sleep completed and neither
    the end-of-loop line nor the summary printed. *)
Theorem refused_interval_raises_in_first_turn interval max_messages schedule
    (p : IoTMessagePublisher) tr :
  sleepable interval = false ->
  0 < max_messages ->
  up_after (before_check (schedule 0%nat)) (is_connected p) = true ->
  let out := start_continuous_publishing env interval max_messages schedule p tr in
  exists e tr',
    result_of out = Raise e /\
    (Qle_bool 0 interval = false -> Qle_bool (-9223372036 # 1) interval = true ->
       e = Exn "ValueError" "sleep length must be non-negative") /\
    (Qle_bool (9223372037 # 1) interval = true ->
       exists msg, e = Exn "OverflowError" msg) /\
    trace_of out = tr ++ tr' /\
    (length (published tr') <= 1)%nat /\
    sleeps tr' = 0%nat /\
    ~ In (Console LLoopDone) tr' /\
    (forall count, ~ In (Console (LSummary count)) tr').
Proof.
  intros Hi Hmax Hup out.
  destruct (Z.to_nat max_messages) as [|n] eqn:Hn; [lia|].
  set (tr0 := tr ++ [Console (LLoopStart interval max_messages)]).
  destruct (run_callbacks_spec (before_check (schedule 0%nat)) p tr0)
    as (p1 & tr1 & E1 & Hu1 & _ & _ & _ & _ & Hs1 & Hp1 & _).
  rewrite Hup in Hu1.
  destruct (run_callbacks_spec (before_publish (schedule 0%nat)) p1 (tr0 ++ tr1))
    as (p2 & tr2 & E2 & _ & _ & _ & _ & _ & Hs2 & Hp2 & _).
  assert (Hpub : exists b tr3,
    publish_test_message env None p2 ((tr0 ++ tr1) ++ tr2)
    = (Ret b, p2, ((tr0 ++ tr1) ++ tr2) ++ tr3) /\
    sleeps tr3 = 0%nat /\ (length (published tr3) <= 1)%nat /\
    Forall (fun e => match e with
                     | Console LLoopDone | Console (LSummary _) => False
                     | _ => True
                     end) tr3).
  { unfold publish_test_message, bind at 1, get.
    destruct (negb (is_connected p2) || negb (bool_decide (is_Some (mqtt_connection p2)))).
    - unfold bind, print, emit, ret. eexists _, _. split; [reflexivity|].
      simpl. split_and!; auto.
    - unfold bind, new_uuid, datetime_now, bind, position, ret, try_except,
        bind, request, print, emit. simpl.
      match goal with
      | |- context [transport env ?n ?c] => destruct (transport env n c) as [info|msg]
      end; simpl; eexists _, _; rewrite <- ?app_assoc;
        (split; [reflexivity|]); simpl; split_and!; auto. }
  destruct Hpub as (b & tr3 & E3 & Hs3 & Hp3 & Hl3).
  set (tr4 := if b then [Console (LProgress (Z.of_nat 0 + 1) max_messages)] else []).
  assert (E4 : when b (print (LProgress (Z.of_nat 0 + 1) max_messages)) p2
                 (((tr0 ++ tr1) ++ tr2) ++ tr3)
               = (Ret tt, p2, (((tr0 ++ tr1) ++ tr2) ++ tr3) ++ tr4)).
  { unfold tr4. destruct b; simpl; unfold print, emit, ret; rewrite ?app_nil_r;
      reflexivity. }
  assert (Eout : out
    = (Raise (sleep_error interval), p2,
       tr ++ [Console (LLoopStart interval max_messages)] ++ tr1 ++ tr2 ++ tr3 ++ tr4)).
  { subst out. unfold start_continuous_publishing, bind at 1, print at 1, emit.
    unfold bind at 1. rewrite Hn. simpl publishing_from. fold tr0.
    unfold bind at 1. rewrite E1. unfold bind at 1, get. rewrite Hu1. cbn [negb].
    unfold bind at 1. rewrite E2. unfold bind at 1. rewrite E3.
    unfold bind at 1. rewrite E4. unfold bind at 1, sleep. rewrite Hi.
    unfold raise, tr0. rewrite <- !app_assoc. reflexivity. }
  rewrite Eout. unfold result_of, trace_of. cbn [fst snd].
  exists (sleep_error interval),
    ([Console (LLoopStart interval max_messages)] ++ tr1 ++ tr2 ++ tr3 ++ tr4).
  split; [reflexivity|]. split; [apply sleep_error_negative|].
  split; [apply sleep_error_overflow|]. split; [reflexivity|].
  assert (Hp4 : published tr4 = []) by (unfold tr4; by destruct b).
  assert (Hs4 : sleeps tr4 = 0%nat) by (unfold tr4; by destruct b).
  assert (Hquiet : forall cbs q trq q' trq',
    run_callbacks cbs q trq = (Ret tt, q', trq ++ trq') ->
    Forall (fun e => match e with
                     | Console LLoopDone | Console (LSummary _) => False
                     | _ => True
                     end) trq').
  { clear. induction cbs as [|cb rest IH]; intros q trq q' trq' E.
    - simpl in E. unfold ret in E. injection E as _ Htr.
      rewrite <- (app_nil_r trq) in Htr at 1. apply app_inv_head in Htr. by subst.
    - simpl in E. unfold bind in E.
      destruct (run_callback_spec cb q trq) as (q1 & trq1 & E1 & _).
      rewrite E1 in E.
      destruct (run_callbacks_spec rest q1 (trq ++ trq1)) as (q2 & trq2 & E2 & _).
      rewrite E2 in E. injection E as _ Htr. rewrite <- app_assoc in Htr.
      apply app_inv_head in Htr. subst trq'. apply Forall_app. split.
      + destruct cb as [error|session_present|[info|msg]]; simpl in E1;
          unfold _on_connection_interrupted, _on_connection_resumed,
            _on_publish_complete, try_except, bind, modify, get, print, emit, ret in E1;
          simpl in E1; injection E1 as _ Htr1; rewrite <- ?app_assoc in Htr1;
          apply app_inv_head in Htr1; subst trq1; repeat constructor.
      + eapply IH. exact E2. }
  pose proof (Hquiet _ _ _ _ _ E1) as Hl1.
  pose proof (Hquiet _ _ _ _ _ E2) as Hl2.
  assert (Hl4 : Forall (fun e => match e with
                     | Console LLoopDone | Console (LSummary _) => False
                     | _ => True
                     end) tr4) by (unfold tr4; destruct b; repeat constructor).
  assert (Hall : Forall (fun e => match e with
                     | Console LLoopDone | Console (LSummary _) => False
                     | _ => True
                     end)
                   ([Console (LLoopStart interval max_messages)] ++ tr1 ++ tr2 ++ tr3 ++ tr4)).
  { repeat (apply Forall_app; split); auto; repeat constructor. }
  rewrite Forall_forall in Hall.
  split_and!.
  - rewrite !published_app, Hp1, Hp2, Hp4. simpl. rewrite app_nil_r. exact Hp3.
  - rewrite !sleeps_app, Hs1, Hs2, Hs3, Hs4. reflexivity.
  - intros Hin. apply list_elem_of_In in Hin. exact (Hall _ Hin).
  - intros count Hin. apply list_elem_of_In in Hin. exact (Hall _ Hin).
Qed.
End PublisherMethods.

(* ===================================================================== *)
(** ** Validation and the two entry points *)
(* ===================================================================== *)

Section EntryPoints.
Variable env : Env.

Lemma validate_files_spec {Self} required_files (s : Self) tr :
  let missing := List.filter (fun f => negb (path_exists env f)) required_files in
  Config.validate_files env required_files s tr
  = (Ret (forallb (path_exists env) required_files), s,
     tr ++ match missing with
           | [] => []
           | file_path :: _ => [Console (LMissingFile file_path)]
           end).
Proof.
  cbv zeta. induction required_files as [|f rest IH]; simpl.
  - unfold ret. by rewrite app_nil_r.
  - destruct (path_exists env f); simpl; [exact IH | reflexivity].
Qed.

(** X19. [validate] stops at the first file it does not find: it prints
    one line, naming that file, and returns [False] without looking at
    the files after it; when all three exist it prints nothing and
    returns [True].  It changes nothing and makes no request. *)
Theorem validate_names_first_missing_file {Self} config (s : Self) tr :
  Config.validate env config s tr
  = (Ret (bool_decide (missing_files env config = [])), s,
     tr ++ match missing_files env config with
           | [] => []
           | file_path :: _ => [Console (LMissingFile file_path)]
           end).
Proof.
  unfold Config.validate. rewrite validate_files_spec. unfold missing_files.
  simpl.
  destruct (path_exists env (Config.root_ca_path config));
    destruct (path_exists env (Config.cert_path config));
    destruct (path_exists env (Config.private_key_path config)); reflexivity.
Qed.

Lemma validate_present {Self} config (s : Self) tr :
  credentials_present env config = true ->
  Config.validate env config s tr = (Ret true, s, tr).
Proof.
  intros Hcred. unfold Config.validate. rewrite validate_files_spec.
  unfold credentials_present in Hcred. simpl.
  destruct (path_exists env (Config.root_ca_path config)); [|discriminate].
  destruct (path_exists env (Config.cert_path config)); [|discriminate].
  destruct (path_exists env (Config.private_key_path config)); [|discriminate].
  simpl. by rewrite app_nil_r.
Qed.

(** X20. When the broker refuses the publisher's connection, [main] of
    the publisher publishes nothing and never asks to disconnect: after
    the failed [connect] it prints that it failed and returns through the
    [finally], where [disconnect] finds the publisher not connected.
    Nothing of the publishing loop runs. *)
Theorem unreachable_broker_publishes_nothing config schedule late tr :
  let client := Publisher.client_id (Publisher.__init__ config) in
  credentials_present env config = true ->
  (forall n, acked env n (Connect client) = false) ->
  let out := Publisher.main env config schedule late tt tr in
  exists e,
    result_of out = Ret tt /\
    trace_of out
    = tr ++ Transport (Build client)
         :: (if acked env (length tr) (Build client)
             then [Console (LConnecting (Config.endpoint config));
                   Transport (Connect client)]
             else [])
         ++ [Console (LConnectError e); Console LConnectFailed; Console LAlreadyDown] /\
    published (trace_of out) = published tr.
Proof.
  intros client Hcred Hoff out.
  assert (E : exists e,
    out = (Ret tt, tt,
           tr ++ Transport (Build client)
              :: (if acked env (length tr) (Build client)
                  then [Console (LConnecting (Config.endpoint config));
                        Transport (Connect client)]
                  else [])
              ++ [Console (LConnectError e); Console LConnectFailed;
                  Console LAlreadyDown])).
  { subst out. unfold Publisher.main. unfold bind at 1.
    rewrite (validate_present config tt tr Hcred). cbn [negb].
    unfold with_object, try_finally. unfold bind at 1.
    destruct (publisher_connect_cases env (Publisher.__init__ config) tr)
      as [(Hb & e & Ec) | [(Hb & _ & e & Ec) | (_ & Hc & _)]]; try (cbv zeta in Ec).
    - rewrite Ec. fold client in Hb. rewrite Hb. cbn [negb].
      unfold print, emit, Publisher.disconnect, bind, get. simpl.
      exists e. rewrite <- !app_assoc. reflexivity.
    - rewrite Ec. fold client in Hb. rewrite Hb. cbn [negb].
      unfold print, emit, Publisher.disconnect, bind, get. simpl.
      exists e. rewrite <- !app_assoc. reflexivity.
    - fold client in Hc. rewrite Hoff in Hc. discriminate. }
  destruct E as (e & ->). exists e.
  unfold result_of, trace_of. cbn [fst snd].
  split; [reflexivity|]. split; [reflexivity|].
  rewrite published_app. destruct (acked env (length tr) (Build client)); simpl;
    by rewrite app_nil_r.
Qed.
End EntryPoints.

Section OfflinePool.
Import Subscriber.
Variable env : Env.
Hypothesis offline : forall n client, acked env n (Connect client) = false.

Lemma connect_offline (s : IoTSharedSubscriber) tr :
  exists s' tr',
    connect env s tr = (Ret false, s', tr ++ tr') /\
    is_connected s' = false /\
    Forall (fun c => opens_connection c = true) (requests tr').
Proof.
  destruct (subscriber_connect_cases env s tr)
    as [(_ & e & E) | [(_ & _ & e & E) | [(_ & Hc & _) | (_ & Hc & _)]]];
    try (rewrite offline in Hc; discriminate); cbv zeta in E; rewrite E;
    eexists _, _; (split; [reflexivity|]); (split; [reflexivity|]);
    repeat constructor.
Qed.

Lemma start_from_offline n : forall i acc (mgr : MultiSubscriberManager) tr,
  length (subscribers mgr) = (i + n)%nat ->
  Forall (fun s => is_connected s = false) (subscribers mgr) ->
  exists mgr' tr',
    start_from env i n acc mgr tr = (Ret acc, mgr', tr ++ tr') /\
    length (subscribers mgr') = length (subscribers mgr) /\
    Forall (fun s => is_connected s = false) (subscribers mgr') /\
    Forall (fun c => opens_connection c = true) (requests tr').
Proof.
  induction n as [|n IH]; intros i acc mgr tr Hlen Hdown.
  - exists mgr, []. simpl. unfold ret. rewrite app_nil_r. auto.
  - destruct (lookup_lt_is_Some_2 (subscribers mgr) i ltac:(lia)) as [s Hs].
    destruct (connect_offline s tr) as (s' & tr1 & E1 & Hs' & Hr1).
    set (mgr1 := set_subscribers (<[i:=s']> (subscribers mgr)) mgr).
    assert (Hlen1 : length (subscribers mgr1) = length (subscribers mgr)).
    { unfold mgr1. simpl. apply length_insert. }
    destruct (IH (S i) acc mgr1 (tr ++ tr1)) as (mgr' & tr2 & E2 & Hlen' & Hdown' & Hr2).
    + rewrite Hlen1. lia.
    + unfold mgr1. simpl. by apply Forall_insert.
    + exists mgr', (tr1 ++ tr2). simpl. unfold bind at 1, on_subscriber.
      rewrite Hs, E1. fold mgr1. rewrite E2, <- app_assoc.
      split; [reflexivity|]. split; [congruence|]. split; [exact Hdown'|].
      rewrite requests_app. by apply Forall_app.
Qed.

Lemma stop_from_down suffix : forall prefix (mgr : MultiSubscriberManager) tr,
  subscribers mgr = prefix ++ suffix ->
  Forall (fun s => is_connected s = false) suffix ->
  stop_from env (length prefix) (length suffix) mgr tr
  = (Ret tt, mgr, tr ++ repeat (Console LAlreadyDown) (length suffix)).
Proof.
  induction suffix as [|s rest IH]; intros prefix mgr tr Hsubs Hdown.
  - simpl. unfold ret. by rewrite app_nil_r.
  - assert (Hs : subscribers mgr !! length prefix = Some s).
    { rewrite Hsubs. by apply list_lookup_middle. }
    apply Forall_cons in Hdown as [Hc Hdown].
    destruct (subscriber_disconnect_cases env s tr)
      as [(_ & E) | [(Hc' & _) | (Hc' & _)]]; try congruence.
    cbv zeta in E. simpl stop_from. unfold bind at 1, on_subscriber.
    rewrite Hs, E, (list_insert_id _ _ _ Hs), set_subscribers_same.
    replace (S (length prefix)) with (length (prefix ++ [s]))
      by (rewrite length_app; simpl; lia).
    rewrite (IH (prefix ++ [s])); [|by rewrite Hsubs, <- app_assoc | exact Hdown].
    rewrite <- app_assoc. reflexivity.
Qed.

(** What [main] does when no subscriber gets connected. *)
Lemma main_offline config schedule tr :
  credentials_present env config = true ->
  exists tr',
    main env config schedule tt tr
    = (Ret tt, tt,
       tr ++ [Console LMainStart; Console (LManagerStart 3)] ++ tr'
          ++ [Console (LManagerConnected 0 3); Console LStartFailed; Console LStopping;
              Console LAlreadyDown; Console LAlreadyDown; Console LAlreadyDown]) /\
    Forall (fun c => opens_connection c = true) (requests tr') /\
    tr' = drop (length tr + 2)
            (trace_of (start_from env 0 3 0 (new_manager config 3)
                         (tr ++ [Console LMainStart; Console (LManagerStart 3)]))).
Proof.
  intros Hcred.
  destruct (start_from_offline 3 0 0 (new_manager config 3)
              (tr ++ [Console LMainStart; Console (LManagerStart 3)]))
    as (mgr' & tr' & E & Hlen & Hdown & Hr); [reflexivity | by repeat constructor |].
  change (length (subscribers (new_manager config 3))) with 3%nat in Hlen.
  exists tr'. split; [|split; [exact Hr|]].
  - unfold main. unfold bind at 1. rewrite (validate_present env config tt tr Hcred).
    cbn [negb]. unfold with_object, try_finally.
    rewrite bind_print. unfold start_all at 1. unfold bind at 1.
    rewrite bind_get, bind_print.
    change (length (subscribers (new_manager config 3))) with 3%nat.
    rewrite <- app_assoc. simpl app at 2.
    unfold bind at 1. rewrite E. rewrite bind_print. cbn [Z.ltb Z.compare when].
    unfold bind at 1, ret at 1. unfold ret at 1. cbn [negb].
    unfold print at 1, emit. unfold stop_all.
    rewrite bind_modify, bind_print, bind_get.
    pose proof (stop_from_down (subscribers mgr') [] (set_running false mgr')) as Hstop.
    simpl length in Hstop. cbn [subscribers set_running]. rewrite Hstop by auto.
    rewrite Hlen. simpl repeat. rewrite <- !app_assoc. reflexivity.
  - rewrite E. unfold trace_of. cbn [snd].
    rewrite drop_app_length'; [reflexivity|]. rewrite length_app. simpl. lia.
Qed.

(** X21. When the broker refuses every connection, [main] of the
    subscribers runs nothing of what was to follow [start_all]: whatever
    would have happened afterwards, it prints that the start failed and
    stops the pool.  Its requests only build connection objects and ask
    to connect; it never subscribes and, every subscriber being marked
    not connected, never asks to disconnect. *)
Theorem unreachable_broker_skips_the_run config schedule tr :
  credentials_present env config = true ->
  let out := main env config schedule tt tr in
  out = main env config [] tt tr /\
  result_of out = Ret tt /\
  In (Console LStartFailed) (trace_of out) /\
  exists tr',
    trace_of out = tr ++ tr' /\
    Forall (fun c => opens_connection c = true) (requests tr').
Proof.
  intros Hcred out.
  destruct (main_offline config schedule tr Hcred) as (tr1 & E1 & Hr1 & Htr1).
  destruct (main_offline config [] tr Hcred) as (tr2 & E2 & _ & Htr2).
  assert (tr2 = tr1) as -> by congruence.
  subst out. rewrite E1, E2. unfold result_of, trace_of. cbn [fst snd].
  split_and!; [reflexivity | reflexivity | |].
  - apply in_or_app. right. apply in_or_app. right. apply in_or_app. right.
    right. by left.
  - eexists. split; [reflexivity|]. rewrite !requests_app. simpl.
    by rewrite app_nil_r.
Qed.
End OfflinePool.

(* ===================================================================== *)
(** ** Client ids *)
(* ===================================================================== *)

Lemma string_append_inv_head (s a b : string) : (s ++ a = s ++ b)%string -> a = b.
Proof. induction s as [|c s IH]; simpl; [auto|]. intros [= H]. auto. Qed.

Lemma pretty_N_char_nonzero (x : N) : (0 < x)%N -> (x < 10)%N -> pretty_N_char x <> pretty_N_char 0.
Proof.
  intros H0 H10.
  destruct x as [|p]; [lia|].
  do 4 (destruct p as [p|p|]; try lia; try discriminate).
Qed.

(** A positive number is not printed with a leading zero. *)
Lemma pretty_N_go_head (x : N) : forall s,
  (0 < x)%N -> exists c rest, pretty_N_go x s = String c rest /\ c <> pretty_N_char 0.
Proof.
  induction x as [x IH] using (well_founded_induction N.lt_wf_0). intros s Hx.
  rewrite pretty_N_go_step by exact Hx.
  destruct (N.lt_ge_cases x 10) as [Hlt|Hge].
  - rewrite (N.div_small x 10 Hlt), pretty_N_go_0, (N.mod_small x 10 Hlt).
    eexists _, _. split; [reflexivity|]. by apply pretty_N_char_nonzero.
  - apply IH; [apply N.div_lt; lia|]. apply N.div_str_pos. lia.
Qed.

Lemma pretty_nat_head (n : nat) :
  (0 < n)%nat -> exists c rest, pretty n = String c rest /\ c <> pretty_N_char 0.
Proof.
  intros Hn. unfold pretty, pretty_nat, pretty, pretty_N.
  destruct (decide (N.of_nat n = 0%N)); [lia|]. apply pretty_N_go_head. lia.
Qed.

Lemma two_digits_inj (n m : nat) :
  (0 < n)%nat -> (0 < m)%nat ->
  Subscriber.two_digits n = Subscriber.two_digits m -> n = m.
Proof.
  intros Hn Hm. unfold Subscriber.two_digits.
  destruct (n <? 10)%nat eqn:En; destruct (m <? 10)%nat eqn:Em; intros Heq.
  - apply string_append_inv_head in Heq. by apply pretty_nat_inj in Heq.
  - destruct (pretty_nat_head m Hm) as (c & rest & E & Hc).
    rewrite E in Heq. simpl in Heq. injection Heq as Hhead _. by symmetry in Hhead.
  - destruct (pretty_nat_head n Hn) as (c & rest & E & Hc).
    rewrite E in Heq. simpl in Heq. injection Heq as Hhead _. by symmetry in Hhead.
  - by apply pretty_nat_inj in Heq.
Qed.

(** X22. No two clients of the program share a client id: the
    subscribers of a fresh pool, of any size, have pairwise distinct
    client ids (the two-digit numbering does not collide once it needs
    three digits), and none of them is the id of the publisher built
    from the same configuration. *)
Theorem client_ids_are_distinct config n :
  let subs := Subscriber.subscribers (Subscriber.new_manager config n) in
  NoDup (List.map Subscriber.client_id subs) /\
  ~ In (Publisher.client_id (Publisher.__init__ config))
       (List.map Subscriber.client_id subs).
Proof.
  cbv zeta. unfold Subscriber.new_manager. cbn [Subscriber.subscribers].
  rewrite List.map_map. cbn [Subscriber.client_id Subscriber.__init__]. split.
  - apply (NoDup_fmap_2_strong _ (seq 0 n)); [|apply NoDup_seq].
    intros i j _ _ Heq.
    do 2 apply string_append_inv_head in Heq.
    apply two_digits_inj in Heq; lia.
  - intros Hin. apply in_map_iff in Hin as (i & Heq & _). simpl in Heq.
    apply string_append_inv_head in Heq. discriminate.
Qed.

(* ===================================================================== *)
(** ** Bounds and edge inputs *)
(* ===================================================================== *)

Section Edges.
Variable env : Env.

Lemma sleep_length_negative (duration : Z) :
  duration < 0 -> sleepable (inject_Z duration) = false.
Proof.
  intros Hd. unfold sleepable. apply andb_false_iff. right.
  unfold Qle_bool, inject_Z. simpl. apply Z.leb_gt. lia.
Qed.

(** X23. An outage of negative length never ends.  [simulate_disconnect]
    disconnects the subscriber as usual; the [time.sleep] of the
    reconnect thread then raises, the thread ends without a request and
    without having slept, and the subscriber is left disconnected,
    [should_disconnect] still set and no thread left to reconnect it. *)
Theorem negative_outage_never_ends duration (s : Subscriber.IoTSharedSubscriber) tr :
  Subscriber.is_connected s = true ->
  Subscriber.reconnect_threads s = [] ->
  duration < 0 ->
  let down := Subscriber.simulate_disconnect env duration s tr in
  let back := Subscriber.reconnect_after_delay env 0 (self_of down) (trace_of down) in
  result_of back = Ret tt /\
  requests (trace_of back) = requests (trace_of down) /\
  sleeps (trace_of back) = sleeps (trace_of down) /\
  Subscriber.is_connected (self_of back) = false /\
  Subscriber.should_disconnect (self_of back) = true /\
  Subscriber.reconnect_threads (self_of back) = [].
Proof.
  intros Hc Ht Hd down back.
  pose proof (sleep_length_negative duration Hd) as Hsleep.
  assert (Edown : exists tr',
    down = (Ret tt,
            Subscriber.set_reconnect_threads [duration]
              (Subscriber.set_is_connected false
                 (Subscriber.set_disconnect_duration duration
                    (Subscriber.set_should_disconnect true s))),
            tr')).
  { subst down. unfold Subscriber.simulate_disconnect. rewrite bind_get, Hc.
    cbn [negb]. rewrite bind_print, !bind_modify, bind_get.
    cbn [Subscriber.is_connected Subscriber.set_disconnect_duration
         Subscriber.set_should_disconnect]. rewrite Hc. unfold when.
    destruct (disconnect_attempt_spec env
                (Subscriber.set_disconnect_duration duration
                   (Subscriber.set_should_disconnect true s))
                (tr ++ [Console (LSimulateStart duration)])) as (tr1 & E).
    unfold bind at 1. rewrite E. unfold modify. simpl. rewrite Ht.
    eexists. reflexivity. }
  destruct Edown as (tr' & Edown). subst back. rewrite Edown.
  set (s1 := Subscriber.set_reconnect_threads [duration] _).
  assert (Eback : Subscriber.reconnect_after_delay env 0 s1 tr'
                  = (Ret tt, Subscriber.set_reconnect_threads [] s1, tr')).
  { unfold Subscriber.reconnect_after_delay. rewrite bind_get.
    change (Subscriber.reconnect_threads s1 !! 0%nat) with (Some duration).
    cbv beta iota. rewrite bind_modify. unfold try_except.
    rewrite (bind_sleep_refused _ _ _ _ Hsleep). reflexivity. }
  unfold result_of, self_of, trace_of. cbn [fst snd]. rewrite Eback. cbn [fst snd].
  split_and!; reflexivity.
Qed.
End Edges.

Section LoopBound.
Import Publisher.
Variable env : Env.

Lemma publish_sends_at_most_one given (p : IoTMessagePublisher) tr :
  exists b tr',
    publish_test_message env given p tr = (Ret b, p, tr ++ tr') /\
    (length (published tr') <= 1)%nat.
Proof.
  unfold publish_test_message, bind at 1, get.
  destruct (negb (is_connected p) || negb (bool_decide (is_Some (mqtt_connection p)))).
  - unfold bind, print, emit, ret. eexists _, _. split; [reflexivity|]. simpl. lia.
  - unfold bind, new_uuid, datetime_now, bind, position, ret, try_except,
      bind, request, print, emit.
    destruct given as [id|]; simpl;
      match goal with
      | |- context [transport env ?n ?c] => destruct (transport env n c) as [info|msg]
      end; simpl; eexists _, _; rewrite <- ?app_assoc;
      (split; [reflexivity|]); simpl; lia.
Qed.

Lemma publishing_from_bound interval max_messages schedule n :
  forall i (p : IoTMessagePublisher) tr,
  exists r p' tr',
    publishing_from env interval max_messages schedule i n p tr = (r, p', tr ++ tr') /\
    (length (published tr') <= n)%nat.
Proof.
  induction n as [|n IH]; intros i p tr.
  - exists (Ret tt), p, []. simpl. unfold ret. rewrite app_nil_r. auto.
  - destruct (run_callbacks_spec (before_check (schedule i)) p tr)
      as (p1 & tr1 & E1 & _ & _ & _ & _ & _ & _ & Hp1 & _).
    simpl publishing_from. unfold bind at 1. rewrite E1. unfold bind at 1, get.
    destruct (is_connected p1); cbn [negb].
    + destruct (run_callbacks_spec (before_publish (schedule i)) p1 (tr ++ tr1))
        as (p2 & tr2 & E2 & _ & _ & _ & _ & _ & _ & Hp2 & _).
      unfold bind at 1. rewrite E2.
      destruct (publish_sends_at_most_one None p2 ((tr ++ tr1) ++ tr2))
        as (b & tr3 & E3 & Hp3).
      unfold bind at 1. rewrite E3.
      set (tr4 := if b then [Console (LProgress (Z.of_nat i + 1) max_messages)] else []).
      assert (E4 : when b (print (LProgress (Z.of_nat i + 1) max_messages)) p2
                     (((tr ++ tr1) ++ tr2) ++ tr3)
                   = (Ret tt, p2, (((tr ++ tr1) ++ tr2) ++ tr3) ++ tr4)).
      { unfold tr4. destruct b; simpl; unfold print, emit, ret; rewrite ?app_nil_r;
          reflexivity. }
      assert (Hp4 : published tr4 = []) by (unfold tr4; by destruct b).
      unfold bind at 1. rewrite E4. unfold bind at 1, sleep.
      destruct (sleepable interval).
      * unfold emit.
        destruct (IH (S i) p2 (((((tr ++ tr1) ++ tr2) ++ tr3) ++ tr4) ++ [Sleep interval]))
          as (r & p' & tr' & E & Hp).
        rewrite E. exists r, p', (tr1 ++ tr2 ++ tr3 ++ tr4 ++ [Sleep interval] ++ tr').
        rewrite <- !app_assoc. split; [reflexivity|].
        rewrite !published_app, Hp1, Hp2, Hp4. simpl. rewrite length_app. lia.
      * unfold raise. eexists _, p2, (tr1 ++ tr2 ++ tr3 ++ tr4).
        rewrite <- !app_assoc. split; [reflexivity|].
        rewrite !published_app, Hp1, Hp2, Hp4. simpl. rewrite app_nil_r. lia.
    + unfold print, emit. exists (Ret tt), p1, (tr1 ++ [Console LLoopStopped]).
      rewrite <- app_assoc. split; [reflexivity|].
      rewrite published_app, Hp1. simpl. lia.
Qed.

(** X24. [start_continuous_publishing] hands the MQTT library at most
    [max_messages] messages (none when [max_messages] is not positive),
    whatever the interval, whatever the transport answers and whatever
    callbacks run in between: one attempt per turn, and never a retry. *)
Theorem loop_sends_at_most_max_messages interval max_messages schedule
    (p : IoTMessagePublisher) tr :
  let out := start_continuous_publishing env interval max_messages schedule p tr in
  (length (published (trace_of out))
   <= length (published tr) + Z.to_nat max_messages)%nat.
Proof.
  intros out.
  destruct (publishing_from_bound interval max_messages schedule
              (Z.to_nat max_messages) 0 p
              (tr ++ [Console (LLoopStart interval max_messages)]))
    as (r & p' & tr' & E & Hp).
  assert (Eout : exists tr'', trace_of out
                 = (tr ++ [Console (LLoopStart interval max_messages)]) ++ tr' ++ tr''
                 /\ published tr'' = []).
  { subst out. unfold start_continuous_publishing, bind at 1, print at 1, emit.
    unfold bind at 1. rewrite E. destruct r as [[]|e].
    - unfold bind, print, emit, get, trace_of. cbn [snd].
      eexists. rewrite <- !app_assoc. split; reflexivity.
    - exists []. unfold trace_of. cbn [snd]. by rewrite app_nil_r. }
  destruct Eout as (tr'' & -> & Hp'').
  rewrite !published_app, !length_app, Hp''. simpl. lia.
Qed.
End LoopBound.

(* ===================================================================== *)
(** ** The further statements at concrete inputs *)
(* ===================================================================== *)

Lemma lifecycle_never_touches_the_tracker_witness :
  let evs := [Subscriber.Cycle 5 0 8; Subscriber.Wake 0 0;
              Subscriber.Interrupted 1 "network"; Subscriber.Resumed 1 true;
              Subscriber.Stats] in
  List.map tracker
    (Subscriber.subscribers (self_of (Subscriber.run_events demo_env evs demo_pool [])))
  = List.map tracker (Subscriber.subscribers demo_pool).
Proof.
  apply (lifecycle_never_touches_the_tracker demo_env _ demo_pool []).
  repeat constructor.
Defined.

Lemma refused_subscription_leaves_connection_open_witness :
  let out := Subscriber.connect deaf_env demo_subscriber [] in
  let later := Subscriber.disconnect deaf_env (self_of out) (trace_of out) in
  Subscriber.mqtt_connection (self_of out) = Some (Conn 0) /\
  requests (trace_of later)
  = [Build "message-queuing-test-subscriber-01";
     Connect "message-queuing-test-subscriber-01";
     Subscribe "message-queuing-test-subscriber-01"
       "$share/message-queuing-group/test/shared/messages"].
Proof.
  destruct (refused_subscription_leaves_connection_open deaf_env demo_subscriber []
              eq_refl eq_refl eq_refl) as (_ & Hopen & _ & _ & Hrequests).
  split; [exact Hopen | exact Hrequests].
Defined.

Lemma record_outlives_other_ids_witness :
  let s := self_of (Subscriber.deliver demo_env (demo_arrival "first") demo_subscriber []) in
  let others := [demo_arrival "anonymous"; demo_arrival "array"; demo_arrival "junk"] in
  Subscriber.processed_messages (self_of (Subscriber.deliver_all demo_env others s []))
    !! KStr "id-1"
  = Subscriber.processed_messages s !! KStr "id-1".
Proof.
  apply (record_outlives_other_ids demo_env _ (JStr "id-1")); [reflexivity|].
  repeat constructor; vm_compute; discriminate.
Defined.

Lemma failed_start_is_never_retried_witness :
  let started := Subscriber.start_all offline_env (Subscriber.new_manager demo_config 3) [] in
  let evs := [Subscriber.Cycle 5 0 8; Subscriber.Stats; Subscriber.Wake 0 0;
              Subscriber.Arrive 0 (demo_arrival "first")] in
  exists s',
    Subscriber.subscribers
      (self_of (Subscriber.run_events offline_env evs (self_of started) (trace_of started)))
      !! 0%nat = Some s' /\
    Subscriber.is_connected s' = false /\ Subscriber.reconnect_threads s' = [].
Proof.
  eapply (failed_start_is_never_retried offline_env demo_config 3 [] _ 0);
    [vm_compute; reflexivity | reflexivity | repeat constructor].
Defined.


Lemma publish_reports_acceptance_witness :
  let out := Publisher.publish_test_message demo_env None demo_publisher [] in
  result_of out = Ret true /\ self_of out = demo_publisher.
Proof.
  destruct (publish_reports_acceptance demo_env None demo_publisher [])
    as (Hres & Hself & _); [reflexivity | by eexists |].
  split; [exact Hres | exact Hself].
Defined.


Lemma refused_interval_raises_in_first_turn_witness :
  exists tr',
    result_of (Publisher.start_continuous_publishing demo_env (-1) 3 (fun _ => idle)
                 demo_publisher [])
    = Raise (Exn "ValueError" "sleep length must be non-negative") /\
    sleeps tr' = 0%nat.
Proof.
  destruct (refused_interval_raises_in_first_turn demo_env (-1) 3 (fun _ => idle)
              demo_publisher [])
    as (e & tr' & Hres & Hnegative & _ & _ & _ & Hsleeps & _);
    [reflexivity | lia | reflexivity |].
  exists tr'. rewrite Hres, (Hnegative eq_refl eq_refl).
  split; [reflexivity | exact Hsleeps].
Defined.

Lemma unreachable_broker_publishes_nothing_witness :
  published (trace_of (Publisher.main offline_env demo_config (fun _ => idle) [] tt []))
  = published [].
Proof.
  destruct (unreachable_broker_publishes_nothing offline_env demo_config
              (fun _ => idle) [] [])
    as (e & _ & _ & Hpublished); [reflexivity | intros n; reflexivity |].
  exact Hpublished.
Defined.

Lemma unreachable_broker_skips_the_run_witness :
  Subscriber.main offline_env demo_config
    [Subscriber.Stats; Subscriber.Cycle 5 0 8] tt []
  = Subscriber.main offline_env demo_config [] tt [].
Proof.
  destruct (unreachable_broker_skips_the_run offline_env) with
    (config := demo_config) (schedule := [Subscriber.Stats; Subscriber.Cycle 5 0 8])
    (tr := @nil effect) as (Hsame & _); [intros n client; reflexivity | reflexivity |].
  exact Hsame.
Defined.

Lemma negative_outage_never_ends_witness :
  let down := Subscriber.simulate_disconnect demo_env (-1) demo_connected_subscriber [] in
  let back := Subscriber.reconnect_after_delay demo_env 0 (self_of down) (trace_of down) in
  Subscriber.is_connected (self_of back) = false /\
  Subscriber.should_disconnect (self_of back) = true.
Proof.
  destruct (negative_outage_never_ends demo_env (-1) demo_connected_subscriber [])
    as (_ & _ & _ & Hdown & Hflag & _); [reflexivity | reflexivity | lia |].
  split; [exact Hdown | exact Hflag].
Defined.
